(** * elog: the rotating file handler and its logger

    A shallow embedding of [elog.go].  First [EasyFileHandler]: its [Write],
    [Flush] and [rotateFile] methods, over a model of the parts of Go's
    [os] and [bufio] packages they call.  The file system, the table of
    open [os.File] objects, the standard error stream and the environment's
    choice of which system calls fail are one explicit state, [os_state];
    the handler is a record that the methods pass along.  Then
    [EasyLogger]: the levels, the header of a line, [Print], [Printf] and
    [Flush] on top of the handler, the goroutine [flushDaemon] that flushes
    on a ticker, and the logger that [init] makes for the package. *)

From Stdlib Require Import ZArith Strings.Byte Strings.Ascii.
From stdpp Require Import gmap strings list pretty.

Local Open Scope Z_scope.

Global Instance byte_eq_dec : EqDecision byte := Byte.byte_eq_dec.

(** ** Errors *)

(** The [error] values that can reach the handler.  [Errno c] stands for an
    error reported by the operating system (permission denied, no space
    left, ...); the other four are the sentinel errors of [os] and [io]. *)
Inductive error : Set :=
| ErrInvalid
| ErrClosed
| ErrNotExist
| ErrShortWrite
| Errno (code : nat).

Global Instance error_eq_dec : EqDecision error.
Proof. solve_decision. Defined.

(** [err.Error()] *)
Definition Error (e : error) : string :=
  match e with
  | ErrInvalid => "invalid argument"
  | ErrClosed => "file already closed"
  | ErrNotExist => "file does not exist"
  | ErrShortWrite => "short write"
  | Errno c => "errno " +:+ pretty c
  end.

(** [os.IsNotExist] *)
Definition IsNotExist (e : error) : bool :=
  match e with ErrNotExist => true | _ => false end.

(** ** The operating system *)

(** What the environment decides about one system call: it goes through, or
    it fails with [Errno code]; a failing [write] still transfers the first
    [count] bytes it was given. *)
Inductive fault : Set :=
| NoFault
| Fault (code : nat) (count : nat).

(** The system calls that change something, in the order they were made. *)
Inductive event : Set :=
| EvWrite (f : nat) (p : list byte) (n : nat) (err : option error)
| EvClose (f : nat) (err : option error)
| EvRemove (name : string) (err : option error)
| EvRename (oldname newname : string) (err : option error)
| EvOpen (name : string) (err : option error).

Global Instance event_eq_dec : EqDecision event.
Proof. solve_decision. Defined.

Record os_state : Type := mk_os {
  os_Args0 : string;                (* os.Args[0] *)
  os_dir : gmap string nat;         (* directory entries: name to inode *)
  os_inodes : list (list byte);     (* inode number to file content *)
  os_files : list (nat * bool);     (* os.File objects: inode, closed? *)
  os_stderr : list string;          (* what was written to os.Stderr *)
  os_faults : list fault;           (* fate of the system calls to come *)
  os_trace : list event
}.

Definition set_dir (d : gmap string nat) (w : os_state) : os_state :=
  mk_os (os_Args0 w) d (os_inodes w) (os_files w) (os_stderr w)
        (os_faults w) (os_trace w).
Definition set_inodes (i : list (list byte)) (w : os_state) : os_state :=
  mk_os (os_Args0 w) (os_dir w) i (os_files w) (os_stderr w)
        (os_faults w) (os_trace w).
Definition set_files (f : list (nat * bool)) (w : os_state) : os_state :=
  mk_os (os_Args0 w) (os_dir w) (os_inodes w) f (os_stderr w)
        (os_faults w) (os_trace w).
Definition set_stderr (s : list string) (w : os_state) : os_state :=
  mk_os (os_Args0 w) (os_dir w) (os_inodes w) (os_files w) s
        (os_faults w) (os_trace w).
Definition set_faults (f : list fault) (w : os_state) : os_state :=
  mk_os (os_Args0 w) (os_dir w) (os_inodes w) (os_files w) (os_stderr w)
        f (os_trace w).
Definition log_event (ev : event) (w : os_state) : os_state :=
  mk_os (os_Args0 w) (os_dir w) (os_inodes w) (os_files w) (os_stderr w)
        (os_faults w) (os_trace w ++ [ev]).

(** Every system call asks the environment once. *)
Definition next_fault (w : os_state) : fault * os_state :=
  match os_faults w with
  | [] => (NoFault, w)
  | f :: fs => (f, set_faults fs w)
  end.

(** The content of the file an inode number stands for. *)
Definition content (w : os_state) (ino : nat) : list byte :=
  default [] (os_inodes w !! ino).

(** [Write] of [os.File]: on a closed file no system call is made. *)
Definition file_Write (f : nat) (p : list byte) (w : os_state)
  : (nat * option error) * os_state :=
  match os_files w !! f with
  | None => ((0%nat, Some ErrInvalid), w)
  | Some (ino, true) => ((0%nat, Some ErrClosed), w)
  | Some (ino, false) =>
      match next_fault w with
      | (NoFault, w1) =>
          ((length p, None),
           log_event (EvWrite f p (length p) None)
             (set_inodes (alter (λ c, c ++ p) ino (os_inodes w1)) w1))
      | (Fault c k, w1) =>
          let n := (k `min` length p)%nat in
          ((n, Some (Errno c)),
           log_event (EvWrite f p n (Some (Errno c)))
             (set_inodes (alter (λ c, c ++ take n p) ino (os_inodes w1)) w1))
      end
  end.

(** [Close] of [os.File]: a nil receiver gives [ErrInvalid], a second close
    [ErrClosed]; the descriptor is released whether or not the call
    reports an error. *)
Definition file_Close (file : option nat) (w : os_state)
  : option error * os_state :=
  match file with
  | None => (Some ErrInvalid, w)
  | Some f =>
      match os_files w !! f with
      | None => (Some ErrInvalid, w)
      | Some (ino, true) => (Some ErrClosed, w)
      | Some (ino, false) =>
          let '(ft, w1) := next_fault w in
          let err := match ft with NoFault => None
                                 | Fault c _ => Some (Errno c) end in
          (err, log_event (EvClose f err)
                  (set_files (<[f := (ino, true)]> (os_files w1)) w1))
      end
  end.

(** [os.Stat], as far as its error goes. *)
Definition os_Stat (name : string) (w : os_state) : option error * os_state :=
  let '(ft, w1) := next_fault w in
  match ft with
  | Fault c _ => (Some (Errno c), w1)
  | NoFault =>
      match os_dir w1 !! name with
      | Some _ => (None, w1)
      | None => (Some ErrNotExist, w1)
      end
  end.

(** [os.Remove] *)
Definition os_Remove (name : string) (w : os_state) : option error * os_state :=
  let '(ft, w1) := next_fault w in
  match ft with
  | Fault c _ => (Some (Errno c), log_event (EvRemove name (Some (Errno c))) w1)
  | NoFault =>
      match os_dir w1 !! name with
      | Some _ =>
          (None, log_event (EvRemove name None)
                   (set_dir (delete name (os_dir w1)) w1))
      | None =>
          (Some ErrNotExist, log_event (EvRemove name (Some ErrNotExist)) w1)
      end
  end.

(** [os.Rename]: an existing [newname] is replaced. *)
Definition os_Rename (oldname newname : string) (w : os_state)
  : option error * os_state :=
  let '(ft, w1) := next_fault w in
  match ft with
  | Fault c _ =>
      (Some (Errno c), log_event (EvRename oldname newname (Some (Errno c))) w1)
  | NoFault =>
      match os_dir w1 !! oldname with
      | Some ino =>
          (None, log_event (EvRename oldname newname None)
                   (set_dir (<[newname := ino]> (delete oldname (os_dir w1))) w1))
      | None =>
          (Some ErrNotExist,
           log_event (EvRename oldname newname (Some ErrNotExist)) w1)
      end
  end.

(** [os.OpenFile(name, os.O_RDWR|os.O_CREATE|os.O_APPEND, 0666)]: the file
    is created empty when the name is free, and kept as it is otherwise;
    the result is a new [os.File] and a nil error ([inl]), or a nil file
    and an error ([inr]). *)
Definition os_OpenFile (name : string) (w : os_state)
  : (nat + error) * os_state :=
  let '(ft, w1) := next_fault w in
  match ft with
  | Fault c _ =>
      (inr (Errno c), log_event (EvOpen name (Some (Errno c))) w1)
  | NoFault =>
      let f := length (os_files w1) in
      match os_dir w1 !! name with
      | Some ino =>
          (inl f,
           log_event (EvOpen name None)
             (set_files (os_files w1 ++ [(ino, false)]) w1))
      | None =>
          let ino := length (os_inodes w1) in
          (inl f,
           log_event (EvOpen name None)
             (set_files (os_files w1 ++ [(ino, false)])
                (set_inodes (os_inodes w1 ++ [[]])
                   (set_dir (<[name := ino]> (os_dir w1)) w1))))
      end
  end.

(** [os.Stderr.WriteString] *)
Definition Stderr_WriteString (s : string) (w : os_state) : os_state :=
  set_stderr (os_stderr w ++ [s]) w.

(** ** bufio.Writer *)

(** [bw_buf] is [b.buf[0:b.n]], [bw_size] is [len(b.buf)], [bw_wr] the
    [os.File] written to and [bw_err] the error the writer remembers. *)
Record bufio_Writer : Type := mk_bw {
  bw_wr : nat;
  bw_size : nat;
  bw_buf : list byte;
  bw_err : option error
}.

(** [bufio.NewWriterSize]: a size of zero or less means 4096 bytes. *)
Definition NewWriterSize (f : nat) (size : Z) : bufio_Writer :=
  mk_bw f (if decide (size <= 0) then 4096%nat else Z.to_nat size) [] None.

Definition Available (b : bufio_Writer) : nat :=
  (bw_size b - length (bw_buf b))%nat.

(** [Flush] of [bufio.Writer] *)
Definition bufio_Flush (b : bufio_Writer) (w : os_state)
  : (option error * bufio_Writer) * os_state :=
  match bw_err b with
  | Some e => ((Some e, b), w)
  | None =>
      match bw_buf b with
      | [] => ((None, b), w)
      | _ :: _ =>
          let '((n, err), w1) := file_Write (bw_wr b) (bw_buf b) w in
          let err := if decide ((n < length (bw_buf b))%nat ∧ err = None)
                     then Some ErrShortWrite else err in
          match err with
          | Some e =>
              ((Some e, mk_bw (bw_wr b) (bw_size b) (drop n (bw_buf b)) (Some e)),
               w1)
          | None => ((None, mk_bw (bw_wr b) (bw_size b) [] None), w1)
          end
      end
  end.

(** [Write] of [bufio.Writer].  Its loop
    [for len(p) > b.Available() && b.err == nil] runs on [fuel]. *)
Fixpoint bufio_Write_loop (fuel : nat) (b : bufio_Writer) (p : list byte)
    (nn : nat) (w : os_state) : (nat * option error * bufio_Writer) * os_state :=
  if decide ((Available b < length p)%nat ∧ bw_err b = None) then
    match fuel with
    | O => ((nn, bw_err b, b), w)
    | S fuel' =>
        match bw_buf b with
        | [] =>
            let '((n, err), w1) := file_Write (bw_wr b) p w in
            bufio_Write_loop fuel'
              (mk_bw (bw_wr b) (bw_size b) (bw_buf b) err)
              (drop n p) (nn + n)%nat w1
        | _ :: _ =>
            let n := (Available b `min` length p)%nat in
            let b1 := mk_bw (bw_wr b) (bw_size b) (bw_buf b ++ take n p)
                            (bw_err b) in
            let '((_, b2), w1) := bufio_Flush b1 w in
            bufio_Write_loop fuel' b2 (drop n p) (nn + n)%nat w1
        end
    end
  else
    match bw_err b with
    | Some e => ((nn, Some e, b), w)
    | None =>
        ((nn + length p)%nat, None,
         mk_bw (bw_wr b) (bw_size b) (bw_buf b ++ p) None, w)
    end.

(** Three rounds are all the loop can make: after a direct write either
    [p] is empty or the error is set, and after a flush either the buffer
    is empty or the error is set. *)
Definition bufio_Write (b : bufio_Writer) (p : list byte) (w : os_state)
  : (nat * option error * bufio_Writer) * os_state :=
  bufio_Write_loop 3 b p 0%nat w.

(** ** The handler *)

Definition LOG_MAX_FILE_SIZE : Z := 1024 * 1024 * 1024.
Definition LOG_MAX_BUFFER_SIZE : Z := 1024 * 1024.
Definition LOG_MAX_ROTATE_FILE_NUM : Z := 10.

Record EasyFileHandler : Type := mk_efh {
  path : string;
  file : option nat;                 (* nil is None *)
  buffer : option bufio_Writer;      (* nil is None *)
  bufferSize : Z;
  currentDate : string;
  nbytes : Z
}.

Definition NewEasyFileHandler (path : string) (bufferSize : Z)
  : EasyFileHandler :=
  mk_efh path None None bufferSize "" 0.

(** Go's [int] is 64 bits wide on the platforms the package is built for;
    [+=] wraps around. *)
Definition int_wrap (z : Z) : Z := (z + 2 ^ 63) `mod` 2 ^ 64 - 2 ^ 63.
Definition int_add (a b : Z) : Z := int_wrap (a + b).

(** [strconv.Itoa] *)
Definition Itoa (i : Z) : string := pretty i.

(** A method of the handler either returns, having changed the handler and
    the operating system's state, or panics on a nil pointer. *)
Inductive outcome (A : Type) : Type :=
| Done (a : A) (efh : EasyFileHandler) (w : os_state)
| Panic.
Arguments Done {A} a efh w.
Arguments Panic {A}.

Definition M (A : Type) : Type := EasyFileHandler → os_state → outcome A.

Definition ret {A} (a : A) : M A := λ efh w, Done a efh w.
Definition bind {A B} (m : M A) (k : A → M B) : M B :=
  λ efh w, match m efh w with
           | Done a efh1 w1 => k a efh1 w1
           | Panic => Panic
           end.

Declare Scope efh_scope.
Delimit Scope efh_scope with efh.
Notation "x <- m ;; k" := (bind m (λ x, k))
  (at level 100, m at next level, right associativity) : efh_scope.
Notation "m ;; k" := (bind m (λ _, k))
  (at level 100, right associativity) : efh_scope.
Local Open Scope efh_scope.

(** A call into [os]. *)
Definition call {A} (f : os_state → A * os_state) : M A :=
  λ efh w, let '(a, w1) := f w in Done a efh w1.
Definition get_efh : M EasyFileHandler := λ efh w, Done efh efh w.
Definition get_Args0 : M string := λ efh w, Done (os_Args0 w) efh w.

Definition set_file (f : option nat) : M unit :=
  λ efh w, Done () (mk_efh (path efh) f (buffer efh) (bufferSize efh)
                          (currentDate efh) (nbytes efh)) w.
Definition set_buffer (b : option bufio_Writer) : M unit :=
  λ efh w, Done () (mk_efh (path efh) (file efh) b (bufferSize efh)
                          (currentDate efh) (nbytes efh)) w.
Definition set_currentDate (d : string) : M unit :=
  λ efh w, Done () (mk_efh (path efh) (file efh) (buffer efh) (bufferSize efh)
                          d (nbytes efh)) w.
Definition set_nbytes (n : Z) : M unit :=
  λ efh w, Done () (mk_efh (path efh) (file efh) (buffer efh) (bufferSize efh)
                          (currentDate efh) n) w.

(** [efh.buffer.Flush()]; the field is a pointer, nil until the first file
    is opened. *)
Definition buffer_Flush : M (option error) :=
  λ efh w, match buffer efh with
           | None => Panic
           | Some b =>
               let '((err, b1), w1) := bufio_Flush b w in
               Done err (mk_efh (path efh) (file efh) (Some b1)
                           (bufferSize efh) (currentDate efh) (nbytes efh)) w1
           end.

(** [efh.buffer.Write(data)] *)
Definition buffer_Write (data : list byte) : M (nat * option error) :=
  λ efh w, match buffer efh with
           | None => Panic
           | Some b =>
               let '((n, err, b1), w1) := bufio_Write b data w in
               Done (n, err) (mk_efh (path efh) (file efh) (Some b1)
                           (bufferSize efh) (currentDate efh) (nbytes efh)) w1
           end.

Definition fileIsExist (name : string) : M bool :=
  err <- call (os_Stat name);;
  match err with
  | None => ret true
  | Some e => if IsNotExist e then ret false else ret true
  end.

(** The names the handler gives its files: the live file of a date, and the
    file that carries the number [i]. *)
Definition liveName (dir prog date : string) : string :=
  dir +:+ "/" +:+ prog +:+ "-" +:+ date +:+ ".log".
Definition backupName (dir prog date : string) (i : Z) : string :=
  dir +:+ "/" +:+ prog +:+ "-" +:+ date +:+ ".log." +:+ Itoa i.

(** The name [logFilePath] takes in round [i] of the loop below: the live
    name for [i == 0], the numbered one otherwise. *)
Definition chainName (dir prog date : string) (i : nat) : string :=
  if decide (i = 0%nat) then liveName dir prog date
  else backupName dir prog date (Z.of_nat i).

(** The body of [for i := LOG_MAX_ROTATE_FILE_NUM - 2; i >= 0; i--], with
    [n] rounds to go: the coming round has [i = n - 1].  [Some e] is
    [return err]. *)
Fixpoint rename_loop (date : string) (n : nat) : M (option error) :=
  match n with
  | O => ret None
  | S i =>
      efh <- get_efh;;
      prog <- get_Args0;;
      let logFilePath := chainName (path efh) prog date i in
      ex <- fileIsExist logFilePath;;
      err <- (if ex : bool then
                let logFileNewPath :=
                  backupName (path efh) prog date (Z.of_nat i + 1) in
                call (os_Rename logFilePath logFileNewPath)
              else ret None);;
      match err with
      | Some e => ret (Some e)
      | None => rename_loop date i
      end
  end.

Section Limits.

(** The two limits the rotation depends on.  The source fixes them to
    [LOG_MAX_FILE_SIZE] and [LOG_MAX_ROTATE_FILE_NUM]. *)
Variable max_file_size : Z.
Variable max_rotate_file_num : Z.

(** [if efh.currentDate != date { ... }] *)
Definition date_rollover (date : string) : M (option error) :=
  efh <- get_efh;;
  if decide (currentDate efh ≠ date) then
    err <- match file efh with
           | Some _ =>
               buffer_Flush;;
               err <- call (file_Close (file efh));;
               match err with
               | Some e => ret (Some e)
               | None => set_file None;; ret None
               end
           | None => ret None
           end;;
    match err with
    | Some e => ret (Some e)
    | None => set_currentDate date;; ret None
    end
  else ret None.

(** [if efh.nbytes > LOG_MAX_FILE_SIZE { ... }] *)
Definition size_rollover (date : string) : M (option error) :=
  efh <- get_efh;;
  if decide (nbytes efh > max_file_size) then
    buffer_Flush;;
    err <- call (file_Close (file efh));;
    match err with
    | Some e => ret (Some e)
    | None =>
        set_file None;;
        prog <- get_Args0;;
        let logFilePath :=
          backupName (path efh) prog date (max_rotate_file_num - 1) in
        ex <- fileIsExist logFilePath;;
        err <- (if ex : bool then call (os_Remove logFilePath) else ret None);;
        match err with
        | Some e => ret (Some e)
        | None => rename_loop date (Z.to_nat (max_rotate_file_num - 1))
        end
    end
  else ret None.

(** [if efh.file == nil { ... }] *)
Definition open_if_needed (date : string) : M (option error) :=
  efh <- get_efh;;
  match file efh with
  | Some _ => ret None
  | None =>
      prog <- get_Args0;;
      let logFilePath := liveName (path efh) prog date in
      r <- call (os_OpenFile logFilePath);;
      match r with
      | inl f =>
          set_file (Some f);;
          set_nbytes 0;;
          set_buffer (Some (NewWriterSize f (bufferSize efh)));;
          ret None
      | inr e => set_file None;; ret (Some e)
      end
  end.

(** [rotateFile]; [date] is what [getTimeNowDate()] returns in this call. *)
Definition rotateFile (date : string) : M (option error) :=
  err <- date_rollover date;;
  match err with
  | Some e => ret (Some e)
  | None =>
      err <- size_rollover date;;
      match err with
      | Some e => ret (Some e)
      | None => open_if_needed date
      end
  end.

Definition newline : string := String "010"%char "".

(** [Write]; the count it returns is that of [bufio]'s writer. *)
Definition Write (date : string) (data : list byte) : M (nat * option error) :=
  err <- rotateFile date;;
  match err with
  | Some e =>
      call (λ w, ((), Stderr_WriteString (Error e +:+ newline) w));;
      ret (0%nat, Some e)
  | None =>
      efh <- get_efh;;
      set_nbytes (int_add (nbytes efh) (Z.of_nat (length data)));;
      buffer_Write data
  end.

End Limits.

(** [Flush] *)
Definition Flush : M unit :=
  efh <- get_efh;;
  match file efh with
  | Some _ => buffer_Flush;; ret ()
  | None => ret ()
  end.

(** ** Levels *)

Definition LOG_LEVEL_DEBUG : Z := 1.
Definition LOG_LEVEL_INFO : Z := 2.
Definition LOG_LEVEL_WARN : Z := 3.
Definition LOG_LEVEL_ERROR : Z := 4.
Definition LOG_DEPTH_GLOBAL : Z := 4.
Definition LOG_DEPTH_HANDLER : Z := 3.

Definition getLogLevelInt (level : string) : Z :=
  if decide (level = "DEBUG") then LOG_LEVEL_DEBUG
  else if decide (level = "INFO") then LOG_LEVEL_INFO
  else if decide (level = "WARN") then LOG_LEVEL_WARN
  else if decide (level = "ERROR") then LOG_LEVEL_ERROR
  else LOG_LEVEL_INFO.

Definition getLogLevelString (level : Z) : string :=
  if decide (level = LOG_LEVEL_DEBUG) then "DEBUG"
  else if decide (level = LOG_LEVEL_INFO) then "INFO"
  else if decide (level = LOG_LEVEL_WARN) then "WARN"
  else if decide (level = LOG_LEVEL_ERROR) then "ERROR"
  else "INFO".

(** ** The header of a line *)

(** [strings.HasPrefix] *)
Fixpoint HasPrefix (s prefix : string) {struct prefix} : bool :=
  match prefix, s with
  | EmptyString, _ => true
  | String _ _, EmptyString => false
  | String c prefix', String d s' =>
      if decide (c = d) then HasPrefix s' prefix' else false
  end.

(** [strings.LastIndex(s, substr)]: the index of the last instance of
    [substr] in [s], or [-1] when [substr] is not present in [s]. *)
Fixpoint LastIndex (s substr : string) : Z :=
  match s with
  | EmptyString => if HasPrefix s substr then 0 else -1
  | String _ s' =>
      let i := LastIndex s' substr in
      if decide (i >= 0) then i + 1
      else if HasPrefix s substr then 0 else -1
  end.

(** [s[i:]] *)
Fixpoint slice_from (s : string) (i : nat) : string :=
  match i, s with
  | O, _ => s
  | S _, EmptyString => EmptyString
  | S i', String _ s' => slice_from s' i'
  end.

(** The file and the line [getHeader] prints, from what
    [runtime.Caller(el.depth)] returned; [None] is [!ok]. *)
Definition caller_position (caller : option (string * Z)) : string * Z :=
  match caller with
  | None => ("???", 1)
  | Some (file, line) =>
      let slash := LastIndex file "/" in
      (if decide (slash >= 0) then slice_from file (Z.to_nat (slash + 1))
       else file,
       line)
  end.

(** What [fmt] makes of the format ["[%s][%s][file:%s line:%d] "] and the
    operands [getLogLevelString(level)], [getTimeNowStr()], [file], [line]. *)
Definition header_text (level : Z) (now file : string) (line : Z) : string :=
  "[" +:+ getLogLevelString level +:+ "][" +:+ now +:+ "][file:" +:+ file +:+
  " line:" +:+ Itoa line +:+ "] ".

(** ** The logger *)

(** [writer] is the handler behind the interface [EasyLogHandler]: the file
    handler, the one implementation the package has.  [mutex] tells whether
    the mutex is locked. *)
Record EasyLogger : Type := mk_el {
  mutex : bool;
  logToStderr : bool;
  flushTime : Z;
  logLevel : string;
  writer : EasyFileHandler;
  depth : Z
}.

(** What one call reads from its surroundings: whether the command line
    was parsed, the caller [runtime.Caller] finds, the time, once for the
    header sent to the writer and once for the header sent to [os.Stderr],
    and the date, in each [Write] of the handler. *)
Record reads : Type := mk_reads {
  rd_parsed : bool;
  rd_caller : option (string * Z);
  rd_now : string;
  rd_now_stderr : string;
  rd_date1 : string;
  rd_date2 : string;
  rd_date3 : string
}.

(** A method of the logger returns, panics, or waits for ever for a mutex
    that is locked. *)
Inductive result (A : Type) : Type :=
| Returned (a : A) (el : EasyLogger) (w : os_state)
| Panicked
| Blocked.
Arguments Returned {A} a el w.
Arguments Panicked {A}.
Arguments Blocked {A}.

Definition L (A : Type) : Type := EasyLogger → os_state → result A.

Definition lret {A} (a : A) : L A := λ el w, Returned a el w.
Definition lbind {A B} (m : L A) (k : A → L B) : L B :=
  λ el w, match m el w with
          | Returned a el1 w1 => k a el1 w1
          | Panicked => Panicked
          | Blocked => Blocked
          end.

Declare Scope logger_scope.
Delimit Scope logger_scope with logger.
Notation "x <- m ;; k" := (lbind m (λ x, k))
  (at level 100, m at next level, right associativity) : logger_scope.
Notation "m ;; k" := (lbind m (λ _, k))
  (at level 100, right associativity) : logger_scope.

Definition get_el : L EasyLogger := λ el w, Returned el el w.

(** [el.mutex.Lock()] and [el.mutex.Unlock()] *)
Definition Lock : L unit :=
  λ el w, if mutex el then Blocked
          else Returned () (mk_el true (logToStderr el) (flushTime el)
                              (logLevel el) (writer el) (depth el)) w.
Definition Unlock : L unit :=
  λ el w, if mutex el
          then Returned () (mk_el false (logToStderr el) (flushTime el)
                              (logLevel el) (writer el) (depth el)) w
          else Panicked.

(** A method of the writer, called through the interface. *)
Definition on_writer {A} (m : M A) : L A :=
  λ el w, match m (writer el) w with
          | Done a efh w1 =>
              Returned a (mk_el (mutex el) (logToStderr el) (flushTime el)
                            (logLevel el) efh (depth el)) w1
          | Panic => Panicked
          end.

(** A write to [os.Stderr]. *)
Definition to_stderr (s : string) : L unit :=
  λ el w, Returned () el (Stderr_WriteString s w).

Module Logger.
Section Logger.

Local Open Scope logger_scope.

(** The two limits of the handler. *)
Variable max_file_size : Z.
Variable max_rotate_file_num : Z.

(** The operands of a call are values of any type; [fmt] decides what is
    printed for them: [Sprintln] for [fmt.Fprintln], [Sprintf] for
    [fmt.Fprintf]. *)
Variable arg : Type.
Variable Sprintln : list arg → string.
Variable Sprintf : string → list arg → string.

(** [fmt.Fprintf] and [fmt.Fprintln] format into a buffer of their own and
    hand it to the writer in one call of [Write]. *)
Definition writer_Write (date : string) (s : string)
  : L (nat * option error) :=
  on_writer (Write max_file_size max_rotate_file_num date
               (String.list_byte_of_string s)).

Definition getHeader (rd : reads) (level : Z) : L unit :=
  el <- get_el;;
  let '(file, line) := caller_position (rd_caller rd) in
  writer_Write (rd_date1 rd) (header_text level (rd_now rd) file line);;
  if logToStderr el
  then to_stderr (header_text level (rd_now_stderr rd) file line)
  else lret ().

Definition Print (rd : reads) (level : Z) (args : list arg) : L unit :=
  el <- get_el;;
  if bool_decide (depth el = LOG_DEPTH_GLOBAL) && negb (rd_parsed rd) then
    to_stderr ("ERROR: logging before flag.Parse" +:+ newline)
  else if decide (level < getLogLevelInt (logLevel el)) then lret ()
  else
    Lock;;
    getHeader rd level;;
    writer_Write (rd_date2 rd) (Sprintln args);;
    (if logToStderr el then to_stderr (Sprintln args) else lret ());;
    Unlock.

Definition Printf (rd : reads) (level : Z) (format : string)
    (args : list arg) : L unit :=
  el <- get_el;;
  if bool_decide (depth el = LOG_DEPTH_GLOBAL) && negb (rd_parsed rd) then
    to_stderr ("ERROR: logging before flag.Parse" +:+ newline)
  else if decide (level < getLogLevelInt (logLevel el)) then lret ()
  else
    Lock;;
    getHeader rd level;;
    writer_Write (rd_date2 rd) (Sprintf format args);;
    writer_Write (rd_date3 rd) newline;;
    (if logToStderr el
     then to_stderr (Sprintf format args);; to_stderr newline
     else lret ());;
    Unlock.

Definition Flush : L unit :=
  Lock;;
  on_writer Flush;;
  Unlock.

Definition Debug (rd : reads) (args : list arg) : L unit :=
  Print rd LOG_LEVEL_DEBUG args.
Definition Debugf (rd : reads) (format : string) (args : list arg) : L unit :=
  Printf rd LOG_LEVEL_DEBUG format args.
Definition Info (rd : reads) (args : list arg) : L unit :=
  Print rd LOG_LEVEL_INFO args.
Definition Infof (rd : reads) (format : string) (args : list arg) : L unit :=
  Printf rd LOG_LEVEL_INFO format args.
Definition Warn (rd : reads) (args : list arg) : L unit :=
  Print rd LOG_LEVEL_WARN args.
Definition Warnf (rd : reads) (format : string) (args : list arg) : L unit :=
  Printf rd LOG_LEVEL_WARN format args.
Definition Error (rd : reads) (args : list arg) : L unit :=
  Print rd LOG_LEVEL_ERROR args.
Definition Errorf (rd : reads) (format : string) (args : list arg) : L unit :=
  Printf rd LOG_LEVEL_ERROR format args.

(** What clients do with a logger, the goroutine that flushes among them. *)
Inductive call : Type :=
| CallPrint (rd : reads) (level : Z) (args : list arg)
| CallPrintf (rd : reads) (level : Z) (format : string) (args : list arg)
| CallFlush.

Fixpoint run (cs : list call) : L unit :=
  match cs with
  | [] => lret ()
  | CallPrint rd level args :: cs => Print rd level args;; run cs
  | CallPrintf rd level format args :: cs =>
      Printf rd level format args;; run cs
  | CallFlush :: cs => Flush;; run cs
  end.

End Logger.

Arguments CallPrint {arg} rd level args.
Arguments CallPrintf {arg} rd level format args.
Arguments CallFlush {arg}.

End Logger.

(** ** The goroutine that flushes *)

(** [time.Second * time.Duration(flushTime)]: a number of nanoseconds in an
    [int64], the product wrapping around. *)
Definition ticker_interval (flushTime : Z) : Z :=
  int_wrap (1000000000 * flushTime).

(** [time.NewTicker(d)] panics when [d] is not positive.  The panic is in
    the goroutine and nothing recovers it: the process ends. *)
Definition NewTicker (d : Z) : L unit :=
  λ el w, if decide (d ≤ 0) then Panicked else Returned () el w.

(** The rounds of the loop of [flushDaemon], one for each tick. *)
Fixpoint flush_rounds (ticks : nat) : L unit :=
  match ticks with
  | O => lret ()
  | S ticks => lbind Logger.Flush (λ _, flush_rounds ticks)
  end.

(** [flushDaemon], up to the tick numbered [ticks]: the loop has no end.
    [flushTime] is read when the goroutine comes to run.  The rounds of the
    loop come between the calls of the clients: a [Logger.CallFlush] among
    the calls of [Logger.run] is such a round. *)
Definition flushDaemon (ticks : nat) : L unit :=
  lbind get_el (λ el,
    lbind (NewTicker (ticker_interval (flushTime el))) (λ _,
      flush_rounds ticks)).


(** ** The logger of the package *)

(** What the command line gives for the four flags [init] declares;
    [None] when a flag is not given. *)
Record flags : Type := mk_flags {
  given_logToStderr : option bool;
  given_logFlushTime : option Z;
  given_logLevel : option string;
  given_logPath : option string
}.

(** The variables of the package: [logger], and the variable [logPath]
    that [init] declares and binds to the flag of that name; and the
    goroutine that [init] starts on [logger]. *)
Record package : Type := mk_package {
  logger : EasyLogger;
  logPath : string;
  goroutine : nat → L unit
}.

(** [init].  Declaring a flag sets the variable bound to it to the flag's
    default, so [logPath] is ["./"] when the handler is made.  The last
    statement is [go logger.flushDaemon()]: the goroutine reads
    [logger.flushTime] when it comes to run, before [flag.Parse()] or
    after it. *)
Definition init : package :=
  let logToStderr := false in
  let flushTime := 3 in
  let logLevel := "INFO" in
  let logPath := "./" in
  mk_package
    (mk_el false logToStderr flushTime logLevel
       (NewEasyFileHandler logPath LOG_MAX_BUFFER_SIZE) LOG_DEPTH_GLOBAL)
    logPath
    flushDaemon.

(** [flag.Parse()], when it accepts the command line: each flag given is
    stored in the variable bound to it.  What [flag.Parsed()] then returns
    is among the [reads] of a call. *)
Definition flag_Parse (given : flags) (p : package) : package :=
  let el := logger p in
  mk_package
    (mk_el (mutex el)
       (default (logToStderr el) (given_logToStderr given))
       (default (flushTime el) (given_logFlushTime given))
       (default (logLevel el) (given_logLevel given))
       (writer el) (depth el))
    (default (logPath p) (given_logPath given))
    (goroutine p).

(** * The vocabulary of the properties *)

(** ** System calls and what they change *)

(** The names a run of system calls brings into the directory. *)
Fixpoint created (evs : list event) : gset string :=
  match evs with
  | [] => ∅
  | EvOpen n None :: evs => {[n]} ∪ created evs
  | EvRename _ n None :: evs => {[n]} ∪ created evs
  | _ :: evs => created evs
  end.

(** What a rename does to the directory. *)
Definition rename_dir (old new : string) (d : gmap string nat)
  : gmap string nat :=
  match d !! old with
  | Some ino => <[new := ino]> (delete old d)
  | None => d
  end.

(** What a call that removes or renames does to the directory. *)
Definition dir_effect (d : gmap string nat) (ev : event) : gmap string nat :=
  match ev with
  | EvRemove name None => delete name d
  | EvRename old new None => rename_dir old new d
  | _ => d
  end.

Definition is_write (ev : event) : Prop :=
  match ev with EvWrite _ _ _ _ => True | _ => False end.
Definition is_open (ev : event) : Prop :=
  match ev with EvOpen _ None => True | _ => False end.

(** What a call does to the directory and to the number of files there
    ever were: an open creates the file when the name is free, and the new
    file takes the next number. *)
Definition ev_apply (s : gmap string nat * nat) (ev : event)
  : gmap string nat * nat :=
  match ev with
  | EvOpen name None =>
      match s.1 !! name with
      | Some _ => s
      | None => (<[name := s.2]> s.1, S s.2)
      end
  | _ => (dir_effect s.1 ev, s.2)
  end.

(** [sys_ext w evs w']: from [w] to [w'] the calls [evs] were made; the
    directory gained no other names than those the calls created; the
    directory and the number of files are what the calls make of them; and
    unless a write was made, every file has the content it had. *)
Record sys_ext (w : os_state) (evs : list event) (w' : os_state) : Prop := {
  ext_Args0 : os_Args0 w' = os_Args0 w;
  ext_trace : os_trace w' = os_trace w ++ evs;
  ext_dom : dom (os_dir w') ⊆ dom (os_dir w) ∪ created evs;
  ext_faults : os_faults w = [] → os_faults w' = [];
  ext_steps : (os_dir w', length (os_inodes w')) =
              foldl ev_apply (os_dir w, length (os_inodes w)) evs;
  ext_content : Forall (λ ev, ¬ is_write ev) evs →
                ∀ ino, content w' ino = content w ino
}.

(** ** The shift of the backup chain *)

(** Round [i] of the shift, when it renames. *)
Definition shift_dir (dir prog date : string) (d : gmap string nat) (i : nat)
  : gmap string nat :=
  rename_dir (chainName dir prog date i)
             (backupName dir prog date (Z.of_nat i + 1)) d.
Definition shift_ev (dir prog date : string) (err : option error) (i : nat)
  : event :=
  EvRename (chainName dir prog date i)
           (backupName dir prog date (Z.of_nat i + 1)) err.

(** [n - 1], ..., [0]: the values [i] takes in the loop. *)
Fixpoint countdown (n : nat) : list nat :=
  match n with
  | O => []
  | S i => i :: countdown i
  end.

(** ** The system calls of a rotation *)

(** The system calls [rotateFile] may make for the directory [dir], the
    program [prog], the day [date] and the depth [N]: it opens the live
    name only, renames the file of a round [i] of the shift to the name
    numbered [i + 1], and removes the name numbered [N - 1] only. *)
Definition ev_named (dir prog date : string) (N : Z) (ev : event) : Prop :=
  match ev with
  | EvOpen name _ => name = liveName dir prog date
  | EvRename old new _ =>
      ∃ i : nat, Z.of_nat i ≤ N - 2 ∧ old = chainName dir prog date i ∧
                 new = backupName dir prog date (Z.of_nat i + 1)
  | EvRemove name _ => name = backupName dir prog date (N - 1)
  | EvWrite _ _ _ _ | EvClose _ _ => True
  end.

(** The calls that come before the shift: the writes of a flush, a close,
    the removal of the oldest backup. *)
Definition pre_ev (dir prog date : string) (N : Z) (ev : event) : Prop :=
  match ev with
  | EvWrite _ _ _ _ | EvClose _ _ => True
  | EvRemove name _ => name = backupName dir prog date (N - 1)
  | EvRename _ _ _ | EvOpen _ _ => False
  end.

(** The renames the shift made in the rounds [js]. *)
Definition shift_evs (dir prog date : string) (js : list nat) : list event :=
  shift_ev dir prog date None <$> js.

(** How the calls of one [rotateFile] end, after the renames of the rounds
    [js]: with nothing more, with the open of the live name, or with the
    rename that failed, in a round below all of [js]; the error of the open
    or of the rename is what [rotateFile] returns. *)
Inductive rot_tail (dir prog date : string) (N : Z) (js : list nat)
    (r : option error) : list event → Prop :=
| tail_nil : rot_tail dir prog date N js r []
| tail_open : rot_tail dir prog date N js r [EvOpen (liveName dir prog date) r]
| tail_rename e i :
    r = Some e → (i < Z.to_nat (N - 1))%nat → Forall (λ j, (i < j)%nat) js →
    rot_tail dir prog date N js r [shift_ev dir prog date (Some e) i].

(** The calls of one [rotateFile], in their order. *)
Definition rot_shape (dir prog date : string) (N : Z) (r : option error)
    (evs : list event) : Prop :=
  ∃ pre js tail,
    evs = pre ++ shift_evs dir prog date js ++ tail ∧
    Forall (pre_ev dir prog date N) pre ∧
    js `sublist_of` countdown (Z.to_nat (N - 1)) ∧
    rot_tail dir prog date N js r tail.

(** The error of a call that is not a write, when the call failed. *)
Definition call_error (ev : event) : option error :=
  match ev with
  | EvWrite _ _ _ _ => None
  | EvClose _ err | EvRemove _ err | EvRename _ _ err | EvOpen _ err => err
  end.

(** The calls [evs] of a rotation check that went from the handler [efh]
    to [efh1] and returned [r]: none but a write failed; or the last one
    failed, none but a write before it, its error is [r], and the handler's
    [file] is what it was, the file closed, when the call is a close, and
    nil otherwise. *)
Definition abort_shape (efh efh1 : EasyFileHandler) (r : option error)
    (evs : list event) : Prop :=
  Forall (λ ev, call_error ev = None) evs ∨
  ∃ pre ev e,
    evs = pre ++ [ev] ∧ Forall (λ ev, call_error ev = None) pre ∧
    call_error ev = Some e ∧ r = Some e ∧
    match ev with
    | EvClose f _ => file efh = Some f ∧ file efh1 = Some f
    | _ => file efh1 = None
    end.

(** ** Clients of the handler, and the chain of a day *)

(** What a client does with the handler: it writes, on some day, and it
    flushes. *)
Inductive op : Type :=
| OpWrite (date : string) (data : list byte)
| OpFlush.

Fixpoint run (T N : Z) (ops : list op) : M unit :=
  match ops with
  | [] => ret ()
  | OpWrite date data :: ops => Write T N date data;; run T N ops
  | OpFlush :: ops => Flush;; run T N ops
  end.

Definition on_day (D : string) (o : op) : Prop :=
  match o with OpWrite date _ => date = D | OpFlush => True end.

(** The names of index [0] to [N - 1] for the day [D]. *)
Definition chain_names (dir prog D : string) (N : Z) : list string :=
  chainName dir prog D <$> seq 0 (Z.to_nat N).

(** A log file of the day [D]: the live name, or a numbered one. *)
Definition log_name (dir prog D : string) (name : string) : Prop :=
  name = liveName dir prog D ∨ ∃ i : Z, name = backupName dir prog D i.

(** The directory [s.1] holds files numbered below [s.2] only, and along
    the chain of the day [D] the numbers decrease: the file of a higher
    index was created before the file of a lower one. *)
Definition chain_inv (dir prog D : string) (s : gmap string nat * nat)
  : Prop :=
  (∀ name ino, s.1 !! name = Some ino → (ino < s.2)%nat) ∧
  (∀ i j a b, (i < j)%nat →
     s.1 !! chainName dir prog D i = Some a →
     s.1 !! chainName dir prog D j = Some b → (b < a)%nat).

(** ** The backup-chain rotation, as the specification words it *)

(** Section 4.2 of the specification names the files by index: index [0] is
    the bare [<program>-<D>.log], index [i > 0] is [<program>-<D>.log.<i>]. *)
Definition spec_index_name (dir prog D : string) (i : nat) : string :=
  match i with
  | O => dir +:+ "/" +:+ prog +:+ "-" +:+ D +:+ ".log"
  | S _ => dir +:+ "/" +:+ prog +:+ "-" +:+ D +:+ ".log." +:+ pretty i
  end.

(** A state of the specification's algorithm: the directory, and the calls
    made so far. *)
Definition spec_state : Type := gmap string nat * list event.

(** "If the file exists, delete it." *)
Definition spec_delete (name : string) (st : spec_state) : spec_state :=
  match st.1 !! name with
  | Some _ => (delete name st.1, st.2 ++ [EvRemove name None])
  | None => st
  end.

(** "If a file exists, rename it." *)
Definition spec_rename (old new : string) (st : spec_state) : spec_state :=
  match st.1 !! old with
  | Some ino =>
      (<[new := ino]> (delete old st.1), st.2 ++ [EvRename old new None])
  | None => st
  end.

(** "1. If file at index [N-1] exists, delete it.  2. For [i] from [N-2]
    down to [0]: if a file at index [i] exists, rename it to index [i+1]." *)
Definition spec_backup_chain (dir prog D : string) (N : nat)
    (st : spec_state) : spec_state :=
  let name := spec_index_name dir prog D in
  let st1 := spec_delete (name (N - 1)%nat) st in
  foldl (λ st i, spec_rename (name i) (name (i + 1)%nat) st) st1
        (rev (seq 0 (N - 1))).

(** The state [w] with another directory and another list of calls. *)
Definition with_dir_trace (d : gmap string nat) (tr : list event)
    (w : os_state) : os_state :=
  mk_os (os_Args0 w) d (os_inodes w) (os_files w) (os_stderr w)
        (os_faults w) tr.

(** Round [i] of the loop in the source, on a state of the specification. *)
Definition shift_step (dir prog date : string) (st : spec_state) (i : nat)
  : spec_state :=
  spec_rename (chainName dir prog date i)
              (backupName dir prog date (Z.of_nat i + 1)) st.

(** The shift of the chain of the day [D], from the directory [d] and the
    calls [tr], with the rounds from [k] up done: the files of the rounds
    done carry the next index, and each was moved there by a rename, one of
    the calls made since; the name of index [k] is free; the names below
    and all the other names are as they were. *)
Definition shifted (dir prog D : string) (N : nat) (d : gmap string nat)
    (tr : list event) (k : nat) (st : spec_state) : Prop :=
  (∀ i, (k ≤ i < N - 1)%nat →
     st.1 !! chainName dir prog D (S i) = d !! chainName dir prog D i) ∧
  st.1 !! chainName dir prog D k = None ∧
  (∀ i, (i < k)%nat →
     st.1 !! chainName dir prog D i = d !! chainName dir prog D i) ∧
  (∃ more, st.2 = tr ++ more ∧
     ∀ i, (k ≤ i < N - 1)%nat → is_Some (d !! chainName dir prog D i) →
       EvRename (chainName dir prog D i) (chainName dir prog D (S i)) None
         ∈ more) ∧
  (∀ name, (∀ i, (i < N)%nat → name ≠ chainName dir prog D i) →
     st.1 !! name = d !! name).

(** ** A handler that holds an open file *)

(** [holds efh w ino c]: the handler has the file [ino] open, no system call
    will fail, and what the file holds followed by what the buffer holds
    is [c]. *)
Definition holds (efh : EasyFileHandler) (w : os_state) (ino : nat)
    (c : list byte) : Prop :=
  ∃ f b,
    file efh = Some f ∧ buffer efh = Some b ∧ bw_wr b = f ∧ bw_err b = None ∧
    os_files w !! f = Some (ino, false) ∧ (ino < length (os_inodes w))%nat ∧
    os_faults w = [] ∧ content w ino ++ bw_buf b = c.

(** ** Two claims, as the specification words them *)

(** The claim C1 as the specification words it: after a rotation that
    succeeded, the bytes that were pending in the buffer are in the file
    that was open. *)
Definition rotation_keeps_bytes (T N : Z) (date : string)
    (efh : EasyFileHandler) (w : os_state) : Prop :=
  ∀ f b ino efh' w',
    file efh = Some f → buffer efh = Some b → bw_wr b = f →
    os_files w !! f = Some (ino, false) → (ino < length (os_inodes w))%nat →
    currentDate efh ≠ date ∨ nbytes efh > T →
    rotateFile T N date efh w = Done None efh' w' →
    content w' ino = content w ino ++ bw_buf b.

(** The claim C4 as the specification words it: after any error of the
    rotation check the handler's [file] is nil. *)
Definition error_leaves_file_nil (T N : Z) (date : string)
    (efh : EasyFileHandler) (w : os_state) : Prop :=
  ∀ e efh' w',
    rotateFile T N date efh w = Done (Some e) efh' w' → file efh' = None.

(** ** Invariants of the handler and of the logger *)


(** Every file of [w] holds in [w1] what it held, and possibly more. *)
Definition grows (w w1 : os_state) : Prop :=
  ∀ ino, content w ino `prefix_of` content w1 ino.

(** The number of writes among the calls of a client. *)
Fixpoint count_writes (ops : list op) : nat :=
  match ops with
  | [] => 0
  | OpWrite _ _ :: ops => S (count_writes ops)
  | OpFlush :: ops => count_writes ops
  end.



(** An open, if the call is one, is of the live name of some date. *)
Definition opens_live (dir prog : string) (ev : event) : Prop :=
  match ev with
  | EvOpen name _ => ∃ date, name = liveName dir prog date
  | _ => True
  end.

(** The method [m] leaves the path of the logger's handler as it is, and
    opens nothing but live files under that path. *)
Definition keeps_path {A} (m : L A) : Prop :=
  ∀ el w a el1 w1,
    m el w = Returned a el1 w1 →
    path (writer el1) = path (writer el) ∧ os_Args0 w1 = os_Args0 w ∧
    ∃ evs, os_trace w1 = os_trace w ++ evs ∧
           Forall (opens_live (path (writer el)) (os_Args0 w)) evs.

(** A call made while [flag.Parsed()] is false; the flushes of the
    goroutine come at any time. *)
Definition before_Parse {arg} (c : Logger.call arg) : Prop :=
  match c with
  | Logger.CallPrint rd _ _ | Logger.CallPrintf rd _ _ _ => rd_parsed rd = false
  | Logger.CallFlush => True
  end.

(** The number of calls of [Print] and [Printf] among the calls of a
    client. *)
Fixpoint count_prints {arg} (cs : list (Logger.call arg)) : nat :=
  match cs with
  | [] => 0
  | Logger.CallFlush :: cs => count_prints cs
  | _ :: cs => S (count_prints cs)
  end.

(** ** Concrete states *)

Module Examples.

Definition dir : string := "/var/log".
Definition prog : string := "app".
Definition day1 : string := "2024-01-01".
Definition day2 : string := "2024-01-02".

(** An empty directory, and a new handler. *)
Definition w_empty (faults : list fault) : os_state :=
  mk_os prog ∅ [] [] [] faults [].
Definition efh_new : EasyFileHandler := NewEasyFileHandler dir 64.

(** The live file of [day1] is open, with [pending] in the buffer and
    [nbytes] counted; [chain] lists further files of the day, by index. *)
Definition w_open (chain : list nat) (faults : list fault) : os_state :=
  mk_os prog
    (<[liveName dir prog day1 := 0%nat]>
       (list_to_map ((λ i, (chainName dir prog day1 i, i)) <$> chain)))
    (replicate (S (length chain)) []) [(0%nat, false)] [] faults [].
Definition efh_open (pending : list byte) (nbytes : Z) : EasyFileHandler :=
  mk_efh dir (Some 0%nat) (Some (mk_bw 0 64 pending None)) 64 day1 nbytes.

Definition payload : list byte := replicate 40 "a"%byte.

(** The state of [w_open] with something in the file, and with the file of
    [day1] in the directory but not open. *)
Definition w_old (faults : list fault) : os_state :=
  mk_os prog {[liveName dir prog day1 := 0%nat]} [["o"%byte; "l"%byte; "d"%byte]]
        [] [] faults [].

(** The file that [efh_open] has open is the live file of [day1], and two
    backups are behind it, the older under the higher index. *)
Definition w_chain (faults : list fault) : os_state :=
  mk_os prog
    (<[chainName dir prog day1 0 := 2%nat]>
       (<[chainName dir prog day1 1 := 1%nat]>
          {[chainName dir prog day1 2 := 0%nat]}))
    [["o"%byte; "l"%byte; "d"%byte]; ["m"%byte; "i"%byte; "d"%byte];
     ["n"%byte; "e"%byte; "w"%byte]]
    [(2%nat, false)] [] faults [].

(** A logger on the open handler, and what a call of it reads. *)
Definition el_open (toStderr : bool) (level : string) : EasyLogger :=
  mk_el false toStderr 3 level (efh_open [] 0) LOG_DEPTH_HANDLER.
Definition rd (parsed : bool) : reads :=
  mk_reads parsed (Some ("/home/go/src/app/main.go", 42))
    "2024-01-01 10:00:00" "2024-01-01 10:00:01" day1 day1 day1.

(** Operands that are strings: [fmt.Sprintln] prints them with a space
    between and a newline at the end; [plain] is [fmt.Sprintf] on a format
    without verbs and no operands. *)
Definition Sprintln (args : list string) : string :=
  match args with
  | [] => newline
  | a :: args => foldl (λ s b, s +:+ " " +:+ b) a args +:+ newline
  end.
Definition plain (format : string) (args : list string) : string := format.

End Examples.

(** * Properties *)

(** ** [bufio.Writer] *)

(** After [Flush] the writer either remembers an error or holds nothing. *)
Lemma bufio_Flush_settled b w r b1 w1 :
  bufio_Flush b w = (r, b1, w1) →
  bw_err b1 = r ∧ (r = None → bw_buf b1 = []) ∧
  bw_wr b1 = bw_wr b ∧ bw_size b1 = bw_size b.
Proof.
  unfold bufio_Flush. intros H.
  destruct (bw_err b) as [e|] eqn:He.
  { simplify_eq. by rewrite He. }
  destruct (bw_buf b) as [|x l] eqn:Hb.
  { simplify_eq. by rewrite He, Hb. }
  destruct (file_Write (bw_wr b) (x :: l) w) as [[n err] w2].
  case_decide; [|destruct err]; simplify_eq; done.
Qed.

(** A settled writer is left alone by [Flush], and so is the system,
    whatever state it is in. *)
Lemma bufio_Flush_again b w r b1 w1 :
  bufio_Flush b w = (r, b1, w1) → ∀ w', bufio_Flush b1 w' = (r, b1, w').
Proof.
  intros H w'. apply bufio_Flush_settled in H as (He & Hb & _).
  unfold bufio_Flush. destruct r as [e|]; rewrite He; [done|].
  by rewrite Hb.
Qed.

(** ** [Flush] *)

(** C8.  Calling [Flush] twice in a row leaves the handler and the whole
    system, the content of every file included, as one call leaves them;
    and on a handler whose [file] is nil, [Flush] returns without changing
    anything. *)
Theorem Flush_idempotent :
  (∀ efh w, (Flush;; Flush) efh w = Flush efh w) ∧
  (∀ path buffer bufferSize currentDate nbytes w,
     let efh := mk_efh path None buffer bufferSize currentDate nbytes in
     Flush efh w = Done () efh w).
Proof.
  split; [|done].
  intros [p [f|] [b|] s d n] w; try done.
  unfold Flush, bind, get_efh, ret, buffer_Flush; simpl.
  destruct (bufio_Flush b w) as [[r b1] w1] eqn:Hfl. simpl.
  by rewrite (bufio_Flush_again _ _ _ _ _ Hfl w1).
Qed.

(** ** What the system calls may change *)

Lemma created_app evs1 evs2 : created (evs1 ++ evs2) = created evs1 ∪ created evs2.
Proof.
  induction evs1 as [|[| | | ? ? [|]|? [|]] evs1 IH]; simpl; set_solver.
Qed.

Lemma sys_ext_refl w : sys_ext w [] w.
Proof. split; try done. by rewrite app_nil_r. set_solver. Qed.

Lemma sys_ext_trans w1 evs1 w2 evs2 w3 :
  sys_ext w1 evs1 w2 → sys_ext w2 evs2 w3 → sys_ext w1 (evs1 ++ evs2) w3.
Proof.
  intros H1 H2. split.
  - rewrite (ext_Args0 _ _ _ H2). apply H1.
  - rewrite (ext_trace _ _ _ H2), (ext_trace _ _ _ H1). by rewrite app_assoc.
  - rewrite created_app. pose proof (ext_dom _ _ _ H1).
    pose proof (ext_dom _ _ _ H2). set_solver.
  - intros ?. by apply H2, H1.
  - by rewrite foldl_app, (ext_steps _ _ _ H2), (ext_steps _ _ _ H1).
  - intros [??]%Forall_app ino.
    by rewrite (ext_content _ _ _ H2), (ext_content _ _ _ H1).
Qed.

(** Unless a file was opened, the directory is what the removes and renames
    among the calls make of it. *)
Lemma foldl_ev_apply_dir evs d k :
  Forall (λ ev, ¬ is_open ev) evs →
  (foldl ev_apply (d, k) evs).1 = foldl dir_effect d evs.
Proof.
  intros H. revert d. induction H as [|ev evs Hev _ IH]; intros d; [done|].
  cbn [foldl]. rewrite <-IH. f_equal.
  by destruct ev as [| | | |name [e|]]; try done; destruct Hev.
Qed.

Lemma sys_ext_dir w evs w' :
  sys_ext w evs w' → Forall (λ ev, ¬ is_open ev) evs →
  os_dir w' = foldl dir_effect (os_dir w) evs.
Proof.
  intros Hx Hev. rewrite <-(foldl_ev_apply_dir _ _ (length (os_inodes w))) by done.
  by rewrite <-(ext_steps _ _ _ Hx).
Qed.

Lemma set_faults_same w : set_faults (os_faults w) w = w.
Proof. by destruct w. Qed.

(** The environment's answer changes nothing but the list of answers. *)
Lemma next_fault_spec w ft w1 :
  next_fault w = (ft, w1) →
  ∃ fs, w1 = set_faults fs w ∧ (os_faults w = [] → ft = NoFault ∧ fs = []).
Proof.
  unfold next_fault. destruct (os_faults w) as [|f fs] eqn:Hf; intros; simplify_eq.
  - exists []. by rewrite <-Hf, set_faults_same.
  - by exists fs.
Qed.

Ltac ask_env :=
  match goal with
  | |- context [next_fault ?w] =>
      let ft := fresh "ft" in let w0 := fresh "w" in let H := fresh "Hn" in
      let fs := fresh "fs" in let Hfs := fresh "Hfs" in
      destruct (next_fault w) as [ft w0] eqn:H;
      apply next_fault_spec in H as (fs & -> & Hfs)
  end.

Lemma content_app_nil (l : list (list byte)) ino :
  default [] ((l ++ [[]]) !! ino) = default [] (l !! ino).
Proof.
  destruct (decide (ino < length l)%nat); [by rewrite lookup_app_l|].
  rewrite lookup_app_r, (lookup_ge_None_2 l) by lia.
  by destruct (ino - length l)%nat.
Qed.

Ltac ext_solve :=
  split; simpl; rewrite ?dom_insert_L, ?dom_delete_L, ?app_nil_r;
  try done; try set_solver; try (intros; naive_solver);
  try (unfold ev_apply, rename_dir; simpl;
       by rewrite ?length_alter, ?length_app, ?Nat.add_1_r;
          simplify_option_eq);
  try (by intros [[] _]%Forall_cons_1);
  try (intros _ ?; unfold content; simpl; by rewrite content_app_nil).

Lemma os_Stat_ext name w r w1 :
  os_Stat name w = (r, w1) →
  sys_ext w [] w1 ∧ os_dir w1 = os_dir w ∧ os_inodes w1 = os_inodes w ∧
  os_files w1 = os_files w.
Proof.
  unfold os_Stat. ask_env.
  intros; repeat case_match; simplify_eq; simpl; (split; [ext_solve|done]).
Qed.

Lemma os_Remove_ext name w r w1 :
  os_Remove name w = (r, w1) →
  sys_ext w [EvRemove name r] w1 ∧ os_inodes w1 = os_inodes w ∧
  os_files w1 = os_files w ∧
  os_dir w1 = match r with None => delete name (os_dir w) | _ => os_dir w end.
Proof.
  unfold os_Remove. ask_env.
  intros; repeat case_match; simplify_eq; simpl; (split; [ext_solve|done]).
Qed.

Lemma os_Rename_ext old new w r w1 :
  os_Rename old new w = (r, w1) →
  sys_ext w [EvRename old new r] w1 ∧ os_inodes w1 = os_inodes w ∧
  os_files w1 = os_files w ∧
  match r with
  | None => ∃ ino, os_dir w !! old = Some ino ∧
                   os_dir w1 = <[new := ino]> (delete old (os_dir w))
  | Some _ => os_dir w1 = os_dir w
  end.
Proof.
  unfold os_Rename. ask_env.
  intros; repeat case_match; simplify_eq; simpl in *;
    (split; [ext_solve|eauto]).
Qed.

Lemma os_OpenFile_ext name w r w1 :
  os_OpenFile name w = (r, w1) →
  sys_ext w [EvOpen name (match r with inl _ => None | inr e => Some e end)] w1 ∧
  match r with
  | inr _ => os_dir w1 = os_dir w ∧ os_inodes w1 = os_inodes w ∧
             os_files w1 = os_files w
  | inl f =>
      f = length (os_files w) ∧
      ∃ ino, os_files w1 = os_files w ++ [(ino, false)] ∧
             os_dir w1 !! name = Some ino ∧
             ((os_dir w !! name = Some ino ∧ os_dir w1 = os_dir w ∧
               os_inodes w1 = os_inodes w) ∨
              (os_dir w !! name = None ∧ ino = length (os_inodes w) ∧
               os_dir w1 = <[name := ino]> (os_dir w) ∧
               os_inodes w1 = os_inodes w ++ [[]]))
  end.
Proof.
  unfold os_OpenFile. ask_env.
  intros; repeat case_match; simplify_eq; simpl in *;
    (split; [ext_solve|]); try done.
  - split; [done|]. eexists; split; [done|]. eauto.
  - split; [done|]. eexists; split; [done|].
    rewrite lookup_insert_eq. split; [done|]. by right.
Qed.

Lemma file_Close_ext file w r w1 :
  file_Close file w = (r, w1) →
  os_dir w1 = os_dir w ∧ os_inodes w1 = os_inodes w ∧
  ((∃ f, file = Some f ∧ sys_ext w [EvClose f r] w1) ∨ (w1 = w ∧ is_Some r)).
Proof.
  unfold file_Close. intros H.
  destruct file as [f|]; [|simplify_eq; eauto].
  destruct (os_files w !! f) as [[ino [|]]|]; simplify_eq; eauto.
  revert H. ask_env. intros; simplify_eq; simpl.
  do 2 (split; [done|]). left. eexists; split; [done|]. ext_solve.
Qed.

Lemma file_Write_ext f p w n err w1 :
  file_Write f p w = ((n, err), w1) →
  os_dir w1 = os_dir w ∧ os_files w1 = os_files w ∧
  length (os_inodes w1) = length (os_inodes w) ∧
  (n = length p ∨ is_Some err) ∧
  ∃ evs, sys_ext w evs w1 ∧ created evs = ∅.
Proof.
  unfold file_Write. intros H.
  destruct (os_files w !! f) as [[ino [|]]|]; simplify_eq;
    try by (repeat split; eauto using sys_ext_refl).
  revert H. ask_env.
  destruct ft; intros; simplify_eq; simpl; rewrite length_alter;
    (do 3 (split; [done|]); split; [eauto|]);
    (eexists [_]; split; [ext_solve|done]).
Qed.

(** ** The system calls when the environment lets every call through *)

Lemma next_fault_nf w : os_faults w = [] → next_fault w = (NoFault, w).
Proof. unfold next_fault. by intros ->. Qed.

Lemma os_Stat_nf name w :
  os_faults w = [] →
  os_Stat name w =
  (match os_dir w !! name with Some _ => None | None => Some ErrNotExist end, w).
Proof. intros H. unfold os_Stat. rewrite next_fault_nf by done. by case_match. Qed.

Lemma os_Remove_nf name w ino :
  os_faults w = [] → os_dir w !! name = Some ino →
  os_Remove name w =
  (None, log_event (EvRemove name None) (set_dir (delete name (os_dir w)) w)).
Proof. intros H Hd. unfold os_Remove. by rewrite next_fault_nf, Hd. Qed.

Lemma os_Rename_nf old new w ino :
  os_faults w = [] → os_dir w !! old = Some ino →
  os_Rename old new w =
  (None, log_event (EvRename old new None)
           (set_dir (<[new := ino]> (delete old (os_dir w))) w)).
Proof. intros H Hd. unfold os_Rename. by rewrite next_fault_nf, Hd. Qed.

Lemma os_OpenFile_nf_new name w :
  os_faults w = [] → os_dir w !! name = None →
  os_OpenFile name w =
  (inl (length (os_files w)),
   log_event (EvOpen name None)
     (set_files (os_files w ++ [(length (os_inodes w), false)])
        (set_inodes (os_inodes w ++ [[]])
           (set_dir (<[name := length (os_inodes w)]> (os_dir w)) w)))).
Proof. intros H Hd. unfold os_OpenFile. by rewrite next_fault_nf, Hd. Qed.

Lemma os_OpenFile_nf_old name w ino :
  os_faults w = [] → os_dir w !! name = Some ino →
  os_OpenFile name w =
  (inl (length (os_files w)),
   log_event (EvOpen name None) (set_files (os_files w ++ [(ino, false)]) w)).
Proof. intros H Hd. unfold os_OpenFile. by rewrite next_fault_nf, Hd. Qed.

Lemma file_Close_nf f w ino :
  os_faults w = [] → os_files w !! f = Some (ino, false) →
  file_Close (Some f) w =
  (None, log_event (EvClose f None)
           (set_files (<[f := (ino, true)]> (os_files w)) w)).
Proof. intros H Hf. unfold file_Close. by rewrite Hf, next_fault_nf. Qed.

Lemma file_Write_nf f p w ino :
  os_faults w = [] → os_files w !! f = Some (ino, false) →
  file_Write f p w =
  ((length p, None),
   log_event (EvWrite f p (length p) None)
     (set_inodes (alter (λ c, c ++ p) ino (os_inodes w)) w)).
Proof. intros H Hf. unfold file_Write. by rewrite Hf, next_fault_nf. Qed.

(** ** [bufio.Writer], continued *)

Lemma created_writes evs : Forall is_write evs → created evs = ∅.
Proof. induction 1 as [|[] evs]; simpl in *; done. Qed.

Lemma file_Write_writes f p w n err w1 :
  file_Write f p w = ((n, err), w1) →
  ∃ evs, sys_ext w evs w1 ∧ Forall is_write evs.
Proof.
  unfold file_Write. intros H.
  destruct (os_files w !! f) as [[ino [|]]|]; simplify_eq;
    eauto using sys_ext_refl.
  revert H. ask_env.
  destruct ft; intros; simplify_eq;
    (eexists [_]; split; [ext_solve|by repeat constructor]).
Qed.

Lemma bufio_Flush_ext b w r b1 w1 :
  bufio_Flush b w = (r, b1, w1) →
  os_dir w1 = os_dir w ∧ os_files w1 = os_files w ∧
  length (os_inodes w1) = length (os_inodes w) ∧
  ∃ evs, sys_ext w evs w1 ∧ Forall is_write evs.
Proof.
  unfold bufio_Flush. intros H.
  destruct (bw_err b); [simplify_eq; eauto 6 using sys_ext_refl|].
  destruct (bw_buf b) as [|x l]; [simplify_eq; eauto 6 using sys_ext_refl|].
  destruct (file_Write (bw_wr b) (x :: l) w) as [[n err] w2] eqn:Hw.
  assert (w1 = w2) as -> by (repeat case_match; by simplify_eq).
  apply file_Write_writes in Hw as Hev.
  apply file_Write_ext in Hw as (? & ? & ? & _). done.
Qed.

(** Without faults, on an open file, [Flush] moves the buffered bytes to the
    end of the file. *)
Lemma bufio_Flush_nf b w ino :
  os_faults w = [] → os_files w !! bw_wr b = Some (ino, false) →
  bw_err b = None →
  bufio_Flush b w =
  ((None, mk_bw (bw_wr b) (bw_size b) [] None),
   match bw_buf b with
   | [] => w
   | _ => log_event (EvWrite (bw_wr b) (bw_buf b) (length (bw_buf b)) None)
            (set_inodes (alter (λ c, c ++ bw_buf b) ino (os_inodes w)) w)
   end).
Proof.
  intros Hnf Hf He. unfold bufio_Flush. rewrite He.
  destruct b as [f s [|x l] e]; simpl in *; [by subst|].
  rewrite (file_Write_nf _ _ _ ino) by done.
  case_decide as Hd; [|done]. simpl in Hd. lia.
Qed.

Lemma sys_ext_writes w1 evs1 w2 evs2 w3 :
  sys_ext w1 evs1 w2 → Forall is_write evs1 →
  sys_ext w2 evs2 w3 → Forall is_write evs2 →
  ∃ evs, sys_ext w1 evs w3 ∧ Forall is_write evs.
Proof.
  intros. exists (evs1 ++ evs2). split; [by eapply sys_ext_trans|].
  by apply Forall_app.
Qed.

Lemma bufio_Write_loop_ext fuel b p nn w n err b1 w1 :
  bufio_Write_loop fuel b p nn w = (n, err, b1, w1) →
  os_dir w1 = os_dir w ∧ os_files w1 = os_files w ∧
  length (os_inodes w1) = length (os_inodes w) ∧
  bw_wr b1 = bw_wr b ∧ bw_size b1 = bw_size b ∧
  ∃ evs, sys_ext w evs w1 ∧ Forall is_write evs.
Proof.
  revert b p nn w. induction fuel as [|fuel IH]; intros b p nn w; simpl.
  - case_decide; [|destruct (bw_err b)]; intros; simplify_eq;
      eauto 10 using sys_ext_refl.
  - case_decide; [|destruct (bw_err b); intros; simplify_eq;
                    eauto 10 using sys_ext_refl].
    destruct (bw_buf b) as [|x l] eqn:Hb.
    + destruct (file_Write (bw_wr b) p w) as [[k e] w2] eqn:Hw.
      intros (Hd & Hf & Hi & Hwr & Hsz & evs & He & Hev)%IH. simpl in *.
      apply file_Write_writes in Hw as Hev2.
      apply file_Write_ext in Hw as (? & ? & ? & _).
      destruct Hev2 as (evs2 & ? & ?).
      repeat split; try congruence. by eapply sys_ext_writes.
    + destruct (bufio_Flush _ w) as [[r b2] w2] eqn:Hfl.
      intros (Hd & Hf & Hi & Hwr & Hsz & evs & He & Hev)%IH.
      apply bufio_Flush_settled in Hfl as Hs. destruct Hs as (_ & _ & ? & ?).
      apply bufio_Flush_ext in Hfl as (? & ? & ? & evs2 & ? & ?).
      simpl in *. repeat split; try congruence. by eapply sys_ext_writes.
Qed.

(** Once the loop's condition fails, the fuel does not matter. *)
Lemma bufio_Write_loop_exit fuel b p nn w :
  ¬ ((Available b < length p)%nat ∧ bw_err b = None) →
  bufio_Write_loop fuel b p nn w =
  match bw_err b with
  | Some e => ((nn, Some e, b), w)
  | None => ((nn + length p)%nat, None,
             mk_bw (bw_wr b) (bw_size b) (bw_buf b ++ p) None, w)
  end.
Proof. intros. destruct fuel; simpl; by case_decide. Qed.

Lemma bufio_Write_loop_S fuel b p nn w :
  bufio_Write_loop (S fuel) b p nn w =
  if decide ((Available b < length p)%nat ∧ bw_err b = None) then
    match bw_buf b with
    | [] =>
        let '((n, err), w1) := file_Write (bw_wr b) p w in
        bufio_Write_loop fuel (mk_bw (bw_wr b) (bw_size b) (bw_buf b) err)
          (drop n p) (nn + n)%nat w1
    | _ :: _ =>
        let n := (Available b `min` length p)%nat in
        let b1 := mk_bw (bw_wr b) (bw_size b) (bw_buf b ++ take n p)
                        (bw_err b) in
        let '((_, b2), w1) := bufio_Flush b1 w in
        bufio_Write_loop fuel b2 (drop n p) (nn + n)%nat w1
    end
  else
    match bw_err b with
    | Some e => ((nn, Some e, b), w)
    | None =>
        ((nn + length p)%nat, None,
         mk_bw (bw_wr b) (bw_size b) (bw_buf b ++ p) None, w)
    end.
Proof. done. Qed.

Global Arguments bufio_Write_loop : simpl never.

(** Two rounds are all the loop of [Write] ever makes: more fuel changes
    nothing. *)
Lemma bufio_Write_loop_fuel k b p nn w :
  bufio_Write_loop (2 + k) b p nn w = bufio_Write_loop 2 b p nn w.
Proof.
  assert (∀ fuel f q (w0 w2 : os_state) m e,
    file_Write f q w0 = ((m, e), w2) →
    ∀ b0 nn0, bw_err b0 = e →
    bufio_Write_loop fuel b0 (drop m q) nn0 w2 =
    bufio_Write_loop 0 b0 (drop m q) nn0 w2) as direct.
  { intros fuel f q w0 w2 m e Hw b0 nn0 He.
    rewrite !bufio_Write_loop_exit; [done|..];
      apply file_Write_ext in Hw as (_ & _ & _ & [->|[e' ->]] & _);
      rewrite ?drop_all, ?He; simpl; intros []; try lia; done. }
  change (2 + k)%nat with (S (S k)).
  rewrite (bufio_Write_loop_S (S k)), (bufio_Write_loop_S 1).
  case_decide; [|done].
  destruct (bw_buf b) as [|x l] eqn:Hb.
  - destruct (file_Write (bw_wr b) p w) as [[m e] w2] eqn:Hw.
    by rewrite (direct (S k) _ _ _ _ _ _ Hw), (direct 1%nat _ _ _ _ _ _ Hw).
  - cbv zeta. destruct (bufio_Flush _ w) as [[r b2] w2] eqn:Hfl.
    apply bufio_Flush_settled in Hfl as (He & Hbuf & _).
    rewrite (bufio_Write_loop_S k), (bufio_Write_loop_S 0).
    case_decide as Hc; [|done]. destruct Hc as [_ Hr].
    rewrite Hbuf by congruence.
    destruct (file_Write (bw_wr b2) _ w2) as [[m e] w3] eqn:Hw.
    by rewrite (direct k _ _ _ _ _ _ Hw).
Qed.

Lemma content_alter ino (p : list byte) (l : list (list byte)) :
  (ino < length l)%nat →
  default [] (alter (λ c : list byte, c ++ p) ino l !! ino) =
  default [] (l !! ino) ++ p.
Proof.
  intros Hi. rewrite list_lookup_alter_eq.
  destruct (lookup_lt_is_Some_2 l ino Hi) as [c ->]. done.
Qed.

(** Without faults, on an open file, [Write] of [bufio.Writer] accepts all
    of [p]: what the file holds followed by what the buffer holds grows by
    [p], and no other file changes. *)
Lemma bufio_Write_nf b p w ino :
  os_faults w = [] → os_files w !! bw_wr b = Some (ino, false) →
  bw_err b = None → (ino < length (os_inodes w))%nat →
  ∃ b1 w1,
    bufio_Write b p w = ((length p, None, b1), w1) ∧
    bw_err b1 = None ∧
    content w1 ino ++ bw_buf b1 = content w ino ++ bw_buf b ++ p ∧
    (∀ j, j ≠ ino → os_inodes w1 !! j = os_inodes w !! j).
Proof.
  intros Hnf Hf He Hi. unfold bufio_Write, content.
  rewrite bufio_Write_loop_S. case_decide as Hc.
  2:{ rewrite He. do 2 eexists. split; [done|]. done. }
  destruct (bw_buf b) as [|x l] eqn:Hb.
  - rewrite (file_Write_nf _ _ _ ino) by done.
    rewrite bufio_Write_loop_exit by (rewrite drop_all; simpl; lia).
    simpl. rewrite drop_all. simpl. do 2 eexists.
    split; [by rewrite Nat.add_0_r|]. split; [done|]. simpl.
    rewrite content_alter by done. split; [by rewrite !app_nil_r|].
    intros j Hj. by rewrite list_lookup_alter_ne.
  - cbv zeta.
    set (n := (Available b `min` length p)%nat).
    rewrite (bufio_Flush_nf _ _ ino) by done. simpl.
    set (w2 := log_event _ _).
    assert (os_faults w2 = []) as Hnf2 by done.
    assert (os_files w2 !! bw_wr b = Some (ino, false)) as Hf2 by done.
    assert (default [] (os_inodes w2 !! ino) =
            default [] (os_inodes w !! ino) ++ (x :: l) ++ take n p) as Hc2.
    { subst w2. simpl. by rewrite content_alter. }
    assert (∀ j, j ≠ ino → os_inodes w2 !! j = os_inodes w !! j) as Hj2.
    { intros j Hj. subst w2. simpl. by rewrite list_lookup_alter_ne. }
    assert (length (os_inodes w2) = length (os_inodes w)) as Hl2.
    { subst w2. simpl. by rewrite length_alter. }
    clearbody w2.
    rewrite bufio_Write_loop_S. simpl. case_decide as Hc3.
    + rewrite (file_Write_nf _ _ _ ino) by done.
      rewrite bufio_Write_loop_exit by (rewrite drop_all; simpl; lia).
      simpl. rewrite drop_all. simpl. do 2 eexists. split.
      { f_equal. f_equal. f_equal.
        rewrite length_drop. subst n. lia. }
      split; [done|]. simpl. rewrite content_alter by lia.
      rewrite Hc2.
      split; [rewrite ?app_nil_r, <-?app_assoc; simpl;
              by rewrite <-?app_assoc, ?take_drop|].
      intros j Hj. rewrite list_lookup_alter_ne by done. auto.
    + do 2 eexists. split.
      { f_equal. f_equal. f_equal.
        rewrite length_drop. subst n. lia. }
      split; [done|]. simpl. rewrite Hc2.
      split; [rewrite ?app_nil_r, <-?app_assoc; simpl;
              by rewrite <-?app_assoc, ?take_drop|done].
Qed.

(** ** The shift of the backup chain *)

Global Arguments file_Write : simpl never.
Global Arguments file_Close : simpl never.
Global Arguments os_Stat : simpl never.
Global Arguments os_Remove : simpl never.
Global Arguments os_Rename : simpl never.
Global Arguments os_OpenFile : simpl never.
Global Arguments bufio_Flush : simpl never.
Global Arguments bufio_Write : simpl never.
Global Arguments liveName : simpl never.
Global Arguments backupName : simpl never.
Global Arguments chainName : simpl never.

Lemma fileIsExist_eq name efh w :
  fileIsExist name efh w =
  let '(r, w1) := os_Stat name w in
  Done (match r with None => true | Some e => negb (IsNotExist e) end) efh w1.
Proof.
  unfold fileIsExist, bind, call, ret.
  destruct (os_Stat name w) as [[e|] w1]; [|done]. by destruct (IsNotExist e).
Qed.

Lemma rename_loop_S date i efh w :
  rename_loop date (S i) efh w =
  let name := chainName (path efh) (os_Args0 w) date i in
  let new := backupName (path efh) (os_Args0 w) date (Z.of_nat i + 1) in
  let '(r, w1) := os_Stat name w in
  if match r with None => true | Some e => negb (IsNotExist e) end then
    let '(err, w2) := os_Rename name new w1 in
    match err with
    | Some e => Done (Some e) efh w2
    | None => rename_loop date i efh w2
    end
  else rename_loop date i efh w1.
Proof.
  cbn [rename_loop]. unfold bind at 1 2 3. unfold get_efh, get_Args0.
  rewrite fileIsExist_eq. cbv zeta.
  destruct (os_Stat _ w) as [r w1] eqn:Hs.
  case_match; unfold bind, call, ret.
  - by destruct (os_Rename _ _ w1) as [[e|] w2].
  - done.
Qed.

(** The shift never touches the handler nor the files' contents.  The
    renames it made are those of some of the rounds, in the order of the
    rounds; the directory is what these renames make of it; and when the
    shift returns an error, the call that failed is the rename of a round
    [i] below all of them, and it is the last call made. *)
Lemma rename_loop_spec date n efh w r efh' w' :
  rename_loop date n efh w = Done r efh' w' →
  efh' = efh ∧ os_inodes w' = os_inodes w ∧ os_files w' = os_files w ∧
  ∃ js evs,
    js `sublist_of` countdown n ∧
    os_dir w' = foldl (shift_dir (path efh) (os_Args0 w) date) (os_dir w) js ∧
    sys_ext w evs w' ∧
    match r with
    | None => evs = shift_ev (path efh) (os_Args0 w) date None <$> js
    | Some e =>
        ∃ i, (i < n)%nat ∧ Forall (λ j, (i < j)%nat) js ∧
             evs = (shift_ev (path efh) (os_Args0 w) date None <$> js) ++
                   [shift_ev (path efh) (os_Args0 w) date (Some e) i]
    end.
Proof.
  revert w. induction n as [|n IH]; intros w.
  { intros [= <- <- <-]. do 3 (split; [done|]). exists [], [].
    split; [done|]. split; [done|]. split; [apply sys_ext_refl|done]. }
  rewrite rename_loop_S. cbv zeta.
  destruct (os_Stat _ w) as [r0 w1] eqn:Hs.
  apply os_Stat_ext in Hs as (Hx1 & Hd1 & Hi1 & Hf1).
  pose proof (ext_Args0 _ _ _ Hx1) as HA1.
  destruct (match r0 with None => true | Some e => negb (IsNotExist e) end).
  - destruct (os_Rename _ _ w1) as [[err|] w2] eqn:Hr;
      apply os_Rename_ext in Hr as (Hx2 & Hi2 & Hf2 & Hd2).
    + intros [= <- <- <-]. do 3 (split; [congruence|]).
      exists [], [shift_ev (path efh) (os_Args0 w) date (Some err) n].
      split; [apply sublist_nil_l|]. split; [simpl; congruence|].
      split; [by apply (sys_ext_trans _ [] _ [_] _ Hx1)|].
      exists n. split; [lia|]. by split.
    + destruct Hd2 as (ino & Hold & Hd2).
      intros (-> & Hi3 & Hf3 & js & evs & Hsub & Hd3 & Hx3 & Hr)%IH.
      pose proof (ext_Args0 _ _ _ Hx2) as HA2.
      do 3 (split; [congruence|]).
      exists (n :: js), (shift_ev (path efh) (os_Args0 w) date None n :: evs).
      split; [by apply sublist_skip|]. split.
      { simpl. rewrite Hd3, HA2, HA1. f_equal.
        unfold shift_dir, rename_dir. by rewrite <-Hd1, Hold. }
      split.
      { apply (sys_ext_trans _ [] _ (_ :: _) _ Hx1).
        apply (sys_ext_trans _ [_] _ _ _ Hx2) in Hx3.
        exact Hx3. }
      rewrite HA2, HA1 in Hr. destruct r as [e|].
      * destruct Hr as (i & ? & ? & ->). exists i.
        split; [lia|]. split; [constructor; [lia|done]|done].
      * by rewrite Hr.
  - intros (-> & Hi3 & Hf3 & js & evs & Hsub & Hd3 & Hx3 & Hr)%IH.
    do 3 (split; [congruence|]). exists js, evs.
    split; [by apply sublist_cons|].
    split; [by rewrite Hd3, HA1, Hd1|].
    split; [by apply (sys_ext_trans _ [] _ _ _ Hx1)|].
    rewrite HA1 in Hr. destruct r as [e|]; [|done].
    destruct Hr as (i & ? & ? & ->). exists i. split; [lia|done].
Qed.

(** ** The three parts of [rotateFile], in direct style *)

Lemma date_rollover_eq date p f b s d n w :
  date_rollover date (mk_efh p f b s d n) w =
  if decide (d ≠ date) then
    match f with
    | Some _ =>
        match b with
        | None => Panic
        | Some b0 =>
            let '((_, b1), w1) := bufio_Flush b0 w in
            let '(err, w2) := file_Close f w1 in
            match err with
            | Some e => Done (Some e) (mk_efh p f (Some b1) s d n) w2
            | None => Done None (mk_efh p None (Some b1) s date n) w2
            end
        end
    | None => Done None (mk_efh p None b s date n) w
    end
  else Done None (mk_efh p f b s d n) w.
Proof.
  destruct f as [f|], b as [b|];
    unfold date_rollover, bind, get_efh, ret, buffer_Flush, call,
      set_file, set_currentDate; cbn; case_decide; cbn; try done.
  destruct (bufio_Flush b w) as [[r b1] w1]. cbn.
  by destruct (file_Close (Some f) w1) as [[e|] w2].
Qed.

Lemma size_rollover_eq T N date p f b s d n w :
  size_rollover T N date (mk_efh p f b s d n) w =
  if decide (n > T) then
    match b with
    | None => Panic
    | Some b0 =>
        let '((_, b1), w1) := bufio_Flush b0 w in
        let '(err, w2) := file_Close f w1 in
        match err with
        | Some e => Done (Some e) (mk_efh p f (Some b1) s d n) w2
        | None =>
            let old := backupName p (os_Args0 w2) date (N - 1) in
            let '(r, w3) := os_Stat old w2 in
            if match r with None => true | Some e => negb (IsNotExist e) end
            then
              let '(err, w4) := os_Remove old w3 in
              match err with
              | Some e => Done (Some e) (mk_efh p None (Some b1) s d n) w4
              | None =>
                  rename_loop date (Z.to_nat (N - 1))
                    (mk_efh p None (Some b1) s d n) w4
              end
            else
              rename_loop date (Z.to_nat (N - 1))
                (mk_efh p None (Some b1) s d n) w3
        end
    end
  else Done None (mk_efh p f b s d n) w.
Proof.
  destruct b as [b|];
    unfold size_rollover; unfold bind at 1; unfold get_efh at 1; cbn;
    (case_decide; [|done]); unfold bind at 1; unfold buffer_Flush; cbn;
    [|done].
  destruct (bufio_Flush b w) as [[r b1] w1]. cbn.
  unfold bind at 1. unfold call at 1.
  destruct (file_Close f w1) as [[e|] w2]; [done|].
  unfold bind at 1 2. unfold set_file, get_Args0. cbn.
  unfold bind at 1. rewrite fileIsExist_eq.
  destruct (os_Stat _ w2) as [r0 w3].
  destruct (match r0 with None => true | Some e => negb (IsNotExist e) end).
  - unfold bind, call. by destruct (os_Remove _ w3) as [[e|] w4].
  - done.
Qed.

Lemma open_if_needed_eq date p f b s d n w :
  open_if_needed date (mk_efh p f b s d n) w =
  match f with
  | Some _ => Done None (mk_efh p f b s d n) w
  | None =>
      let '(r, w1) := os_OpenFile (liveName p (os_Args0 w) date) w in
      match r with
      | inl f1 =>
          Done None (mk_efh p (Some f1) (Some (NewWriterSize f1 s)) s d 0) w1
      | inr e => Done (Some e) (mk_efh p None b s d n) w1
      end
  end.
Proof.
  destruct f as [f|];
    unfold open_if_needed, bind, get_efh, get_Args0, call, ret,
      set_file, set_nbytes, set_buffer; cbn; [done|].
  by destruct (os_OpenFile _ w) as [[f1|e] w1].
Qed.

Lemma rotateFile_eq T N date efh w :
  rotateFile T N date efh w =
  match date_rollover date efh w with
  | Done (Some e) efh1 w1 => Done (Some e) efh1 w1
  | Done None efh1 w1 =>
      match size_rollover T N date efh1 w1 with
      | Done (Some e) efh2 w2 => Done (Some e) efh2 w2
      | Done None efh2 w2 => open_if_needed date efh2 w2
      | Panic => Panic
      end
  | Panic => Panic
  end.
Proof.
  unfold rotateFile, bind, ret.
  destruct (date_rollover date efh w) as [[e|] efh1 w1|]; try done.
  by destruct (size_rollover T N date efh1 w1) as [[e|] efh2 w2|].
Qed.

Lemma Write_eq T N date data efh w :
  Write T N date data efh w =
  match rotateFile T N date efh w with
  | Done (Some e) efh1 w1 =>
      Done (0%nat, Some e) efh1 (Stderr_WriteString (Error e +:+ newline) w1)
  | Done None efh1 w1 =>
      match buffer efh1 with
      | None => Panic
      | Some b =>
          let '((k, err, b1), w2) := bufio_Write b data w1 in
          Done (k, err)
            (mk_efh (path efh1) (file efh1) (Some b1) (bufferSize efh1)
               (currentDate efh1)
               (int_add (nbytes efh1) (Z.of_nat (length data)))) w2
      end
  | Panic => Panic
  end.
Proof.
  unfold Write, bind, ret, call, get_efh, set_nbytes, buffer_Write.
  destruct (rotateFile T N date efh w) as [[e|] efh1 w1|]; done.
Qed.

(** ** [Write] when the rotation check fails *)

(** C6.  Whatever the payload, when the rotation check of [Write] returns
    an error, [Write] returns zero and that error; the handler is left as
    the check left it (nothing is appended to the buffer, [nbytes] is not
    advanced), no further system call is made, and the one change after the
    check is the line with the error's message on the standard error
    stream. *)
Theorem Write_rotation_failure T N date data efh w e efh1 w1 :
  rotateFile T N date efh w = Done (Some e) efh1 w1 →
  ∃ w2,
    Write T N date data efh w = Done (0%nat, Some e) efh1 w2 ∧
    os_stderr w2 = os_stderr w1 ++ [Error e +:+ newline] ∧
    os_inodes w2 = os_inodes w1 ∧ os_dir w2 = os_dir w1 ∧
    os_files w2 = os_files w1 ∧ os_trace w2 = os_trace w1.
Proof.
  intros H. rewrite Write_eq, H. by eexists.
Qed.

(** ** A new day on a file over the size limit *)

(** C10.  The handler has a file open, the date has changed and [nbytes] is
    over the limit.  When the date branch goes through (it flushes, closes
    the file and sets [file] to nil, and leaves [nbytes] as it is), the size
    branch that follows flushes again and closes the nil [file]:
    [rotateFile] returns [ErrInvalid] without having opened the new day's
    file, and [Write] returns zero bytes and that error. *)
Theorem new_day_over_limit_fails T N date data p f b s d n w efh1 w1 :
  d ≠ date → n > T →
  date_rollover date (mk_efh p (Some f) (Some b) s d n) w = Done None efh1 w1 →
  file efh1 = None ∧ nbytes efh1 = n ∧ currentDate efh1 = date ∧
  rotateFile T N date (mk_efh p (Some f) (Some b) s d n) w =
    Done (Some ErrInvalid) efh1 w1 ∧
  (∃ evs, os_trace w1 = os_trace w ++ evs ++ [EvClose f None] ∧
          Forall is_write evs) ∧
  Write T N date data (mk_efh p (Some f) (Some b) s d n) w =
    Done (0%nat, Some ErrInvalid) efh1
      (Stderr_WriteString (Error ErrInvalid +:+ newline) w1).
Proof.
  intros Hd Hn Hdate.
  assert (rotateFile T N date (mk_efh p (Some f) (Some b) s d n) w =
          Done (Some ErrInvalid) efh1 w1 ∧
          file efh1 = None ∧ nbytes efh1 = n ∧ currentDate efh1 = date ∧
          ∃ evs, os_trace w1 = os_trace w ++ evs ++ [EvClose f None] ∧
                 Forall is_write evs) as (Hrot & ? & ? & ? & ?).
  { rewrite rotateFile_eq, Hdate. rewrite date_rollover_eq in Hdate.
    case_decide; [|done].
    destruct (bufio_Flush b w) as [[r b1] w0] eqn:Hfl.
    destruct (file_Close (Some f) w0) as [[e|] w2] eqn:Hcl; [done|].
    injection Hdate as <- <-.
    rewrite size_rollover_eq. case_decide; [|lia].
    rewrite (bufio_Flush_again _ _ _ _ _ Hfl w2). cbn.
    do 4 (split; [done|]).
    apply bufio_Flush_ext in Hfl as (_ & _ & _ & evs & Hx & Hw).
    apply file_Close_ext in Hcl as (_ & _ & [(f' & [= <-] & Hx2)|[_ []]]);
      [|done].
    exists evs. split; [|done].
    rewrite (ext_trace _ _ _ Hx2), (ext_trace _ _ _ Hx). by rewrite app_assoc. }
  do 3 (split; [done|]). split; [done|]. split; [done|].
  by rewrite Write_eq, Hrot.
Qed.

(** In that situation the write fails in any case: a close that goes wrong
    in the date branch is an error of its own. *)
Lemma new_day_over_limit_never_rotates T N date p f b s d n w :
  d ≠ date → n > T →
  ∃ e efh1 w1,
    rotateFile T N date (mk_efh p (Some f) (Some b) s d n) w =
    Done (Some e) efh1 w1.
Proof.
  intros Hd Hn. rewrite rotateFile_eq, date_rollover_eq, decide_True by done.
  destruct (bufio_Flush b w) as [[r b1] w0] eqn:Hfl.
  destruct (file_Close (Some f) w0) as [[e|] w2]; [by eauto|].
  rewrite size_rollover_eq, decide_True by done.
  rewrite (bufio_Flush_again _ _ _ _ _ Hfl w2). cbn. by eauto.
Qed.

(** Once the handler holds no file and [nbytes] is over the limit, every
    later call fails the same way, on any day: the counter is reset only
    after an open, and the open is never reached. *)
Lemma over_limit_without_file_stays T N date p b s d n w :
  n > T → bw_err b ≠ None ∨ bw_buf b = [] →
  rotateFile T N date (mk_efh p None (Some b) s d n) w =
  Done (Some ErrInvalid) (mk_efh p None (Some b) s date n) w.
Proof.
  intros Hn Hb.
  assert (bufio_Flush b w = (bw_err b, b, w)) as Hfl.
  { unfold bufio_Flush. destruct (bw_err b); [done|].
    destruct Hb as [?| ->]; done. }
  rewrite rotateFile_eq, date_rollover_eq.
  case_decide; rewrite size_rollover_eq; (case_decide; [|lia]);
    rewrite Hfl; cbn; [done|].
  by subst.
Qed.

(** ** Errors of the rotation check *)

(** The handler after a call of [rotateFile] that returned the error [e]:
    either [file] is nil, or [file] is what it was and [e] came from
    closing it. *)
Lemma rotateFile_error_file T N date efh w e efh' w' :
  rotateFile T N date efh w = Done (Some e) efh' w' →
  file efh' = None ∨
  (file efh' = file efh ∧ ∃ w0, file_Close (file efh) w0 = (Some e, w')).
Proof.
  destruct efh as [p f b s d n]. rewrite rotateFile_eq, date_rollover_eq.
  cbn [file].
  assert (∀ f1 b1 d1 w1,
    (f1 = None ∨ f1 = f) →
    match size_rollover T N date (mk_efh p f1 b1 s d1 n) w1 with
    | Done (Some e) efh2 w2 => Done (Some e) efh2 w2
    | Done None efh2 w2 => open_if_needed date efh2 w2
    | Panic => Panic
    end = Done (Some e) efh' w' →
    file efh' = None ∨
    (file efh' = f ∧ ∃ w0, file_Close f w0 = (Some e, w'))) as rest.
  { intros f1 b1 d1 w1 Hf1. rewrite size_rollover_eq.
    assert (∀ b2 w2,
      open_if_needed date (mk_efh p f1 b2 s d1 n) w2 = Done (Some e) efh' w' →
      file efh' = None) as Hopen.
    { intros b2 w2. rewrite open_if_needed_eq.
      destruct f1; [done|].
      destruct (os_OpenFile _ w2) as [[f2|e2] w3]; [done|].
      by intros [= <- <- <-]. }
    assert (∀ b2 w2,
      match rename_loop date (Z.to_nat (N - 1)) (mk_efh p None b2 s d1 n) w2
      with
      | Done (Some e) efh2 w2 => Done (Some e) efh2 w2
      | Done None efh2 w2 => open_if_needed date efh2 w2
      | Panic => Panic
      end = Done (Some e) efh' w' → file efh' = None) as Hloop.
    { intros b2 w2.
      destruct (rename_loop _ _ _ w2) as [[e2|] efh3 w3|] eqn:Hl; [..|done];
        apply rename_loop_spec in Hl as (-> & _).
      - by intros [= <- <- <-].
      - rewrite open_if_needed_eq.
        destruct (os_OpenFile _ w3) as [[f2|e3] w4]; [done|].
        by intros [= <- <- <-]. }
    case_decide; [|eauto].
    destruct b1 as [b1|]; [|done].
    destruct (bufio_Flush b1 w1) as [[r b2] w2].
    destruct (file_Close f1 w2) as [[e2|] w3] eqn:Hcl.
    { intros [= <- <- <-]. destruct Hf1 as [->| ->]; [by left|]. right. eauto. }
    cbv zeta. destruct (os_Stat _ w3) as [r3 w4].
    destruct (match r3 with None => true | Some e => negb (IsNotExist e) end);
      [|by eauto].
    destruct (os_Remove _ w4) as [[e4|] w5]; [|by eauto].
    intros [= <- <- <-]. by left. }
  case_decide; [|by apply rest; right].
  destruct f as [f|]; [|by apply rest; left].
  destruct b as [b|]; [|done].
  destruct (bufio_Flush b w) as [[r b1] w1].
  destruct (file_Close (Some f) w1) as [[e1|] w2] eqn:Hcl.
  - intros [= <- <- <-]. right. eauto.
  - intros Hrest. apply rest in Hrest; [done|by left].
Qed.

(** With no file and [nbytes] within the limit, the next call of
    [rotateFile] does nothing before it opens the live file of its day. *)
Lemma rotateFile_retries_open T N date p b s d n w :
  n ≤ T →
  rotateFile T N date (mk_efh p None b s d n) w =
  open_if_needed date (mk_efh p None b s date n) w.
Proof.
  intros Hn. rewrite rotateFile_eq, date_rollover_eq.
  case_decide; rewrite size_rollover_eq; (case_decide; [lia|]); [done|].
  by replace d with date by (by destruct (decide (d = date))).
Qed.

(** ** File names *)

Lemma liveName_backupName dir prog date i :
  liveName dir prog date ≠ backupName dir prog date i.
Proof.
  unfold liveName, backupName. intros H.
  do 5 apply String.app_inj in H. discriminate H.
Qed.

Global Instance backupName_inj dir prog date :
  Inj (=) (=) (backupName dir prog date).
Proof.
  intros i j H. unfold backupName in H.
  do 5 apply String.app_inj in H. cbn in H.
  apply (inj (String.append ".log.")) in H. by apply (inj pretty) in H.
Qed.

Global Instance chainName_inj dir prog date :
  Inj (=) (=) (chainName dir prog date).
Proof.
  intros i j. unfold chainName. repeat case_decide; subst; try done.
  - by intros ?%liveName_backupName.
  - by intros ?%symmetry%liveName_backupName.
  - by intros ?%(inj _)%(inj _).
Qed.

Lemma chainName_S dir prog date i :
  backupName dir prog date (Z.of_nat i + 1) = chainName dir prog date (S i).
Proof.
  unfold chainName. rewrite decide_False by done. f_equal. lia.
Qed.

Lemma elem_of_countdown j n : j ∈ countdown n ↔ (j < n)%nat.
Proof.
  induction n as [|n IH]; simpl; [by rewrite elem_of_nil; lia|].
  rewrite elem_of_cons, IH. lia.
Qed.

(** ** The system calls of [rotateFile] *)

Lemma ev_named_writes dir prog date N evs :
  Forall is_write evs → Forall (ev_named dir prog date N) evs.
Proof. intros H. eapply Forall_impl; [exact H|]. by intros []. Qed.

Lemma pre_ev_writes dir prog date N evs :
  Forall is_write evs → Forall (pre_ev dir prog date N) evs.
Proof. intros H. eapply Forall_impl; [exact H|]. by intros []. Qed.

Lemma shift_ev_named dir prog date N e j :
  (j < Z.to_nat (N - 1))%nat →
  ev_named dir prog date N (shift_ev dir prog date e j).
Proof. intros Hj. exists j. split; [lia|done]. Qed.

Lemma rot_shape_named dir prog date N r evs :
  rot_shape dir prog date N r evs → Forall (ev_named dir prog date N) evs.
Proof.
  intros (pre & js & tail & -> & Hpre & Hjs & Htail).
  apply Forall_app. split.
  { eapply Forall_impl; [exact Hpre|]. by intros []. }
  apply Forall_app. split.
  { apply Forall_fmap, Forall_forall. intros j Hj. apply shift_ev_named.
    apply elem_of_countdown. by eapply elem_of_sublist. }
  destruct Htail; repeat constructor. by apply shift_ev_named.
Qed.

(** The date branch flushes and closes, and makes no other call. *)
Lemma date_rollover_ext date efh w r efh1 w1 :
  date_rollover date efh w = Done r efh1 w1 →
  path efh1 = path efh ∧ bufferSize efh1 = bufferSize efh ∧
  ∃ evs, sys_ext w evs w1 ∧
         ∀ dir prog N, Forall (pre_ev dir prog date N) evs.
Proof.
  destruct efh as [p f b s d n]. rewrite date_rollover_eq.
  case_decide; [|intros [= <- <- <-]; eauto 6 using sys_ext_refl].
  destruct f as [f|]; [|intros [= <- <- <-]; eauto 6 using sys_ext_refl].
  destruct b as [b|]; [|done].
  destruct (bufio_Flush b w) as [[r0 b1] w0] eqn:Hfl.
  apply bufio_Flush_ext in Hfl as (_ & _ & _ & evs & Hx & Hw).
  destruct (file_Close (Some f) w0) as [e w2] eqn:Hcl.
  assert (∃ evs2, sys_ext w0 evs2 w2 ∧
            ∀ dir prog N, Forall (pre_ev dir prog date N) evs2)
    as (evs2 & Hx2 & Hn2).
  { apply file_Close_ext in Hcl as (_ & _ & [(f' & _ & Hx2)|[-> _]]).
    - eexists. split; [done|]. by repeat constructor.
    - exists []. split; [apply sys_ext_refl|done]. }
  intros Hr.
  assert (path efh1 = p ∧ bufferSize efh1 = s ∧ w1 = w2) as (-> & -> & ->)
    by (destruct e; by simplify_eq).
  do 2 (split; [done|]). exists (evs ++ evs2).
  split; [by eapply sys_ext_trans|].
  intros. apply Forall_app. split; [by apply pre_ev_writes|done].
Qed.

(** The shift, as [rename_loop_spec] has it, in terms of [sys_ext]. *)
Lemma rename_loop_ext date n efh w r efh1 w1 :
  rename_loop date n efh w = Done r efh1 w1 →
  efh1 = efh ∧
  ∃ js tail,
    sys_ext w (shift_evs (path efh) (os_Args0 w) date js ++ tail) w1 ∧
    js `sublist_of` countdown n ∧
    (tail = [] ∧ r = None ∨
     ∃ e i, r = Some e ∧ (i < n)%nat ∧ Forall (λ j, (i < j)%nat) js ∧
            tail = [shift_ev (path efh) (os_Args0 w) date (Some e) i]).
Proof.
  intros (-> & _ & _ & js & evs & Hsub & _ & Hx & Hr)%rename_loop_spec.
  split; [done|]. exists js. destruct r as [e|].
  - destruct Hr as (i & Hi & Hjs & ->). eexists. split; [done|].
    split; [done|]. right. by exists e, i.
  - subst evs. exists []. rewrite app_nil_r. split; [done|]. by auto.
Qed.

(** The size branch: a flush, a close, the removal of the oldest backup,
    then the shift. *)
Lemma size_rollover_ext T N date efh w r efh1 w1 :
  size_rollover T N date efh w = Done r efh1 w1 →
  path efh1 = path efh ∧ bufferSize efh1 = bufferSize efh ∧
  ∃ pre js tail,
    sys_ext w (pre ++ shift_evs (path efh) (os_Args0 w) date js ++ tail) w1 ∧
    Forall (pre_ev (path efh) (os_Args0 w) date N) pre ∧
    js `sublist_of` countdown (Z.to_nat (N - 1)) ∧
    (tail = [] ∨
     ∃ e i, r = Some e ∧ (i < Z.to_nat (N - 1))%nat ∧
            Forall (λ j, (i < j)%nat) js ∧
            tail = [shift_ev (path efh) (os_Args0 w) date (Some e) i]).
Proof.
  destruct efh as [p f b s d n]. rewrite size_rollover_eq. cbn [path bufferSize].
  assert (∀ pre w2,
    sys_ext w pre w2 → Forall (pre_ev p (os_Args0 w) date N) pre →
    ∃ pre js tail,
      sys_ext w (pre ++ shift_evs p (os_Args0 w) date js ++ tail) w2 ∧
      Forall (pre_ev p (os_Args0 w) date N) pre ∧
      js `sublist_of` countdown (Z.to_nat (N - 1)) ∧
      (tail = [] ∨
       ∃ e i, r = Some e ∧ (i < Z.to_nat (N - 1))%nat ∧
              Forall (λ j, (i < j)%nat) js ∧
              tail = [shift_ev p (os_Args0 w) date (Some e) i])) as Hstop.
  { intros pre w2 Hx Hpre. exists pre, [], []. rewrite !app_nil_r.
    split; [done|]. split; [done|]. split; [apply sublist_nil_l|by left]. }
  case_decide;
    [|intros [= <- <- <-]; do 2 (split; [done|]);
      by eapply Hstop; [apply sys_ext_refl|]].
  destruct b as [b|]; [|done].
  destruct (bufio_Flush b w) as [[r0 b1] w0] eqn:Hfl.
  apply bufio_Flush_ext in Hfl as (_ & _ & _ & evs & Hx & Hw).
  apply (pre_ev_writes p (os_Args0 w) date N) in Hw.
  destruct (file_Close f w0) as [e w2] eqn:Hcl.
  assert (∃ evs2, sys_ext w0 evs2 w2 ∧
            Forall (pre_ev p (os_Args0 w) date N) evs2)
    as (evs2 & Hx2 & Hn2).
  { apply file_Close_ext in Hcl as (_ & _ & [(f' & _ & Hx2)|[-> _]]).
    - eexists. split; [done|]. by repeat constructor.
    - exists []. split; [apply sys_ext_refl|done]. }
  pose proof (sys_ext_trans _ _ _ _ _ Hx Hx2) as Hx02.
  pose proof (proj2 (Forall_app _ _ _) (conj Hw Hn2)) as Hn02.
  clear Hx Hx2 Hw Hn2 Hcl. revert Hx02 Hn02.
  generalize (evs ++ evs2). clear evs evs2. intros evs Hx Hn.
  destruct e as [e|];
    [intros [= <- <- <-]; do 2 (split; [done|]); by eapply Hstop|].
  cbv zeta. pose proof (ext_Args0 _ _ _ Hx) as HA. rewrite HA.
  destruct (os_Stat _ w2) as [r3 w3] eqn:Hst.
  apply os_Stat_ext in Hst as (Hx3 & _).
  pose proof (sys_ext_trans _ _ _ _ _ Hx Hx3) as Hx03.
  rewrite app_nil_r in Hx03. clear Hx Hx3.
  assert (∀ pre w4,
    sys_ext w pre w4 → Forall (pre_ev p (os_Args0 w) date N) pre →
    rename_loop date (Z.to_nat (N - 1)) (mk_efh p None (Some b1) s d n) w4 =
      Done r efh1 w1 →
    path efh1 = p ∧ bufferSize efh1 = s ∧
    ∃ pre js tail,
      sys_ext w (pre ++ shift_evs p (os_Args0 w) date js ++ tail) w1 ∧
      Forall (pre_ev p (os_Args0 w) date N) pre ∧
      js `sublist_of` countdown (Z.to_nat (N - 1)) ∧
      (tail = [] ∨
       ∃ e i, r = Some e ∧ (i < Z.to_nat (N - 1))%nat ∧
              Forall (λ j, (i < j)%nat) js ∧
              tail = [shift_ev p (os_Args0 w) date (Some e) i])) as Hloop.
  { intros pre w4 Hx4 Hn4 (-> & js & tail & Hx5 & Hjs & Htail)%rename_loop_ext.
    do 2 (split; [done|]). exists pre, js, tail.
    cbn [path] in *. rewrite (ext_Args0 _ _ _ Hx4) in Hx5, Htail.
    split; [by eapply sys_ext_trans|]. split; [done|]. split; [done|].
    destruct Htail as [[-> _]|(e & i & ?)]; [by left|right; by exists e, i]. }
  destruct (match r3 with None => true | Some e => negb (IsNotExist e) end);
    [|by eauto].
  destruct (os_Remove _ w3) as [e4 w4] eqn:Hrm.
  apply os_Remove_ext in Hrm as (Hx4 & _).
  pose proof (sys_ext_trans _ _ _ _ _ Hx03 Hx4) as Hx04.
  assert (Forall (pre_ev p (os_Args0 w) date N)
            (evs ++ [EvRemove (backupName p (os_Args0 w) date (N - 1)) e4]))
    as Hn04 by (apply Forall_app; by repeat constructor).
  destruct e4 as [e4|];
    [intros [= <- <- <-]; do 2 (split; [done|]); by eapply Hstop|].
  by eauto.
Qed.

(** The last part makes one call, the open of the live name, or none. *)
Lemma open_if_needed_ext date efh w r efh1 w1 :
  open_if_needed date efh w = Done r efh1 w1 →
  path efh1 = path efh ∧ bufferSize efh1 = bufferSize efh ∧
  (sys_ext w [] w1 ∨
   sys_ext w [EvOpen (liveName (path efh) (os_Args0 w) date) r] w1).
Proof.
  destruct efh as [p f b s d n]. rewrite open_if_needed_eq.
  destruct f as [f|]; [intros [= <- <- <-]; eauto 6 using sys_ext_refl|].
  destruct (os_OpenFile _ w) as [r1 w2] eqn:Hop.
  apply os_OpenFile_ext in Hop as (Hx & _). intros Hr.
  destruct r1; simplify_eq; auto.
Qed.

(** The system calls of one [rotateFile], whatever the environment does. *)
Lemma rotateFile_ext T N date efh w r efh1 w1 :
  rotateFile T N date efh w = Done r efh1 w1 →
  path efh1 = path efh ∧ bufferSize efh1 = bufferSize efh ∧
  ∃ evs, sys_ext w evs w1 ∧ rot_shape (path efh) (os_Args0 w) date N r evs.
Proof.
  rewrite rotateFile_eq.
  destruct (date_rollover date efh w) as [r1 efh2 w2|] eqn:H1; [|by destruct r].
  apply date_rollover_ext in H1 as (Hp1 & Hs1 & evs1 & Hx1 & Hn1).
  specialize (Hn1 (path efh) (os_Args0 w) N).
  destruct r1 as [e1|].
  { intros [= <- <- <-]. do 2 (split; [done|]). exists evs1. split; [done|].
    exists evs1, [], []. rewrite !app_nil_r.
    split; [done|]. split; [done|]. split; [apply sublist_nil_l|constructor]. }
  destruct (size_rollover T N date efh2 w2) as [r2 efh3 w3|] eqn:H2; [|done].
  apply size_rollover_ext in H2
    as (Hp2 & Hs2 & pre & js & tail & Hx2 & Hpre & Hjs & Htail).
  rewrite Hp1, (ext_Args0 _ _ _ Hx1) in Hx2, Hpre, Htail.
  pose proof (sys_ext_trans _ _ _ _ _ Hx1 Hx2) as Hx12.
  pose proof (proj2 (Forall_app _ _ _) (conj Hn1 Hpre)) as Hn12.
  rewrite app_assoc in Hx12.
  destruct r2 as [e2|].
  { intros [= <- <- <-]. split; [congruence|]. split; [congruence|].
    eexists. split; [done|]. exists (evs1 ++ pre), js, tail.
    do 3 (split; [done|]).
    destruct Htail as [->|(e & i & ? & ? & ? & ->)]; [constructor|].
    by eapply tail_rename. }
  destruct Htail as [->|(e & i & ? & _)]; [|done]. rewrite app_nil_r in Hx12.
  intros (Hp3 & Hs3 & Hx3)%open_if_needed_ext.
  rewrite Hp2, Hp1, (ext_Args0 _ _ _ Hx12) in Hx3.
  split; [congruence|]. split; [congruence|].
  destruct Hx3 as [Hx3|Hx3];
    pose proof (sys_ext_trans _ _ _ _ _ Hx12 Hx3) as Hx;
    rewrite <-app_assoc in Hx; (eexists; split; [exact Hx|]);
    exists (evs1 ++ pre), js; eexists; (do 3 (split; [done|])); constructor.
Qed.

Lemma sys_ext_stderr w s : sys_ext w [] (Stderr_WriteString s w).
Proof. ext_solve. Qed.

(** The system calls of one [Write]: those of [rotateFile], then, when it
    returned no error, the writes of the buffered writer. *)
Lemma Write_shape T N date data efh w a efh1 w1 :
  Write T N date data efh w = Done a efh1 w1 →
  path efh1 = path efh ∧ bufferSize efh1 = bufferSize efh ∧
  ∃ r evs evs2,
    sys_ext w (evs ++ evs2) w1 ∧
    rot_shape (path efh) (os_Args0 w) date N r evs ∧ Forall is_write evs2 ∧
    ∀ e, r = Some e → a = (0%nat, Some e) ∧ evs2 = [].
Proof.
  rewrite Write_eq.
  destruct (rotateFile T N date efh w) as [r efh2 w2|] eqn:Hrot; [|done].
  apply (rotateFile_ext T N) in Hrot as (Hp & Hs & evs & Hx & Hn).
  destruct r as [e|].
  { intros [= <- <- <-]. do 2 (split; [done|]). exists (Some e), evs, [].
    split; [|split; [done|split; [done|by intros ? [= <-]]]].
    eapply sys_ext_trans; [done|]. apply sys_ext_stderr. }
  destruct (buffer efh2) as [b|]; [|done].
  destruct (bufio_Write b data w2) as [[[k err] b1] w3] eqn:Hw.
  apply bufio_Write_loop_ext in Hw as (_ & _ & _ & _ & _ & evs2 & Hx2 & Hw2).
  intros [= <- <- <-]. do 2 (split; [done|]). exists None, evs, evs2.
  split; [by eapply sys_ext_trans|]. by repeat split.
Qed.

Lemma Write_ext T N date data efh w a efh1 w1 :
  Write T N date data efh w = Done a efh1 w1 →
  path efh1 = path efh ∧ bufferSize efh1 = bufferSize efh ∧
  ∃ evs, sys_ext w evs w1 ∧
         Forall (ev_named (path efh) (os_Args0 w) date N) evs.
Proof.
  intros (? & ? & r & evs & evs2 & Hx & Hn & Hw & _)%(Write_shape T N).
  do 2 (split; [done|]). eexists. split; [done|]. apply Forall_app.
  split; [by eapply rot_shape_named|by apply ev_named_writes].
Qed.

Lemma Flush_ext efh w efh1 w1 :
  Flush efh w = Done () efh1 w1 →
  path efh1 = path efh ∧ bufferSize efh1 = bufferSize efh ∧
  ∃ evs, sys_ext w evs w1 ∧ Forall is_write evs.
Proof.
  destruct efh as [p [f|] [b|] s d n];
    unfold Flush, bind, get_efh, ret, buffer_Flush; cbn;
    try (intros [= <- <-]; eauto 6 using sys_ext_refl); try done.
  destruct (bufio_Flush b w) as [[r b1] w2] eqn:Hfl. cbn.
  apply bufio_Flush_ext in Hfl as (_ & _ & _ & evs & Hx & Hw).
  intros [= <- <-]. eauto 6.
Qed.

(** ** A call that fails ends the rotation check *)

(** Writes apart (the error of a flush is dropped), no call of the
    rotation check follows one that failed. *)
Lemma writes_no_call_error evs :
  Forall is_write evs → Forall (λ ev, call_error ev = None) evs.
Proof. intros H. eapply Forall_impl; [exact H|]. by intros []. Qed.

Lemma abort_shape_app efh efh0 efh1 r evs1 evs2 :
  Forall (λ ev, call_error ev = None) evs1 →
  file efh0 = file efh ∨ file efh0 = None →
  abort_shape efh0 efh1 r evs2 → abort_shape efh efh1 r (evs1 ++ evs2).
Proof.
  intros H1 Hf [H2|(pre & ev & e & -> & Hpre & He & -> & Hfile)].
  - left. by apply Forall_app.
  - right. exists (evs1 ++ pre), ev, e. split; [by rewrite app_assoc|].
    split; [by apply Forall_app|]. do 2 (split; [done|]).
    destruct ev; try done.
    (* a close that failed: the file it closed is the one there was *)
    destruct Hfile as [Hf0 Hf1]. destruct Hf as [<-|Hf]; [done|congruence].
Qed.

Lemma shift_evs_no_call_error dir prog date js :
  Forall (λ ev, call_error ev = None) (shift_evs dir prog date js).
Proof. unfold shift_evs. apply Forall_fmap. by apply Forall_true. Qed.

Lemma file_Close_abort p f b s d n b1 w r w1 :
  file_Close f w = (r, w1) →
  ∃ evs, os_trace w1 = os_trace w ++ evs ∧
    match r with
    | Some e =>
        abort_shape (mk_efh p f b s d n) (mk_efh p f b1 s d n) (Some e) evs
    | None => Forall (λ ev, call_error ev = None) evs
    end.
Proof.
  intros (_ & _ & [(f0 & -> & Hx)|[-> Hr]])%file_Close_ext.
  - exists [EvClose f0 r]. split; [apply Hx|]. destruct r as [e|].
    + right. by exists [], (EvClose f0 (Some e)), e.
    + by repeat constructor.
  - exists []. split; [by rewrite app_nil_r|]. destruct r as [e|]; [|done].
    by left.
Qed.

Lemma date_rollover_abort date efh w r efh1 w1 :
  date_rollover date efh w = Done r efh1 w1 →
  ∃ evs, os_trace w1 = os_trace w ++ evs ∧ abort_shape efh efh1 r evs ∧
         (r = None → file efh1 = file efh ∨ file efh1 = None).
Proof.
  destruct efh as [p f b s d n]. rewrite date_rollover_eq.
  case_decide.
  2:{ intros [= <- <- <-]. exists []. rewrite app_nil_r.
      split; [done|]. split; [by left|by left]. }
  destruct f as [f|].
  2:{ intros [= <- <- <-]. exists []. rewrite app_nil_r.
      split; [done|]. split; [by left|by left]. }
  destruct b as [b|]; [|done].
  destruct (bufio_Flush b w) as [[r1 b1] w2] eqn:HF.
  apply bufio_Flush_ext in HF as (_ & _ & _ & evs1 & Hx1 & Hw1).
  destruct (file_Close (Some f) w2) as [r2 w3] eqn:HC.
  apply (file_Close_abort p (Some f) (Some b) s d n (Some b1)) in HC
    as (evs2 & Ht2 & Hs2).
  destruct r2 as [e|]; intros [= <- <- <-].
  - exists (evs1 ++ evs2).
    split; [by rewrite Ht2, (ext_trace _ _ _ Hx1), app_assoc|].
    split; [|done].
    eapply abort_shape_app; [by apply writes_no_call_error|by left|].
    destruct Hs2 as [?|(pre & ev & e' & -> & ? & ? & ? & ?)]; [by left|].
    right. by exists pre, ev, e'.
  - exists (evs1 ++ evs2).
    split; [by rewrite Ht2, (ext_trace _ _ _ Hx1), app_assoc|].
    split; [|by right]. left. apply Forall_app.
    split; [by apply writes_no_call_error|done].
Qed.

Lemma rename_loop_abort date n efh w r efh1 w1 :
  file efh = None →
  rename_loop date n efh w = Done r efh1 w1 →
  efh1 = efh ∧
  ∃ evs, os_trace w1 = os_trace w ++ evs ∧ abort_shape efh efh1 r evs.
Proof.
  intros Hf (-> & js & tail & Hx & _ & Ht)%rename_loop_ext. split; [done|].
  eexists. split; [apply Hx|].
  destruct Ht as [[-> ->]|(e & i & -> & _ & _ & ->)].
  - left. rewrite app_nil_r. apply shift_evs_no_call_error.
  - right. eexists _, _, e. split; [done|].
    split; [apply shift_evs_no_call_error|]. by cbn.
Qed.

Lemma size_rollover_abort T N date efh w r efh1 w1 :
  size_rollover T N date efh w = Done r efh1 w1 →
  ∃ evs, os_trace w1 = os_trace w ++ evs ∧ abort_shape efh efh1 r evs ∧
         (r = None → file efh1 = file efh ∨ file efh1 = None).
Proof.
  destruct efh as [p f b s d n]. rewrite size_rollover_eq.
  case_decide.
  2:{ intros [= <- <- <-]. exists []. rewrite app_nil_r.
      split; [done|]. split; [by left|by left]. }
  destruct b as [b|]; [|done].
  destruct (bufio_Flush b w) as [[r1 b1] w2] eqn:HF.
  apply bufio_Flush_ext in HF as (_ & _ & _ & evs1 & Hx1 & Hw1).
  apply writes_no_call_error in Hw1.
  destruct (file_Close f w2) as [r2 w3] eqn:HC.
  apply (file_Close_abort p f (Some b) s d n (Some b1)) in HC
    as (evs2 & Ht2 & Hs2).
  destruct r2 as [e|].
  { intros [= <- <- <-]. exists (evs1 ++ evs2).
    split; [by rewrite Ht2, (ext_trace _ _ _ Hx1), app_assoc|].
    split; [|done]. eapply abort_shape_app; [done|by left|].
    destruct Hs2 as [?|(pre & ev & e' & -> & ? & ? & ? & ?)]; [by left|].
    right. by exists pre, ev, e'. }
  cbv zeta. destruct (os_Stat _ w3) as [r3 w4] eqn:HS.
  apply os_Stat_ext in HS as (Hx3 & _).
  assert (os_trace w4 = os_trace w ++ evs1 ++ evs2) as Ht4.
  { rewrite (ext_trace _ _ _ Hx3), app_nil_r, Ht2, (ext_trace _ _ _ Hx1).
    by rewrite app_assoc. }
  assert (Forall (λ ev, call_error ev = None) (evs1 ++ evs2)) as Hc4
    by (by apply Forall_app).
  assert (∀ w5 evs5,
    os_trace w5 = os_trace w ++ evs5 →
    Forall (λ ev, call_error ev = None) evs5 →
    rename_loop date (Z.to_nat (N - 1)) (mk_efh p None (Some b1) s d n) w5 =
      Done r efh1 w1 →
    ∃ evs, os_trace w1 = os_trace w ++ evs ∧
           abort_shape (mk_efh p f (Some b) s d n) efh1 r evs ∧
           (r = None → file efh1 = f ∨ file efh1 = None)) as Hloop.
  { intros w5 evs5 Ht5 Hc5 (-> & evs6 & Ht6 & Hs6)%rename_loop_abort; [|done].
    exists (evs5 ++ evs6). split; [by rewrite Ht6, Ht5, app_assoc|].
    split; [|by right].
    eapply abort_shape_app; [exact Hc5| |exact Hs6]. by right. }
  destruct (match r3 with None => _ | _ => _ end);
    [|by apply (Hloop w4 (evs1 ++ evs2))].
  destruct (os_Remove _ w4) as [r5 w5] eqn:HR.
  apply os_Remove_ext in HR as (Hx5 & _).
  destruct r5 as [e|].
  - intros [= <- <- <-]. eexists. split.
    { rewrite (ext_trace _ _ _ Hx5), Ht4. by rewrite <-app_assoc. }
    split; [|done]. right. eexists _, _, e. split; [done|].
    split; [done|]. by cbn.
  - apply (Hloop w5
             ((evs1 ++ evs2) ++
              [EvRemove (backupName p (os_Args0 w3) date (N - 1)) None])).
    + by rewrite (ext_trace _ _ _ Hx5), Ht4, <-app_assoc.
    + apply Forall_app. split; [done|]. by repeat constructor.
Qed.

Lemma open_if_needed_abort date efh w r efh1 w1 :
  open_if_needed date efh w = Done r efh1 w1 →
  ∃ evs, os_trace w1 = os_trace w ++ evs ∧ abort_shape efh efh1 r evs.
Proof.
  destruct efh as [p f b s d n]. rewrite open_if_needed_eq.
  destruct f as [f|].
  { intros [= <- <- <-]. exists []. rewrite app_nil_r. split; [done|by left]. }
  destruct (os_OpenFile _ w) as [r2 w2] eqn:HO.
  apply os_OpenFile_ext in HO as [Hx _].
  destruct r2 as [f2|e]; intros [= <- <- <-].
  - eexists. split; [apply Hx|]. left. by repeat constructor.
  - eexists. split; [apply Hx|]. right. by eexists [], _, e.
Qed.

(** The calls of one [rotateFile]: a close, a remove, a rename or an open
    that fails is the last call, and its error is returned. *)
Lemma rotateFile_abort T N date efh w r efh1 w1 :
  rotateFile T N date efh w = Done r efh1 w1 →
  ∃ evs, os_trace w1 = os_trace w ++ evs ∧ abort_shape efh efh1 r evs.
Proof.
  rewrite rotateFile_eq.
  destruct (date_rollover date efh w) as [r2 efh2 w2|] eqn:HD; [|done].
  apply date_rollover_abort in HD as (evs2 & Ht2 & Hs2 & Hf2).
  destruct r2 as [e|]; [intros [= <- <- <-]; by exists evs2|].
  destruct Hs2 as [Hc2|(? & ? & ? & _ & _ & _ & [=] & _)].
  destruct (size_rollover T N date efh2 w2) as [r3 efh3 w3|] eqn:HS; [|done].
  apply size_rollover_abort in HS as (evs3 & Ht3 & Hs3 & Hf3).
  destruct r3 as [e|].
  { intros [= <- <- <-]. exists (evs2 ++ evs3).
    split; [by rewrite Ht3, Ht2, app_assoc|].
    eapply abort_shape_app; [exact Hc2| |exact Hs3]. by apply Hf2. }
  destruct Hs3 as [Hc3|(? & ? & ? & _ & _ & _ & [=] & _)].
  intros (evs4 & Ht4 & Hs4)%open_if_needed_abort.
  exists (evs2 ++ evs3 ++ evs4).
  split; [by rewrite Ht4, Ht3, Ht2, !app_assoc|].
  eapply abort_shape_app; [exact Hc2| |]; [by apply Hf2|].
  eapply abort_shape_app; [exact Hc3| |exact Hs4]. by apply Hf3.
Qed.

(** C4, amended.  A close, a remove, a rename or an open that fails
    during the rotation check of a [Write] is the last system call of that
    [Write], and none of those failed before it: the check ends there,
    [rotateFile] returns the error of the call, and [Write] returns it with
    zero bytes, having written its message on the standard error stream.
    The handler's [file] is then nil, unless the call that failed is the
    close: a failed close leaves [file] as it was, the file that was to be
    closed.  And whenever [rotateFile] returns an error, from a call or
    from closing a file that is nil or closed already, [Write] returns that
    error with zero bytes; [file] is nil or is what it was, the error then
    being that of the close; and when [file] is nil and [nbytes] is within
    the limit, the next call goes straight to opening the live file. *)
Theorem rotation_error_aborts T N date data efh w :
  (∀ a efh' w' evs ev e,
     Write T N date data efh w = Done a efh' w' →
     os_trace w' = os_trace w ++ evs →
     ev ∈ evs → call_error ev = Some e →
     ∃ pre w0,
       evs = pre ++ [ev] ∧ Forall (λ ev, call_error ev = None) pre ∧
       rotateFile T N date efh w = Done (Some e) efh' w0 ∧
       a = (0%nat, Some e) ∧
       w' = Stderr_WriteString (Error e +:+ newline) w0 ∧
       match ev with
       | EvClose f _ => file efh = Some f ∧ file efh' = Some f
       | _ => file efh' = None
       end) ∧
  (∀ e efh' w',
     rotateFile T N date efh w = Done (Some e) efh' w' →
     Write T N date data efh w =
       Done (0%nat, Some e) efh'
         (Stderr_WriteString (Error e +:+ newline) w') ∧
     (file efh' = None ∨
      (file efh' = file efh ∧
       ∃ w0, file_Close (file efh) w0 = (Some e, w'))) ∧
     (file efh' = None → nbytes efh' ≤ T →
      ∀ date2 w2,
        rotateFile T N date2 efh' w2 =
        open_if_needed date2
          (mk_efh (path efh') None (buffer efh') (bufferSize efh') date2
             (nbytes efh')) w2)).
Proof.
  split.
  - intros a efh' w' evs ev e HW Htr Hin He. rewrite Write_eq in HW.
    destruct (rotateFile T N date efh w) as [r efh1 w1|] eqn:Hrot; [|done].
    pose proof Hrot as (evs1 & Ht1 & Hs1)%rotateFile_abort.
    destruct r as [e1|].
    + (* the check returned an error: the call that failed is its last *)
      injection HW as <- <- <-.
      assert (evs = evs1) as ->.
      { apply (app_inv_head (os_trace w)). rewrite <-Htr. by rewrite <-Ht1. }
      destruct Hs1 as [Hc|(pre & ev1 & e' & -> & Hpre & He1 & [= ->] & Hfile)].
      { rewrite Forall_forall in Hc. apply Hc in Hin. congruence. }
      apply elem_of_app in Hin as [Hin|Hin].
      { rewrite Forall_forall in Hpre. apply Hpre in Hin. congruence. }
      apply list_elem_of_singleton in Hin as ->.
      assert (e' = e) as -> by congruence.
      by exists pre, w1.
    + (* the check went through: no call but a write can have failed *)
      destruct Hs1 as [Hc|(? & ? & ? & _ & _ & _ & [=] & _)].
      destruct (buffer efh1) as [b|]; [|done].
      destruct (bufio_Write b data w1) as [[[k err] b1] w2] eqn:HBW.
      injection HW as <- <- <-.
      apply bufio_Write_loop_ext in HBW
        as (_ & _ & _ & _ & _ & evs2 & Hx2 & Hw2).
      assert (evs = evs1 ++ evs2) as ->.
      { apply (app_inv_head (os_trace w)).
        by rewrite <-Htr, (ext_trace _ _ _ Hx2), Ht1, app_assoc. }
      apply writes_no_call_error in Hw2.
      assert (Forall (λ ev, call_error ev = None) (evs1 ++ evs2)) as Hall
        by (by apply Forall_app).
      rewrite Forall_forall in Hall. apply Hall in Hin. congruence.
  - intros e efh' w' H. split; [by rewrite Write_eq, H|].
    split; [by eapply rotateFile_error_file|].
    destruct efh' as [p' f' b' s' d' n']; cbn. intros -> Hn date2 w2.
    by apply rotateFile_retries_open.
Qed.

(** ** The depth of the backup chain *)

Lemma created_named dir prog D N evs name :
  1 ≤ N → Forall (ev_named dir prog D N) evs → name ∈ created evs →
  name ∈ chain_names dir prog D N.
Proof.
  intros HN Hn. unfold chain_names.
  induction Hn as [|ev evs Hev _ IH]; simpl; [set_solver|].
  destruct ev as [| | |old new [e|]|nm [e|]]; try done;
    (rewrite elem_of_union, elem_of_singleton; intros [->|?]; [|by auto]).
  - destruct Hev as (i & Hi & _ & ->). rewrite chainName_S.
    apply list_elem_of_fmap. exists (S i). split; [done|].
    apply elem_of_seq. lia.
  - simpl in Hev. subst nm. apply list_elem_of_fmap. exists 0%nat.
    split; [done|]. apply elem_of_seq. lia.
Qed.

Lemma ev_apply_chain_inv dir prog D N ev s :
  ev_named dir prog D N ev → chain_inv dir prog D s →
  chain_inv dir prog D (ev_apply s ev).
Proof.
  destruct s as [d k]. intros Hev [Hfresh Hord].
  destruct ev as [| |name [e|]|old new [e|]|name [e|]]; try done;
    unfold chain_inv; cbn in *.
  - (* a remove *)
    split.
    + intros nm ino [_ ?]%lookup_delete_Some. eauto.
    + intros i j a b Hij [_ ?]%lookup_delete_Some [_ ?]%lookup_delete_Some.
      eauto.
  - (* a rename, of the round [i] *)
    destruct Hev as (i & _ & -> & ->). rewrite chainName_S.
    unfold rename_dir.
    destruct (d !! chainName dir prog D i) as [ai|] eqn:Hi; [|done].
    split.
    + intros nm ino [[_ <-]|[_ [_ ?]%lookup_delete_Some]]%lookup_insert_Some;
        eauto.
    + intros x y a b Hxy Hx Hy.
      apply lookup_insert_Some in Hx as [[Hx <-]|[Hx [Hx' Ha]%lookup_delete_Some]];
        apply lookup_insert_Some in Hy
          as [[Hy <-]|[Hy [Hy' Hb]%lookup_delete_Some]].
      * apply (inj _) in Hx, Hy. lia.
      * apply (inj _) in Hx. subst x.
        apply (Hord i y); [|done..].
        destruct (decide (y = i)); [by subst|lia].
      * apply (inj _) in Hy. subst y.
        apply (Hord x i); [|done..].
        destruct (decide (x = i)); [by subst|lia].
      * eauto.
  - (* an open, of the live name *)
    subst name. destruct (d !! liveName dir prog D) as [a0|] eqn:Hl; [done|].
    cbn. split.
    + intros nm ino [[_ <-]|[_ ?]]%lookup_insert_Some; [lia|].
      assert (ino < k)%nat by eauto. lia.
    + intros x y a b Hxy Hx Hy.
      assert (chainName dir prog D y ≠ liveName dir prog D) as Hy0.
      { change (liveName dir prog D) with (chainName dir prog D 0).
        intros ?%(inj _). lia. }
      rewrite lookup_insert_ne in Hy by done.
      apply lookup_insert_Some in Hx as [[_ <-]|[_ Hx]]; eauto.
Qed.

Lemma foldl_ev_apply_chain_inv dir prog D N evs s :
  Forall (ev_named dir prog D N) evs → chain_inv dir prog D s →
  chain_inv dir prog D (foldl ev_apply s evs).
Proof.
  intros Hevs. revert s.
  induction Hevs as [|ev evs Hev _ IH]; intros s Hs; [done|].
  cbn [foldl]. by eapply IH, ev_apply_chain_inv.
Qed.

(** The system calls of a client's run on one day. *)
Lemma run_ext T N D ops efh w efh1 w1 :
  Forall (on_day D) ops →
  run T N ops efh w = Done () efh1 w1 →
  ∃ evs, sys_ext w evs w1 ∧
         Forall (ev_named (path efh) (os_Args0 w) D N) evs.
Proof.
  intros Hops. revert efh w.
  induction Hops as [|o ops Ho _ IH]; intros efh w; simpl.
  { intros [= <- <-]. exists []. split; [apply sys_ext_refl|done]. }
  assert (∀ efh2 w2 evs,
    path efh2 = path efh → sys_ext w evs w2 →
    Forall (ev_named (path efh) (os_Args0 w) D N) evs →
    run T N ops efh2 w2 = Done () efh1 w1 →
    ∃ evs, sys_ext w evs w1 ∧
           Forall (ev_named (path efh) (os_Args0 w) D N) evs) as Hstep.
  { intros efh2 w2 evs Hp Hx Hn (evs2 & Hx2 & Hn2)%IH.
    rewrite Hp, (ext_Args0 _ _ _ Hx) in Hn2. exists (evs ++ evs2).
    split; [by eapply sys_ext_trans|by apply Forall_app]. }
  destruct o as [date data|]; unfold bind.
  - simpl in Ho. subst date.
    destruct (Write T N D data efh w) as [a efh2 w2|] eqn:HW; [|done].
    apply Write_ext in HW as (Hp & _ & evs & Hx & Hn). by eapply Hstep.
  - destruct (Flush efh w) as [[] efh2 w2|] eqn:HF; [|done].
    apply Flush_ext in HF as (Hp & _ & evs & Hx & Hn).
    eapply Hstep; [done..|]. by apply ev_named_writes.
Qed.

(** C2.  Start from a directory in which the log files of the day [D], if
    any, carry indices below [N] and are ordered by age along the chain, and
    let a client write (on the day [D]) and flush in any order, the
    environment failing whichever calls it likes.  Then the log files of the
    day [D] still carry indices [0] to [N - 1] only, so there are never more
    than [N] of them; index [0] is the live name; and a file of a higher
    index is older than a file of a lower index (it was created before:
    files are numbered in the order of their creation). *)
Theorem backup_chain_depth T N D ops efh w efh1 w1 :
  1 ≤ N → Forall (on_day D) ops →
  (∀ name, name ∈ dom (os_dir w) → log_name (path efh) (os_Args0 w) D name →
           name ∈ chain_names (path efh) (os_Args0 w) D N) →
  chain_inv (path efh) (os_Args0 w) D (os_dir w, length (os_inodes w)) →
  run T N ops efh w = Done () efh1 w1 →
  (∀ name, name ∈ dom (os_dir w1) → log_name (path efh) (os_Args0 w) D name →
           name ∈ chain_names (path efh) (os_Args0 w) D N) ∧
  (∀ l : list string,
     NoDup l →
     (∀ name, name ∈ l →
        name ∈ dom (os_dir w1) ∧ log_name (path efh) (os_Args0 w) D name) →
     (length l ≤ Z.to_nat N)%nat) ∧
  chainName (path efh) (os_Args0 w) D 0 = liveName (path efh) (os_Args0 w) D ∧
  (∀ i j a b, (i < j)%nat →
     os_dir w1 !! chainName (path efh) (os_Args0 w) D i = Some a →
     os_dir w1 !! chainName (path efh) (os_Args0 w) D j = Some b →
     (b < a)%nat).
Proof.
  intros HN Hops Hw Hinv (evs & Hx & Hn)%(run_ext T N D); [|done].
  assert (∀ name, name ∈ dom (os_dir w1) →
            log_name (path efh) (os_Args0 w) D name →
            name ∈ chain_names (path efh) (os_Args0 w) D N) as Hw1.
  { intros name Hd Hl.
    apply (ext_dom _ _ _ Hx), elem_of_union in Hd as [Hd|Hd]; [by auto|].
    by eapply created_named. }
  split; [done|]. split.
  { intros l Hnd Hl.
    transitivity (length (chain_names (path efh) (os_Args0 w) D N)).
    - apply submseteq_length, NoDup_submseteq; [done|].
      intros name [? ?]%Hl. by apply Hw1.
    - unfold chain_names. by rewrite length_fmap, length_seq. }
  split; [done|].
  eapply foldl_ev_apply_chain_inv in Hinv; [|exact Hn].
  rewrite <-(ext_steps _ _ _ Hx) in Hinv. apply Hinv.
Qed.

(** ** The backup-chain rotation against the specification's algorithm *)

Lemma spec_index_name_chainName dir prog D i :
  spec_index_name dir prog D i = chainName dir prog D i.
Proof. by destruct i. Qed.

Lemma countdown_rev_seq n : countdown n = rev (seq 0 n).
Proof.
  induction n as [|n IH]; [done|].
  rewrite seq_S, rev_app_distr. simpl. by rewrite IH.
Qed.

Lemma foldl_ext {A B} (f g : A → B → A) (a : A) (l : list B) :
  (∀ a b, f a b = g a b) → foldl f a l = foldl g a l.
Proof.
  intros Hfg. revert a. induction l as [|b l IH]; intros a; simpl; [done|].
  by rewrite Hfg, IH.
Qed.

Lemma spec_backup_chain_shift dir prog D N st :
  (2 ≤ N)%nat →
  spec_backup_chain dir prog D N st =
  foldl (shift_step dir prog D)
        (spec_delete (backupName dir prog D (Z.of_nat N - 1)) st)
        (countdown (N - 1)).
Proof.
  intros HN. unfold spec_backup_chain. rewrite countdown_rev_seq.
  rewrite spec_index_name_chainName. unfold chainName at 1.
  rewrite decide_False by lia.
  replace (Z.of_nat (N - 1)) with (Z.of_nat N - 1) by lia.
  apply foldl_ext. intros st' i. unfold shift_step.
  rewrite !spec_index_name_chainName.
  by rewrite Nat.add_1_r, <-chainName_S.
Qed.

(** Without faults the loop of the source makes the renames of the
    specification's step 2, and nothing else. *)
Lemma rename_loop_nf date n efh w :
  os_faults w = [] →
  rename_loop date n efh w =
  Done None efh
    (let st := foldl (shift_step (path efh) (os_Args0 w) date)
                     (os_dir w, os_trace w) (countdown n) in
     with_dir_trace st.1 st.2 w).
Proof.
  revert w. induction n as [|n IH]; intros w Hnf.
  { simpl. unfold ret. f_equal. by destruct w. }
  rewrite rename_loop_S. cbv zeta. rewrite os_Stat_nf by done.
  cbn [countdown foldl].
  assert (shift_step (path efh) (os_Args0 w) date (os_dir w, os_trace w) n =
          match os_dir w !! chainName (path efh) (os_Args0 w) date n with
          | Some ino =>
              (<[backupName (path efh) (os_Args0 w) date (Z.of_nat n + 1) := ino]>
                 (delete (chainName (path efh) (os_Args0 w) date n) (os_dir w)),
               os_trace w ++
               [EvRename (chainName (path efh) (os_Args0 w) date n)
                  (backupName (path efh) (os_Args0 w) date (Z.of_nat n + 1))
                  None])
          | None => (os_dir w, os_trace w)
          end) as -> by done.
  destruct (os_dir w !! chainName (path efh) (os_Args0 w) date n)
    as [ino|] eqn:Hd; cbn [IsNotExist negb].
  - rewrite (os_Rename_nf _ _ _ ino) by done. by rewrite IH.
  - by rewrite IH.
Qed.

(** After the shift, index [0] is free. *)
Lemma shift_frees_live dir prog date n st :
  (foldl (shift_step dir prog date) st (countdown (S n))).1
    !! liveName dir prog date = None.
Proof.
  rewrite countdown_rev_seq. cbn [seq rev]. rewrite foldl_app.
  cbn [foldl]. unfold shift_step at 1, spec_rename.
  unfold chainName. rewrite decide_True by done.
  set (st' := foldl _ st _).
  destruct (st'.1 !! liveName dir prog date) as [ino|] eqn:Hl; [|done].
  cbn [fst]. rewrite lookup_insert_ne by (symmetry; apply liveName_backupName).
  apply lookup_delete_eq.
Qed.

Lemma bufio_Flush_frame b w r b1 w1 :
  bufio_Flush b w = (r, b1, w1) →
  os_Args0 w1 = os_Args0 w ∧ os_stderr w1 = os_stderr w ∧
  os_dir w1 = os_dir w ∧ os_files w1 = os_files w ∧
  (os_faults w = [] → os_faults w1 = []).
Proof.
  intros H. assert (os_stderr w1 = os_stderr w) as Hse.
  { revert H. unfold bufio_Flush, file_Write.
    intros; repeat case_match; simplify_eq; try done;
      match goal with
      | H : next_fault _ = _ |- _ => apply next_fault_spec in H as (? & -> & _)
      end; done. }
  apply bufio_Flush_ext in H as (? & ? & _ & evs & [] & _). done.
Qed.

(** A size rotation with every system call going through, step by step:
    the buffer is flushed, the file closed, the last backup removed if it
    is there, the rounds of the loop run from [N - 2] down to [0], and the
    live name, free by then, is opened. *)
Lemma size_rotation_shift T (N : nat) date p f b s n w ino :
  (2 ≤ N)%nat → os_faults w = [] → os_files w !! f = Some (ino, false) →
  n > T →
  let '((_, b1), w1) := bufio_Flush b w in
  let '(d2, tr2) :=
    foldl (shift_step p (os_Args0 w) date)
          (spec_delete (backupName p (os_Args0 w) date (Z.of_nat N - 1))
                       (os_dir w, os_trace w1 ++ [EvClose f None]))
          (countdown (N - 1)) in
  let live := liveName p (os_Args0 w) date in
  let f' := length (os_files w) in
  let ino' := length (os_inodes w1) in
  d2 !! live = None ∧
  rotateFile T (Z.of_nat N) date (mk_efh p (Some f) (Some b) s date n) w =
  Done None
    (mk_efh p (Some f') (Some (NewWriterSize f' s)) s date 0)
    (mk_os (os_Args0 w) (<[live := ino']> d2) (os_inodes w1 ++ [[]])
       (<[f := (ino, true)]> (os_files w) ++ [(ino', false)])
       (os_stderr w) [] (tr2 ++ [EvOpen live None])).
Proof.
  intros HN Hnf Hf Hn.
  destruct (bufio_Flush b w) as [[r b1] w1] eqn:Hfl.
  apply bufio_Flush_frame in Hfl as Hfr.
  destruct Hfr as (HA1 & Hse1 & Hd1 & Hf1 & Hnf1). specialize (Hnf1 Hnf).
  replace (N - 1)%nat with (S (N - 2)) by lia.
  destruct (foldl _ _ _) as [d2 tr2] eqn:Hspec. cbv zeta.
  assert (d2 !! liveName p (os_Args0 w) date = None) as Hfree.
  { change d2 with (d2, tr2).1. rewrite <-Hspec. apply shift_frees_live. }
  split; [done|].
  rewrite rotateFile_eq, date_rollover_eq, decide_False by (by intros []).
  rewrite size_rollover_eq, decide_True, Hfl by done.
  rewrite (file_Close_nf _ _ ino) by (by rewrite ?Hf1).
  cbv zeta. cbn [os_Args0 log_event set_files]. rewrite HA1.
  replace (Z.to_nat (Z.of_nat N - 1)) with (S (N - 2)) by lia.
  rewrite os_Stat_nf by done. cbn [os_dir log_event set_files]. rewrite Hd1.
  revert Hspec. unfold spec_delete. cbn [fst snd].
  destruct (os_dir w !! backupName p (os_Args0 w) date (Z.of_nat N - 1))
    as [ino9|] eqn:H9; cbn [IsNotExist negb]; intros Hspec.
  - rewrite (os_Remove_nf _ _ ino9) by (by cbn; rewrite ?Hd1).
    rewrite rename_loop_nf by done.
    cbn [os_Args0 os_dir os_trace log_event set_dir set_files path].
    rewrite HA1, Hd1, Hspec. cbn [fst snd].
    rewrite open_if_needed_eq. unfold with_dir_trace. cbn.
    rewrite HA1, os_OpenFile_nf_new by done.
    cbn. by rewrite Hse1, Hf1, Hnf1, length_insert.
  - rewrite rename_loop_nf by done.
    cbn [os_Args0 os_dir os_trace log_event set_dir set_files path].
    rewrite HA1, Hd1, Hspec. cbn [fst snd].
    rewrite open_if_needed_eq. unfold with_dir_trace. cbn.
    rewrite HA1, os_OpenFile_nf_new by done.
    cbn. by rewrite Hse1, Hf1, Hnf1, length_insert.
Qed.

(** C3.  A size rotation on the day [date], depth [N], with every system
    call going through.  After the buffer is flushed and the file closed,
    the directory and the calls made are exactly those of the
    specification's algorithm: the file at index [N-1] is deleted if it
    exists, then, for [i] from [N-2] down to [0], the file at index [i] is
    renamed to index [i+1] if it exists.  Index [0] is free afterwards, and
    the one call that follows opens it: the live name then stands for a
    brand-new, empty file, which the handler holds with an empty buffer
    and a counter of zero. *)
Theorem backup_chain_rotation T (N : nat) date p f b s n w ino :
  (2 ≤ N)%nat → os_faults w = [] → os_files w !! f = Some (ino, false) →
  n > T →
  let '((_, b1), w1) := bufio_Flush b w in
  let '(d2, tr2) :=
    spec_backup_chain p (os_Args0 w) date N
      (os_dir w, os_trace w1 ++ [EvClose f None]) in
  let live := spec_index_name p (os_Args0 w) date 0 in
  let f' := length (os_files w) in
  let ino' := length (os_inodes w1) in
  d2 !! live = None ∧
  rotateFile T (Z.of_nat N) date (mk_efh p (Some f) (Some b) s date n) w =
  Done None
    (mk_efh p (Some f') (Some (NewWriterSize f' s)) s date 0)
    (mk_os (os_Args0 w) (<[live := ino']> d2) (os_inodes w1 ++ [[]])
       (<[f := (ino, true)]> (os_files w) ++ [(ino', false)])
       (os_stderr w) [] (tr2 ++ [EvOpen live None])).
Proof.
  intros HN Hnf Hf Hn.
  pose proof (size_rotation_shift T N date p f b s n w ino HN Hnf Hf Hn)
    as Hrot.
  destruct (bufio_Flush b w) as [[r b1] w1].
  rewrite spec_backup_chain_shift by done.
  destruct (foldl _ _ _) as [d2 tr2].
  exact Hrot.
Qed.

(** ** A rename that fails in the middle of the shift *)

(** C7.  Suppose that among the system calls of one [Write] there is a
    rename that failed, with the error [e].  Then [Write] returns zero and
    [e].  The failed rename is that of a round [i] of the shift, and it is
    the last call made: nothing is retried, nothing comes after.  Before
    it came the flush, the close and possibly the removal of the oldest
    backup, then the renames, all successful, of some rounds [js] above [i],
    from the highest down.  The directory is left as these calls made it:
    the renames are not undone, and the files of the rounds from [i] down
    are where they were. *)
Theorem rename_failure_aborts T N date data efh w a efh' w' evs old new e :
  Write T N date data efh w = Done a efh' w' →
  os_trace w' = os_trace w ++ evs →
  EvRename old new (Some e) ∈ evs →
  a = (0%nat, Some e) ∧
  ∃ pre js i,
    evs = pre ++ shift_evs (path efh) (os_Args0 w) date js ++
          [EvRename old new (Some e)] ∧
    old = chainName (path efh) (os_Args0 w) date i ∧
    new = backupName (path efh) (os_Args0 w) date (Z.of_nat i + 1) ∧
    Forall (pre_ev (path efh) (os_Args0 w) date N) pre ∧
    js `sublist_of` countdown (Z.to_nat (N - 1)) ∧
    (i < Z.to_nat (N - 1))%nat ∧ Forall (λ j, (i < j)%nat) js ∧
    os_dir w' =
    foldl dir_effect (os_dir w)
          (pre ++ shift_evs (path efh) (os_Args0 w) date js).
Proof.
  intros (_ & _ & r & evs1 & evs2 & Hx & Hshape & Hw & Hr)%(Write_shape T N)
    Htr Hin.
  rewrite (ext_trace _ _ _ Hx) in Htr. apply (inj (app _)) in Htr.
  subst evs. destruct Hshape as (pre & js & tail & -> & Hpre & Hjs & Htail).
  assert (∃ i, r = Some e ∧ (i < Z.to_nat (N - 1))%nat ∧
               Forall (λ j, (i < j)%nat) js ∧
               old = chainName (path efh) (os_Args0 w) date i ∧
               new = backupName (path efh) (os_Args0 w) date (Z.of_nat i + 1) ∧
               tail = [EvRename old new (Some e)])
    as (i & -> & Hi & Hlt & Hold & Hnew & ->).
  { rewrite !elem_of_app in Hin. destruct Hin as [[Hin|[Hin|Hin]]|Hin].
    - rewrite Forall_forall in Hpre. by apply Hpre in Hin.
    - by apply list_elem_of_fmap in Hin as (j & [=] & _).
    - destruct Htail as [| |e' i He' Hi Hlt].
      + by apply elem_of_nil in Hin.
      + by apply list_elem_of_singleton in Hin.
      + apply list_elem_of_singleton in Hin. injection Hin as -> -> ->.
        by exists i.
    - rewrite Forall_forall in Hw. by apply Hw in Hin. }
  destruct (Hr e eq_refl) as [-> ->]. rewrite app_nil_r in Hx |- *.
  split; [done|]. exists pre, js, i. repeat (split; [done|]).
  rewrite (sys_ext_dir _ _ _ Hx), !app_assoc, foldl_snoc; [done|].
  rewrite !Forall_app. split; [|split; [|apply Forall_singleton; by intros ?]].
  - eapply Forall_impl; [exact Hpre|]. by intros [] Hp Ho.
  - apply Forall_fmap, Forall_forall. by intros ? _ ?.
Qed.

(** ** Buffered bytes across a rotation *)

Lemma bufio_Flush_noop b w :
  bw_err b ≠ None ∨ bw_buf b = [] → bufio_Flush b w = (bw_err b, b, w).
Proof.
  intros Hb. unfold bufio_Flush. destruct (bw_err b); [done|].
  destruct Hb as [?| ->]; done.
Qed.

(** A flush that reports no error, on an open file, has moved the buffered
    bytes to the end of that file and changed no other file. *)
Lemma bufio_Flush_ok b w b1 w1 ino :
  bufio_Flush b w = (None, b1, w1) →
  os_files w !! bw_wr b = Some (ino, false) →
  (ino < length (os_inodes w))%nat →
  content w1 ino = content w ino ++ bw_buf b ∧
  ∀ j, j ≠ ino → content w1 j = content w j.
Proof.
  unfold bufio_Flush, content. intros H Hf Hi.
  destruct (bw_err b); [done|].
  destruct (bw_buf b) as [|x l] eqn:Hb.
  { simplify_eq. by rewrite app_nil_r. }
  revert H. unfold file_Write. rewrite Hf. ask_env.
  destruct ft as [|c k]; [|by case_decide].
  case_decide; [done|]. intros [= <- <-]. simpl.
  rewrite content_alter by done. split; [done|].
  intros j Hj. by rewrite list_lookup_alter_ne.
Qed.

(** A rotation that succeeds, from a handler whose buffer is settled: it
    closes the file and makes no write; the handler ends with a new file, a
    new empty buffer and a counter of zero. *)
Lemma rotateFile_flushed T N date p f b s d n w efh' w' :
  bw_err b ≠ None ∨ bw_buf b = [] → d ≠ date ∨ n > T →
  rotateFile T N date (mk_efh p (Some f) (Some b) s d n) w = Done None efh' w' →
  (∃ f', efh' = mk_efh p (Some f') (Some (NewWriterSize f' s)) s date 0) ∧
  ∃ evs, sys_ext w (EvClose f None :: evs) w' ∧
         Forall (λ ev, ¬ is_write ev) evs.
Proof.
  intros Hb Hrot. rewrite rotateFile_eq, date_rollover_eq.
  assert (∀ w0 w2, file_Close (Some f) w0 = (None, w2) →
            sys_ext w0 [EvClose f None] w2) as Hclose.
  { intros w0 w2 (_ & _ & [(f' & [= <-] & Hx)|[_ []]])%file_Close_ext; done. }
  assert (∀ b0 d0 n0 w2 evs,
    sys_ext w (EvClose f None :: evs) w2 → Forall (λ ev, ¬ is_write ev) evs →
    open_if_needed date (mk_efh p None b0 s d0 n0) w2 = Done None efh' w' →
    (∃ f', efh' = mk_efh p (Some f') (Some (NewWriterSize f' s)) s d0 0) ∧
    ∃ evs, sys_ext w (EvClose f None :: evs) w' ∧
           Forall (λ ev, ¬ is_write ev) evs) as Hopen.
  { intros b0 d0 n0 w2 evs Hx Hev. rewrite open_if_needed_eq.
    destruct (os_OpenFile _ w2) as [[f1|e] w3] eqn:Hop; [|done].
    apply os_OpenFile_ext in Hop as (Hx3 & _). intros [= <- <-].
    split; [by eexists|].
    exists (evs ++ [EvOpen (liveName p (os_Args0 w2) date) None]).
    split; [by apply (sys_ext_trans _ (_ :: _) _ _ _ Hx)|].
    apply Forall_app. split; [done|]. apply Forall_singleton. by intros ?. }
  case_decide as Hd.
  - rewrite (bufio_Flush_noop b w) by done.
    destruct (file_Close (Some f) w) as [[e|] w2] eqn:Hcl; [done|].
    apply Hclose in Hcl. rewrite size_rollover_eq.
    case_decide; [by rewrite (bufio_Flush_noop b w2) by done|].
    by apply (Hopen _ _ _ _ []).
  - destruct Hrot as [?|Hn]; [done|].
    subst d.
    rewrite size_rollover_eq, decide_True by done.
    rewrite (bufio_Flush_noop b w) by done.
    destruct (file_Close (Some f) w) as [[e|] w2] eqn:Hcl; [done|].
    apply Hclose in Hcl. cbv zeta.
    destruct (os_Stat _ w2) as [r3 w3] eqn:Hst.
    apply os_Stat_ext in Hst as (Hx3 & _).
    pose proof (sys_ext_trans _ _ _ _ _ Hcl Hx3) as Hx03. clear Hcl Hx3.
    assert (∀ evs w4,
      sys_ext w (EvClose f None :: evs) w4 → Forall (λ ev, ¬ is_write ev) evs →
      match rename_loop date (Z.to_nat (N - 1))
              (mk_efh p None (Some b) s date n) w4 with
      | Done (Some e) efh2 w2 => Done (Some e) efh2 w2
      | Done None efh2 w2 => open_if_needed date efh2 w2
      | Panic => Panic
      end = Done None efh' w' →
      (∃ f', efh' = mk_efh p (Some f') (Some (NewWriterSize f' s)) s date 0) ∧
      ∃ evs, sys_ext w (EvClose f None :: evs) w' ∧
             Forall (λ ev, ¬ is_write ev) evs) as Hloop.
    { intros evs w4 Hx4 Hev.
      destruct (rename_loop _ _ _ w4) as [[e|] efh2 w5|] eqn:Hl; [done| |done].
      apply rename_loop_ext in Hl as (-> & js & tail & Hx5 & _ & Htail).
      destruct Htail as [[-> _]|(? & ? & ? & _)]; [|done].
      rewrite app_nil_r in Hx5.
      pose proof (sys_ext_trans _ _ _ _ _ Hx4 Hx5) as Hx45.
      apply (Hopen _ _ _ _ _ Hx45).
      apply Forall_app. split; [done|].
      apply Forall_fmap, Forall_forall. by intros ? _ ?. }
    destruct (match r3 with None => true | Some e => negb (IsNotExist e) end).
    + destruct (os_Remove _ w3) as [[e4|] w4] eqn:Hrm; [done|].
      apply os_Remove_ext in Hrm as (Hx4 & _).
      pose proof (sys_ext_trans _ _ _ _ _ Hx03 Hx4) as Hx04.
      apply (Hloop _ _ Hx04). apply Forall_singleton. by intros ?.
    + by apply (Hloop [] _ Hx03).
Qed.

(** C1, amended.  On a rotation (the date has changed, or [nbytes] is over
    the limit) the buffer is flushed before the file is closed, and no write
    is made after the close.  When that flush reports no error and the
    rotation succeeds, the bytes that were pending are at the end of the old
    file and in no other file, and the handler starts its new file with an
    empty buffer.  The error of the flush itself is dropped by
    [rotateFile]: without the premise on the flush the bytes can be lost. *)
Theorem rotation_keeps_flushed_bytes
    T N date p f b s d n w ino b1 w1 efh' w' :
  os_files w !! f = Some (ino, false) → bw_wr b = f →
  (ino < length (os_inodes w))%nat →
  d ≠ date ∨ n > T →
  bufio_Flush b w = (None, b1, w1) →
  rotateFile T N date (mk_efh p (Some f) (Some b) s d n) w = Done None efh' w' →
  content w' ino = content w ino ++ bw_buf b ∧
  (∀ j, j ≠ ino → content w' j = content w j) ∧
  (∃ f', efh' = mk_efh p (Some f') (Some (NewWriterSize f' s)) s date 0) ∧
  ∃ evs, os_trace w' = os_trace w1 ++ EvClose f None :: evs ∧
         Forall (λ ev, ¬ is_write ev) evs.
Proof.
  intros Hf Hwr Hi Hrot Hfl Hrun. subst f.
  assert (rotateFile T N date (mk_efh p (Some (bw_wr b)) (Some b1) s d n) w1 =
          Done None efh' w') as Hrun1.
  { rewrite <-Hrun, !rotateFile_eq, !date_rollover_eq.
    pose proof (bufio_Flush_again _ _ _ _ _ Hfl) as Hagain.
    case_decide; [by rewrite Hfl, Hagain|].
    destruct Hrot as [?|Hn]; [done|].
    by rewrite !size_rollover_eq, !decide_True, Hfl, Hagain by done. }
  apply bufio_Flush_settled in Hfl as Hs. destruct Hs as (He & Hb & _).
  apply rotateFile_flushed in Hrun1 as (Hefh & evs & Hx & Hev);
    [|right; by apply Hb|done].
  destruct (bufio_Flush_ok _ _ _ _ _ Hfl Hf Hi) as (Hc & Hother).
  assert (∀ j, content w' j = content w1 j) as Hsame.
  { apply (ext_content _ _ _ Hx). constructor; [by intros ?|done]. }
  split; [by rewrite Hsame|]. split; [intros j Hj; rewrite Hsame; auto|].
  split; [done|]. exists evs. split; [apply Hx|done].
Qed.

(** ** Writing without faults *)

Lemma bufio_Write_holds p f b s d n w ino c data :
  holds (mk_efh p (Some f) (Some b) s d n) w ino c →
  ∃ b1 w1,
    bufio_Write b data w = ((length data, None, b1), w1) ∧
    (∀ n1, holds (mk_efh p (Some f) (Some b1) s d n1) w1 ino (c ++ data)) ∧
    os_dir w1 = os_dir w ∧ os_Args0 w1 = os_Args0 w ∧
    length (os_inodes w1) = length (os_inodes w) ∧
    (∀ j, j ≠ ino → content w1 j = content w j).
Proof.
  intros (f' & b' & [= <-] & [= <-] & Hwr & He & Hf & Hi & Hnf & Hc).
  cbn in *.
  destruct (bufio_Write_nf b data w ino) as (b1 & w1 & HW & He1 & Hc1 & Ho);
    [by rewrite ?Hwr..|].
  exists b1, w1. split; [done|].
  apply bufio_Write_loop_ext in HW
    as (Hd & Hfs & Hl & Hwr1 & _ & evs & Hx & _).
  split.
  { intros n1. exists f, b1. cbn. do 2 (split; [done|]).
    split; [congruence|]. split; [done|]. split; [by rewrite Hfs|].
    split; [lia|]. split; [by apply Hx|].
    by rewrite Hc1, <-Hc, <-app_assoc. }
  split; [done|]. split; [apply Hx|]. split; [done|].
  intros j Hj. unfold content. by rewrite Ho.
Qed.

(** A write on the day of the open file, within the limit: no rotation, the
    payload is appended. *)
Lemma Write_appends T N date data efh w ino c :
  holds efh w ino c → currentDate efh = date → nbytes efh ≤ T →
  ∃ efh1 w1,
    Write T N date data efh w = Done (length data, None) efh1 w1 ∧
    holds efh1 w1 ino (c ++ data) ∧
    path efh1 = path efh ∧ bufferSize efh1 = bufferSize efh ∧
    currentDate efh1 = date ∧
    nbytes efh1 = int_add (nbytes efh) (Z.of_nat (length data)) ∧
    os_dir w1 = os_dir w ∧ os_Args0 w1 = os_Args0 w ∧
    length (os_inodes w1) = length (os_inodes w) ∧
    (∀ j, j ≠ ino → content w1 j = content w j).
Proof.
  destruct efh as [p f b s d n]. cbn [currentDate nbytes path bufferSize].
  intros Hh <- Hn.
  pose proof Hh as (f' & b' & Hf & Hb & _). cbn in Hf, Hb. subst f b.
  rewrite Write_eq, rotateFile_eq, date_rollover_eq, decide_False
    by (by intros []).
  rewrite size_rollover_eq, decide_False, open_if_needed_eq by lia.
  cbn [buffer path file bufferSize currentDate nbytes].
  destruct (bufio_Write_holds _ _ _ _ _ _ _ _ _ data Hh)
    as (b1 & w1 & -> & Hh1 & Hd1 & HA1 & Hl1 & Ho1).
  do 2 eexists. split; [done|]. split; [apply Hh1|]. done.
Qed.

(** A write on a handler without a file, within the limit, the live name
    being free: the file is created and holds the payload. *)
Lemma Write_opens T N date data p b s d n w :
  os_faults w = [] → n ≤ T → os_dir w !! liveName p (os_Args0 w) date = None →
  ∃ efh1 w1,
    Write T N date data (mk_efh p None b s d n) w =
      Done (length data, None) efh1 w1 ∧
    holds efh1 w1 (length (os_inodes w)) data ∧
    path efh1 = p ∧ bufferSize efh1 = s ∧ currentDate efh1 = date ∧
    nbytes efh1 = int_add 0 (Z.of_nat (length data)) ∧
    os_dir w1 =
      <[liveName p (os_Args0 w) date := length (os_inodes w)]> (os_dir w) ∧
    os_Args0 w1 = os_Args0 w ∧
    length (os_inodes w1) = S (length (os_inodes w)) ∧
    (∀ j, j ≠ length (os_inodes w) → content w1 j = content w j).
Proof.
  intros Hnf Hn Hfree.
  rewrite Write_eq, rotateFile_retries_open, open_if_needed_eq by done.
  rewrite os_OpenFile_nf_new by done.
  cbn [buffer path file bufferSize currentDate nbytes].
  set (w2 := log_event _ _). set (f := length (os_files w)).
  set (ino := length (os_inodes w)).
  assert (holds (mk_efh p (Some f) (Some (NewWriterSize f s)) s date 0)
            w2 ino []) as Hh.
  { exists f, (NewWriterSize f s). do 4 (split; [done|]). subst w2 f ino. cbn.
    split; [by rewrite lookup_app_r, Nat.sub_diag by lia|].
    split; [rewrite length_app; simpl; lia|]. split; [done|].
    unfold content; cbn. rewrite lookup_app_r, Nat.sub_diag by lia. done. }
  destruct (bufio_Write_holds _ _ _ _ _ _ _ _ _ data Hh)
    as (b1 & w1 & -> & Hh1 & Hd1 & HA1 & Hl1 & Ho1).
  do 2 eexists. split; [done|]. split; [apply Hh1|]. cbn.
  do 4 (split; [done|]). split; [by rewrite Hd1|]. split; [by rewrite HA1|].
  split; [rewrite Hl1; subst w2; cbn; rewrite length_app; simpl; lia|].
  intros j Hj. rewrite Ho1 by done. unfold content. subst w2. cbn.
  apply content_app_nil.
Qed.

(** The rotation check of a write on the day of the open file, over the
    limit: the old file gets the pending bytes, the chain is shifted, and
    the handler holds a new, empty live file. *)
Lemma rotateFile_rotates T (N : nat) date efh w ino c :
  holds efh w ino c → currentDate efh = date → nbytes efh > T → (2 ≤ N)%nat →
  ∃ efh0 w0 tr,
    rotateFile T (Z.of_nat N) date efh w = Done None efh0 w0 ∧
    holds efh0 w0 (length (os_inodes w)) [] ∧
    path efh0 = path efh ∧ bufferSize efh0 = bufferSize efh ∧
    currentDate efh0 = date ∧ nbytes efh0 = 0 ∧
    os_dir w0 =
      <[liveName (path efh) (os_Args0 w) date := length (os_inodes w)]>
        (spec_backup_chain (path efh) (os_Args0 w) date N (os_dir w, tr)).1 ∧
    os_Args0 w0 = os_Args0 w ∧
    length (os_inodes w0) = S (length (os_inodes w)) ∧
    content w0 ino = c ∧ (∀ j, j ≠ ino → content w0 j = content w j).
Proof.
  destruct efh as [p f0 b0 s d n]. unfold holds. cbn.
  intros (f & b & -> & -> & Hwr & He & Hf & Hi & Hnf & Hc) <- Hn HN.
  cbn in *.
  pose proof (size_rotation_shift T N d p f b s n w ino HN Hnf Hf Hn) as Hrot.
  rewrite (bufio_Flush_nf _ _ ino) in Hrot by (by rewrite ?Hwr).
  rewrite <-spec_backup_chain_shift in Hrot by done.
  set (w1 := match bw_buf b with [] => w | _ => _ end) in Hrot.
  assert (length (os_inodes w1) = length (os_inodes w) ∧
          content w1 ino = c ∧ ∀ j, j ≠ ino → content w1 j = content w j)
    as (Hl1 & Hc1 & Ho1).
  { subst w1. unfold content in *. destruct (bw_buf b) as [|x l] eqn:Hb.
    - by rewrite app_nil_r in Hc.
    - cbn. rewrite length_alter, content_alter by done.
      split; [done|]. split; [done|]. intros j Hj.
      by rewrite list_lookup_alter_ne. }
  clearbody w1.
  destruct (spec_backup_chain _ _ _ _ _) as [d2 tr2] eqn:Hspec.
  destruct Hrot as [Hfree ->]. rewrite Hl1.
  do 2 eexists. exists (os_trace w1 ++ [EvClose f None]).
  split; [done|]. rewrite Hspec. cbn. split.
  { do 2 eexists. do 4 (split; [done|]). cbn.
    split; [by rewrite lookup_app_r, length_insert, Nat.sub_diag
              by (rewrite length_insert; lia)|].
    split; [rewrite length_app; simpl; lia|]. split; [done|].
    unfold content; cbn.
    by rewrite lookup_app_r, Hl1, Nat.sub_diag by lia. }
  do 6 (split; [done|]). split; [rewrite length_app; simpl; lia|].
  unfold content in *; cbn.
  split; [by rewrite content_app_nil|].
  intros j Hj. rewrite content_app_nil. auto.
Qed.

(** A directory with the live file and no backup of the rounds below [n]:
    the shift renames the live file to the name numbered [1], and that is
    all. *)
Lemma shift_only_live dir prog date n d tr ino :
  d !! liveName dir prog date = Some ino →
  (∀ i, (1 ≤ i < S n)%nat → d !! chainName dir prog date i = None) →
  foldl (shift_step dir prog date) (d, tr) (countdown (S n)) =
  (<[backupName dir prog date 1 := ino]> (delete (liveName dir prog date) d),
   tr ++ [EvRename (liveName dir prog date) (backupName dir prog date 1) None]).
Proof.
  intros Hlive. induction n as [|n IH]; intros Hnone.
  { cbn. unfold shift_step, spec_rename, chainName. cbn.
    by rewrite decide_True, Hlive by done. }
  cbn [countdown foldl].
  assert (shift_step dir prog date (d, tr) (S n) = (d, tr)) as ->.
  { unfold shift_step, spec_rename. cbn [fst snd]. by rewrite Hnone by lia. }
  apply IH. intros i Hi. apply Hnone. lia.
Qed.

(** What [Write] adds to a rotation check that succeeded. *)
Lemma Write_after_check T N date data efh w efh0 w0 ino c :
  rotateFile T N date efh w = Done None efh0 w0 → holds efh0 w0 ino c →
  ∃ efh1 w1,
    Write T N date data efh w = Done (length data, None) efh1 w1 ∧
    holds efh1 w1 ino (c ++ data) ∧
    nbytes efh1 = int_add (nbytes efh0) (Z.of_nat (length data)) ∧
    os_dir w1 = os_dir w0 ∧
    (∀ j, j ≠ ino → content w1 j = content w0 j).
Proof.
  intros Hrot Hh. rewrite Write_eq, Hrot.
  destruct efh0 as [p f b s d n].
  pose proof Hh as (f' & b' & Hf & Hb & _). cbn in Hf, Hb. subst f b. cbn.
  destruct (bufio_Write_holds _ _ _ _ _ _ _ _ _ data Hh)
    as (b1 & w1 & -> & Hh1 & Hd1 & HA1 & Hl1 & Ho1).
  do 2 eexists. split; [done|]. split; [apply Hh1|]. done.
Qed.

(** ** The shift of the backup chain, name by name *)

(** One round of the shift. *)
Lemma shift_step_shifted dir prog D N d tr k st :
  (S k ≤ N - 1)%nat →
  shifted dir prog D N d tr (S k) st →
  shifted dir prog D N d tr k (shift_step dir prog D st k).
Proof.
  intros Hk (H1 & H2 & H3 & (more & Htr & H4) & H5).
  unfold shift_step, spec_rename. rewrite chainName_S.
  destruct (st.1 !! chainName dir prog D k) as [ino|] eqn:Hold.
  - assert (d !! chainName dir prog D k = Some ino) as Hd
      by (by rewrite <-H3 by lia).
    split; [|split; [|split; [|split]]]; cbn [fst snd].
    + intros i Hi. destruct (decide (i = k)) as [->|Hne].
      * by rewrite lookup_insert_eq.
      * rewrite lookup_insert_ne by (intros ?%(inj _); lia).
        rewrite lookup_delete_ne by (intros ?%(inj _); lia).
        apply H1. lia.
    + rewrite lookup_insert_ne by (intros ?%(inj _); lia).
      apply lookup_delete_eq.
    + intros i Hi.
      rewrite lookup_insert_ne by (intros ?%(inj _); lia).
      rewrite lookup_delete_ne by (intros ?%(inj _); lia).
      apply H3. lia.
    + eexists. split; [by rewrite Htr, <-app_assoc|].
      intros i Hi Hsome. apply elem_of_app.
      destruct (decide (i = k)) as [->|Hne].
      * right. by apply list_elem_of_singleton.
      * left. apply H4; [lia|done].
    + intros name Hname.
      rewrite lookup_insert_ne by (intros <-; by apply (Hname (S k)); [lia|]).
      rewrite lookup_delete_ne by (intros <-; by apply (Hname k); [lia|]).
      by apply H5.
  - assert (d !! chainName dir prog D k = None) as Hd
      by (by rewrite <-H3 by lia).
    split; [|split; [|split; [|split]]].
    + intros i Hi. destruct (decide (i = k)) as [->|Hne].
      * by rewrite H2, Hd.
      * apply H1. lia.
    + done.
    + intros i Hi. apply H3. lia.
    + exists more. split; [done|].
      intros i Hi Hsome. destruct (decide (i = k)) as [->|Hne].
      * rewrite Hd in Hsome. by destruct Hsome.
      * apply H4; [lia|done].
    + done.
Qed.

Lemma foldl_shift_shifted dir prog D N d tr k st :
  (k ≤ N - 1)%nat →
  shifted dir prog D N d tr k st →
  shifted dir prog D N d tr 0
    (foldl (shift_step dir prog D) st (countdown k)).
Proof.
  revert st. induction k as [|k IH]; intros st Hk Hst; [done|].
  cbn [countdown foldl]. apply IH; [lia|]. by apply shift_step_shifted.
Qed.

(** The backup-chain rotation as a whole: the file of each index below
    [N - 1] carries the next index afterwards, moved there by a rename;
    index [0] is free; and no other name has changed. *)
Lemma spec_backup_chain_shifted dir prog D N d tr :
  (2 ≤ N)%nat →
  shifted dir prog D N d tr 0 (spec_backup_chain dir prog D N (d, tr)).
Proof.
  intros HN. rewrite spec_backup_chain_shift by done.
  apply foldl_shift_shifted; [done|].
  replace (Z.of_nat N - 1) with (Z.of_nat (N - 2) + 1) by lia.
  rewrite chainName_S. replace (S (N - 2)) with (N - 1)%nat by lia.
  unfold spec_delete. cbn [fst].
  assert (∀ st : spec_state,
    (st.1 = d ∨ st.1 = delete (chainName dir prog D (N - 1)) d) →
    (∃ more, st.2 = tr ++ more) →
    st.1 !! chainName dir prog D (N - 1) = None →
    shifted dir prog D N d tr (N - 1) st) as Hst.
  { intros st Hd [more Hmore] Hfree. split; [intros i Hi; lia|].
    split; [done|]. split; [|split].
    - intros i Hi. destruct Hd as [->| ->]; [done|].
      apply lookup_delete_ne. intros ?%(inj _). lia.
    - exists more. split; [done|]. intros i Hi; lia.
    - intros name Hname. destruct Hd as [->| ->]; [done|].
      apply lookup_delete_ne. intros <-. by apply (Hname (N - 1)%nat); [lia|]. }
  destruct (d !! chainName dir prog D (N - 1)) as [ino|] eqn:Hlast.
  - apply Hst; cbn; [by right|by eexists|apply lookup_delete_eq].
  - apply Hst; cbn; [by left|exists []; by rewrite app_nil_r|done].
Qed.

(** A size rotation with every call going through, in terms of names: the
    live name stands for a new file, which was opened; the file of each
    index below [N - 1] carries the next index, a rename having moved it;
    no other name has changed. *)
Lemma rotateFile_makes_backups T (N : nat) date efh w ino c :
  holds efh w ino c → currentDate efh = date → nbytes efh > T → (2 ≤ N)%nat →
  ∃ efh0 w0 evs,
    rotateFile T (Z.of_nat N) date efh w = Done None efh0 w0 ∧
    os_trace w0 = os_trace w ++ evs ∧
    os_dir w0 !! liveName (path efh) (os_Args0 w) date =
      Some (length (os_inodes w)) ∧
    EvOpen (liveName (path efh) (os_Args0 w) date) None ∈ evs ∧
    (∀ i, (i < N - 1)%nat →
       os_dir w0 !! chainName (path efh) (os_Args0 w) date (S i) =
         os_dir w !! chainName (path efh) (os_Args0 w) date i ∧
       (is_Some (os_dir w !! chainName (path efh) (os_Args0 w) date i) →
        EvRename (chainName (path efh) (os_Args0 w) date i)
          (chainName (path efh) (os_Args0 w) date (S i)) None ∈ evs)) ∧
    (∀ name,
       (∀ i, (i < N)%nat → name ≠ chainName (path efh) (os_Args0 w) date i) →
       os_dir w0 !! name = os_dir w !! name).
Proof.
  destruct efh as [p f0 b0 s d n]. unfold holds. cbn.
  intros (f & b & -> & -> & Hwr & He & Hf & Hi & Hnf & Hc) <- Hn HN.
  cbn in *.
  pose proof (size_rotation_shift T N d p f b s n w ino HN Hnf Hf Hn) as Hrot.
  rewrite (bufio_Flush_nf _ _ ino) in Hrot by (by rewrite ?Hwr).
  rewrite <-spec_backup_chain_shift in Hrot by done.
  set (w1 := match bw_buf b with [] => w | _ => _ end) in Hrot.
  assert (∃ evs1, os_trace w1 = os_trace w ++ evs1) as [evs1 Ht1].
  { subst w1. destruct (bw_buf b); [exists []; by rewrite app_nil_r|].
    by eexists. }
  assert (length (os_inodes w1) = length (os_inodes w)) as Hl1.
  { subst w1. destruct (bw_buf b); [done|]. cbn. by rewrite length_alter. }
  clearbody w1.
  pose proof (spec_backup_chain_shifted p (os_Args0 w) d N (os_dir w)
                (os_trace w1 ++ [EvClose f None]) HN)
    as (H1 & H2 & _ & (more & Hmore & H4) & H5).
  destruct (spec_backup_chain _ _ _ _ _) as [d2 tr2] eqn:Hspec.
  cbn [fst snd] in *. destruct Hrot as [Hfree ->]. rewrite Hl1.
  do 2 eexists.
  exists (evs1 ++ [EvClose f None] ++ more ++
          [EvOpen (liveName p (os_Args0 w) d) None]).
  split; [done|]. cbn [os_trace os_dir].
  split; [by rewrite Hmore, Ht1, <-!app_assoc|].
  split; [apply lookup_insert_eq|].
  split; [rewrite !elem_of_app; do 3 right; by apply list_elem_of_singleton|].
  split.
  - intros i Hlt. split.
    + rewrite lookup_insert_ne; [apply H1; lia|].
      change (liveName p (os_Args0 w) d) with (chainName p (os_Args0 w) d 0).
      intros ?%(inj _). lia.
    + intros Hsome. rewrite !elem_of_app. do 2 right. left.
      apply H4; [lia|done].
  - intros name Hname. rewrite lookup_insert_ne; [by apply H5|].
    intros <-. by apply (Hname 0%nat); [lia|].
Qed.

(** A handler without a file, its counter within the limit, opens the
    live file of the day before it does anything else. *)
Lemma Write_opens_first T N date data p b s d n w a efh1 w1 :
  n ≤ T →
  Write T N date data (mk_efh p None b s d n) w = Done a efh1 w1 →
  ∃ err evs,
    os_trace w1 = os_trace w ++ EvOpen (liveName p (os_Args0 w) date) err :: evs ∧
    Forall is_write evs ∧
    (err = None → is_Some (os_dir w1 !! liveName p (os_Args0 w) date)).
Proof.
  intros Hn. rewrite Write_eq, rotateFile_retries_open, open_if_needed_eq
    by done.
  destruct (os_OpenFile _ w) as [r w2] eqn:HO.
  apply os_OpenFile_ext in HO as [Hx HO].
  destruct r as [f|e].
  - cbn [buffer]. destruct (bufio_Write _ data w2) as [[[k err] b1] w3] eqn:HW.
    intros [= <- <- <-].
    apply bufio_Write_loop_ext in HW as (Hd & _ & _ & _ & _ & evs & Hx3 & Hw).
    exists None, evs. split.
    { by rewrite (ext_trace _ _ _ Hx3), (ext_trace _ _ _ Hx), <-app_assoc. }
    split; [done|]. intros _. rewrite Hd.
    destruct HO as (_ & ino & _ & -> & _). by eexists.
  - intros [= <- <- <-]. exists (Some e), []. split; [apply Hx|].
    split; [done|]. done.
Qed.

(** ** The size limit is checked before the payload is appended *)

(** C5.  The rotation check of a [Write] reads [nbytes] as it stands
    before the payload is counted, and the comparison is strict.  First:
    the file of the day is open and [nbytes] is at most the limit, the
    limit itself included; then [Write] makes no call but writes, the
    directory is as it was, and the payload, however long, goes to the
    open file.  Second: [nbytes] is over the limit; then the rotation comes
    first, what the live file held is under the name numbered 1, and the
    payload is in a new live file.  Third: limit 100, an empty directory,
    a new handler, and three writes of 40 bytes on one day.  All three
    land in the live file, which is the only file; the counter stands at
    120.  The rotation check of the next write of that day finds 120 over
    the limit and rotates: the 120 bytes are in the file that now has the
    name numbered 1, and the live name is a new, empty file.  The payload
    of that write then goes to the new live file. *)
Theorem size_limit_checked_before_append :
  (∀ T N date data efh w ino c,
     holds efh w ino c → currentDate efh = date → nbytes efh ≤ T →
     ∃ efh1 w1 evs,
       Write T N date data efh w = Done (length data, None) efh1 w1 ∧
       holds efh1 w1 ino (c ++ data) ∧
       nbytes efh1 = int_add (nbytes efh) (Z.of_nat (length data)) ∧
       os_dir w1 = os_dir w ∧
       length (os_inodes w1) = length (os_inodes w) ∧
       os_trace w1 = os_trace w ++ evs ∧ Forall is_write evs) ∧
  (∀ T (N : nat) date data efh w ino c,
     holds efh w ino c → currentDate efh = date → nbytes efh > T →
     (2 ≤ N)%nat →
     ∃ efh1 w1,
       Write T (Z.of_nat N) date data efh w =
         Done (length data, None) efh1 w1 ∧
       content w1 ino = c ∧
       holds efh1 w1 (length (os_inodes w)) data ∧
       nbytes efh1 = int_add 0 (Z.of_nat (length data)) ∧
       os_dir w1 !! liveName (path efh) (os_Args0 w) date =
         Some (length (os_inodes w)) ∧
       os_dir w1 !! backupName (path efh) (os_Args0 w) date 1 =
         os_dir w !! liveName (path efh) (os_Args0 w) date) ∧
  (∀ p s prog date d1 d2 d3 d4,
     length d1 = 40%nat → length d2 = 40%nat → length d3 = 40%nat →
     let w0 := mk_os prog ∅ [] [] [] [] [] in
     let live := liveName p prog date in
     let backup1 := backupName p prog date 1 in
     ∃ efh3 w3 efh4 w4 efh5 w5,
       run 100 LOG_MAX_ROTATE_FILE_NUM
           [OpWrite date d1; OpWrite date d2; OpWrite date d3]
           (NewEasyFileHandler p s) w0 = Done () efh3 w3 ∧
       os_dir w3 = {[live := 0%nat]} ∧ nbytes efh3 = 120 ∧
       holds efh3 w3 0 (d1 ++ d2 ++ d3) ∧
       rotateFile 100 LOG_MAX_ROTATE_FILE_NUM date efh3 w3 =
         Done None efh4 w4 ∧
       os_dir w4 = <[live := 1%nat]> {[backup1 := 0%nat]} ∧
       content w4 0 = d1 ++ d2 ++ d3 ∧ length (d1 ++ d2 ++ d3) = 120%nat ∧
       content w4 1 = [] ∧ holds efh4 w4 1 [] ∧
       Write 100 LOG_MAX_ROTATE_FILE_NUM date d4 efh3 w3 =
         Done (length d4, None) efh5 w5 ∧
       os_dir w5 = <[live := 1%nat]> {[backup1 := 0%nat]} ∧
       content w5 0 = d1 ++ d2 ++ d3 ∧ holds efh5 w5 1 d4).
Proof.
  split; [|split].
  - (* within the limit, the limit itself included: no rotation *)
    intros T N date data [p f b s d n] w ino c Hh. cbn [currentDate nbytes].
    intros Hd Hn. subst date.
    pose proof Hh as (f' & b' & Hf & Hb & _). cbn in Hf, Hb. subst f b.
    rewrite Write_eq, rotateFile_eq, date_rollover_eq, decide_False
      by (by intros []).
    rewrite size_rollover_eq, decide_False, open_if_needed_eq by lia.
    cbn [buffer path file bufferSize currentDate nbytes].
    destruct (bufio_Write_holds _ _ _ _ _ _ _ _ _ data Hh)
      as (b1 & w1 & HW & Hh1 & Hd1 & _ & Hl1 & _).
    rewrite HW.
    apply bufio_Write_loop_ext in HW as (_ & _ & _ & _ & _ & evs & Hx & Hw).
    do 2 eexists. exists evs. split; [done|]. split; [apply Hh1|].
    cbn [nbytes]. do 3 (split; [done|]). split; [apply Hx|done].
  - (* over the limit: the rotation comes first *)
    intros T N date data efh w ino c Hh Hd Hn HN.
    assert (ino < length (os_inodes w))%nat as Hi
      by (by destruct Hh as (? & ? & ? & ? & ? & ? & ? & ? & ?)).
    destruct (rotateFile_rotates T N date efh w ino c Hh Hd Hn HN)
      as (efh0 & w0 & tr & Hrot & Hh0 & _ & _ & _ & Hn0 & Hdir0 & _ & _
          & Hc0 & _).
    destruct (Write_after_check _ _ _ data _ _ _ _ _ _ Hrot Hh0)
      as (efh1 & w1 & HW & Hh1 & Hn1 & Hdir1 & Ho1).
    exists efh1, w1. split; [done|].
    split; [rewrite Ho1 by lia; done|]. split; [done|].
    split; [by rewrite Hn1, Hn0|].
    rewrite Hdir1, Hdir0.
    pose proof (spec_backup_chain_shifted (path efh) (os_Args0 w) date N
                  (os_dir w) tr HN) as (H1 & _).
    split; [apply lookup_insert_eq|].
    rewrite lookup_insert_ne by apply liveName_backupName.
    apply (H1 0%nat). lia.
  - (* the run of the specification *)
    intros p s prog date d1 d2 d3 d4.
    intros H1 H2 H3 w0 live backup1.
    destruct (Write_opens 100 LOG_MAX_ROTATE_FILE_NUM date d1 p None s "" 0 w0)
      as (efh1 & w1 & HW1 & Hh1 & Hp1 & _ & Hd1 & Hn1 & Hdir1 & HA1 & Hl1 & _);
      [done..|].
    destruct (Write_appends 100 LOG_MAX_ROTATE_FILE_NUM date d2 efh1 w1 _ _ Hh1)
      as (efh2 & w2 & HW2 & Hh2 & Hp2 & _ & Hd2 & Hn2 & Hdir2 & HA2 & Hl2 & _);
      [done|rewrite Hn1, H1; by vm_compute|].
    destruct (Write_appends 100 LOG_MAX_ROTATE_FILE_NUM date d3 efh2 w2 _ _ Hh2)
      as (efh3 & w3 & HW3 & Hh3 & Hp3 & _ & Hd3 & Hn3 & Hdir3 & HA3 & Hl3 & _);
      [done|rewrite Hn2, Hn1, H1, H2; by vm_compute|].
    assert (nbytes efh3 = 120) as Hn by (rewrite Hn3, Hn2, Hn1, H1, H2, H3; done).
    assert (path efh3 = p) as Hp by congruence.
    assert (os_Args0 w3 = prog) as HA by (rewrite HA3, HA2, HA1; done).
    assert (os_dir w3 = {[live := 0%nat]}) as Hdir.
    { rewrite Hdir3, Hdir2, Hdir1. cbn. by rewrite insert_empty. }
    assert (length (os_inodes w3) = 1%nat) as Hl by (rewrite Hl3, Hl2, Hl1; done).
    rewrite <-!app_assoc in Hh3. cbn [length os_inodes w0] in Hh3.
    destruct (rotateFile_rotates 100 10 date efh3 w3 _ _ Hh3)
      as (efh4 & w4 & tr & Hrot & Hh4 & _ & _ & _ & Hn4 & Hdir4 & _ & _ & Hc4 & _);
      [done|lia|lia|].
    rewrite Hl in Hh4. rewrite Hp, HA, Hdir, Hl in Hdir4.
    assert (os_dir w4 = <[live := 1%nat]> {[backup1 := 0%nat]}) as Hdir4'.
    { rewrite Hdir4. f_equal. rewrite spec_backup_chain_shift by lia.
      unfold spec_delete. cbn [fst snd].
      rewrite lookup_singleton_ne by apply liveName_backupName.
      change (10 - 1)%nat with 9%nat.
      rewrite (shift_only_live _ _ _ 8 _ _ 0%nat).
      - cbn [fst]. by rewrite delete_singleton_eq, insert_empty.
      - apply lookup_singleton_eq.
      - intros i Hi. unfold chainName. rewrite decide_False by lia.
        apply lookup_singleton_ne, liveName_backupName. }
    destruct (Write_after_check _ _ _ d4 _ _ _ _ _ _ Hrot Hh4)
      as (efh5 & w5 & HW5 & Hh5 & _ & Hdir5 & Ho5).
    exists efh3, w3, efh4, w4, efh5, w5.
    split. { cbn [run]. unfold bind, NewEasyFileHandler. by rewrite HW1, HW2, HW3. }
    do 3 (split; [done|]). split; [done|]. split; [done|]. split; [done|].
    split; [rewrite !length_app; lia|].
    split. { destruct Hh4 as (? & ? & _ & _ & _ & _ & _ & _ & _ & Hc).
             by apply app_eq_nil in Hc as [? _]. }
    split; [done|]. split; [done|]. split; [by rewrite Hdir5|].
    split; [by rewrite Ho5|done].
Qed.

(** ** The names of the live file and of its backups *)

(** C9.  [P] is the program's name, [D] the date of the call and [path]
    the handler's directory.  Whatever a call of [Write] does to the
    directory, it does under these names: the file it opens is
    [path/P-D.log]; a rename moves a file to [path/P-D.log.i] for an [i]
    from [1] to [N - 1], and moves it there from [path/P-D.log.(i-1)], or
    from [path/P-D.log] when [i] is [1]; a remove takes
    [path/P-D.log.(N-1)].  And these calls are made.  A handler without a
    file, its counter within the limit, opens [path/P-D.log] before any
    other call, and when the open goes through the name is in the
    directory.  A handler that holds the file of the day with its counter
    over the limit, every call going through: [path/P-D.log] is opened and
    stands for a new file, and for every [i] from [1] to [N - 1] the name
    [path/P-D.log.i] stands for the file that [path/P-D.log.(i-1)] stood
    for ([path/P-D.log] when [i] is [1]), moved there by a rename, or for
    none when that name stood for none. *)
Theorem log_file_names T N date data efh w a efh1 w1 :
  Write T N date data efh w = Done a efh1 w1 →
  let live :=
    path efh +:+ "/" +:+ os_Args0 w +:+ "-" +:+ date +:+ ".log" in
  let backup (i : Z) :=
    path efh +:+ "/" +:+ os_Args0 w +:+ "-" +:+ date +:+ ".log." +:+ Itoa i in
  let before (i : Z) := if decide (i = 1) then live else backup (i - 1) in
  ∃ evs, os_trace w1 = os_trace w ++ evs ∧
    (∀ ev, ev ∈ evs →
       match ev with
       | EvOpen name _ => name = live
       | EvRename old new _ =>
           ∃ i : Z, 1 ≤ i ≤ N - 1 ∧ new = backup i ∧ old = before i
       | EvRemove name _ => name = backup (N - 1)
       | EvWrite _ _ _ _ | EvClose _ _ => True
       end) ∧
    (file efh = None → nbytes efh ≤ T →
     ∃ err evs',
       evs = EvOpen live err :: evs' ∧ Forall is_write evs' ∧
       (err = None → is_Some (os_dir w1 !! live))) ∧
    (∀ ino c,
       holds efh w ino c → currentDate efh = date → nbytes efh > T → 2 ≤ N →
       os_dir w1 !! live = Some (length (os_inodes w)) ∧
       EvOpen live None ∈ evs ∧
       ∀ i : Z, 1 ≤ i ≤ N - 1 →
         os_dir w1 !! backup i = os_dir w !! before i ∧
         (is_Some (os_dir w !! before i) →
          EvRename (before i) (backup i) None ∈ evs)).
Proof.
  intros HW live backup before.
  pose proof HW as (_ & _ & evs & Hx & Hn)%(Write_ext T N).
  exists evs. split; [apply Hx|]. split; [|split].
  - intros ev Hev.
    rewrite Forall_forall in Hn. specialize (Hn ev Hev).
    destruct ev as [| | |old new e|]; try done.
    destruct Hn as (i & Hi & -> & ->). exists (Z.of_nat i + 1).
    split; [lia|]. split; [done|]. subst before backup live.
    unfold chainName. cbv beta.
    destruct (decide (i = 0%nat)) as [->|Hne].
    + by rewrite decide_True by done.
    + rewrite decide_False by lia. unfold backupName. do 7 f_equal. lia.
  - destruct efh as [p f b s d n]. cbn [file nbytes path] in *.
    intros -> Hle.
    destruct (Write_opens_first _ _ _ _ _ _ _ _ _ _ _ _ _ Hle HW)
      as (err & evs' & Htr & Hw & Hdir).
    exists err, evs'. split; [|done].
    apply (app_inv_head (os_trace w)). rewrite <-(ext_trace _ _ _ Hx). exact Htr.
  - intros ino c Hh Hd Hgt HN.
    destruct (rotateFile_makes_backups T (Z.to_nat N) date efh w ino c)
      as (efh0 & w0 & evs0 & Hrot & Ht0 & Hlive & Hopen & Hchain & _);
      [done|done|done|lia|].
    rewrite Z2Nat.id in Hrot by lia.
    rewrite Write_eq, Hrot in HW.
    destruct (buffer efh0) as [b|]; [|done].
    destruct (bufio_Write b data w0) as [[[k err] b1] w2] eqn:HBW.
    injection HW as <- <- <-.
    apply bufio_Write_loop_ext in HBW as (Hd2 & _ & _ & _ & _ & evs2 & Hx2 & _).
    assert (evs = evs0 ++ evs2) as ->.
    { apply (app_inv_head (os_trace w)).
      by rewrite <-(ext_trace _ _ _ Hx), (ext_trace _ _ _ Hx2), Ht0,
        app_assoc. }
    rewrite Hd2. split; [exact Hlive|].
    split; [apply elem_of_app; by left|].
    intros i Hi.
    destruct (Hchain (Z.to_nat (i - 1))) as [Hdir Hev]; [lia|].
    assert (chainName (path efh) (os_Args0 w) date (S (Z.to_nat (i - 1))) =
            backup i) as Hnew.
    { rewrite <-chainName_S. unfold backupName. subst backup. cbv beta.
      do 7 f_equal. lia. }
    assert (chainName (path efh) (os_Args0 w) date (Z.to_nat (i - 1)) =
            before i) as Hold.
    { subst before backup live. cbv beta. unfold chainName.
      destruct (decide (i = 1)) as [->|Hne].
      - by rewrite decide_True by done.
      - rewrite decide_False by lia. unfold backupName. do 7 f_equal. lia. }
    rewrite Hnew, Hold in Hdir, Hev. split; [exact Hdir|].
    intros Hsome. apply elem_of_app. left. by apply Hev.
Qed.

(** ** Levels *)

(** X1.  The name [getLogLevelString] gives a level is read back by
    [getLogLevelInt] as that level when the level is one of the four the
    package defines; every other number is named ["INFO"], and so read
    back as [LOG_LEVEL_INFO]. *)
Theorem level_of_its_name (level : Z) :
  getLogLevelInt (getLogLevelString level) =
  if decide (LOG_LEVEL_DEBUG ≤ level ≤ LOG_LEVEL_ERROR) then level
  else LOG_LEVEL_INFO.
Proof.
  unfold getLogLevelString, getLogLevelInt, LOG_LEVEL_DEBUG, LOG_LEVEL_INFO,
    LOG_LEVEL_WARN, LOG_LEVEL_ERROR.
  repeat case_decide; try done; lia.
Qed.

(** X2.  Every string has a level, between [LOG_LEVEL_DEBUG] and
    [LOG_LEVEL_ERROR]; the name of that level is the string itself for the
    four names the package knows, written in capitals, and ["INFO"] for
    every other string. *)
Theorem name_of_its_level (name : string) :
  LOG_LEVEL_DEBUG ≤ getLogLevelInt name ≤ LOG_LEVEL_ERROR ∧
  getLogLevelString (getLogLevelInt name) =
  if decide (name ∈ ["DEBUG"; "INFO"; "WARN"; "ERROR"]) then name else "INFO".
Proof.
  unfold getLogLevelString, getLogLevelInt, LOG_LEVEL_DEBUG, LOG_LEVEL_INFO,
    LOG_LEVEL_WARN, LOG_LEVEL_ERROR.
  split; [repeat case_decide; lia|].
  destruct (decide (name = "DEBUG")) as [->|?]; [by vm_compute|].
  destruct (decide (name = "INFO")) as [->|?]; [by vm_compute|].
  destruct (decide (name = "WARN")) as [->|?]; [by vm_compute|].
  destruct (decide (name = "ERROR")) as [->|?]; [by vm_compute|].
  destruct (decide (name ∈ _)) as [Hin|?]; [|done].
  rewrite !elem_of_cons, elem_of_nil in Hin. tauto.
Qed.

(** ** The file name in the header *)

Lemma append_nil_l s : "" +:+ s = s.
Proof. done. Qed.
Lemma append_cons c a s : String c a +:+ s = String c (a +:+ s).
Proof. done. Qed.

Lemma HasPrefix_char s c :
  HasPrefix s (String c "") =
  match s with String d _ => bool_decide (c = d) | EmptyString => false end.
Proof.
  destruct s as [|d s]; simpl; [done|].
  case_decide; [by rewrite bool_decide_true|by rewrite bool_decide_false].
Qed.

(** [LastIndex] for a separator of one byte. *)
Lemma LastIndex_char_none s c :
  c ∉ String.list_ascii_of_string s → LastIndex s (String c "") = -1.
Proof.
  induction s as [|d s IH]; [done|].
  cbn [String.list_ascii_of_string]. rewrite not_elem_of_cons.
  intros [Hd Hs]. cbn [LastIndex]. rewrite IH by done. cbv zeta.
  rewrite decide_False by lia. rewrite HasPrefix_char.
  by rewrite bool_decide_false.
Qed.

Lemma LastIndex_char_some s c :
  c ∈ String.list_ascii_of_string s → LastIndex s (String c "") >= 0.
Proof.
  induction s as [|d s IH]; cbn [String.list_ascii_of_string].
  { by intros ?%elem_of_nil. }
  rewrite elem_of_cons. intros Hin. cbn [LastIndex]. cbv zeta.
  case_decide as Hi; [lia|]. rewrite HasPrefix_char.
  destruct Hin as [->|Hin]; [by rewrite bool_decide_true|].
  by apply IH in Hin.
Qed.

Lemma LastIndex_char_last a b c :
  c ∉ String.list_ascii_of_string b →
  LastIndex (a +:+ String c b) (String c "") = Z.of_nat (String.length a).
Proof.
  intros Hb. induction a as [|d a IH].
  - rewrite append_nil_l. cbn [LastIndex].
    rewrite LastIndex_char_none by done. cbv zeta.
    rewrite decide_False by lia. rewrite HasPrefix_char.
    by rewrite bool_decide_true.
  - rewrite append_cons. cbn [LastIndex String.length]. rewrite IH. cbv zeta.
    rewrite decide_True by lia. lia.
Qed.

Lemma LastIndex_char_split s c :
  LastIndex s (String c "") >= 0 →
  ∃ a b, s = a +:+ String c b ∧ c ∉ String.list_ascii_of_string b ∧
         LastIndex s (String c "") = Z.of_nat (String.length a).
Proof.
  induction s as [|d s IH]; [done|].
  cbn [LastIndex]. cbv zeta. case_decide as Hi.
  - intros _. destruct (IH Hi) as (a & b & -> & Hb & Hl).
    exists (String d a), b. split; [done|]. split; [done|].
    rewrite Hl. cbn [String.length]. lia.
  - rewrite HasPrefix_char. case_bool_decide as Hc; [|done]. subst d.
    intros _. exists "", s. split; [done|]. split; [|done].
    intros Hin. apply Hi. by apply LastIndex_char_some.
Qed.

Lemma slice_from_after a c b :
  slice_from (a +:+ String c b) (S (String.length a)) = b.
Proof. induction a as [|d a IH]; [by destruct b|done]. Qed.

Lemma caller_position_split dir base line :
  "/"%char ∉ String.list_ascii_of_string base →
  caller_position (Some (dir +:+ "/" +:+ base, line)) = (base, line).
Proof.
  intros Hb. unfold caller_position.
  change (dir +:+ "/" +:+ base) with (dir +:+ String "/" base).
  rewrite LastIndex_char_last by done. cbv zeta.
  rewrite decide_True by lia.
  replace (Z.to_nat (Z.of_nat (String.length dir) + 1))
    with (S (String.length dir)) by lia.
  by rewrite slice_from_after.
Qed.

(** X3.  The file name [getHeader] prints holds no slash: it is the file
    name [runtime.Caller] gave when that holds no slash, and what follows
    its last slash otherwise.  The line is the caller's. *)
Theorem caller_position_base_name file line :
  ∃ base,
    caller_position (Some (file, line)) = (base, line) ∧
    "/"%char ∉ String.list_ascii_of_string base ∧
    (file = base ∨ ∃ dir, file = dir +:+ "/" +:+ base).
Proof.
  destruct (decide (LastIndex file "/" >= 0)) as [Hi|Hi].
  - destruct (LastIndex_char_split _ _ Hi) as (a & b & -> & Hb & _).
    exists b. split; [by apply caller_position_split|]. split; [done|].
    right. by exists a.
  - exists file. unfold caller_position. cbv zeta. rewrite decide_False by done.
    split; [done|]. split; [|by left].
    intros Hin. apply Hi. by apply LastIndex_char_some.
Qed.

(** X4.  For the path [dir/base] of a caller, where [base] holds no
    slash, [getHeader] prints [base]; a file name without a slash is
    printed as it is. *)
Theorem caller_position_of_path dir base line :
  "/"%char ∉ String.list_ascii_of_string base →
  caller_position (Some (dir +:+ "/" +:+ base, line)) = (base, line) ∧
  caller_position (Some (base, line)) = (base, line).
Proof.
  intros Hb. split; [by apply caller_position_split|].
  unfold caller_position. cbv zeta.
  rewrite (LastIndex_char_none base "/"%char) by done.
  by rewrite decide_False by lia.
Qed.

Lemma caller_position_of_path_witness :
  "/"%char ∉ String.list_ascii_of_string "main.go" ∧
  caller_position (Some ("/home/go/src/app/main.go", 42)) = ("main.go", 42).
Proof.
  assert ("/"%char ∉ String.list_ascii_of_string "main.go") as H
    by (vm_compute; set_solver).
  split; [exact H|].
  exact (proj1 (caller_position_of_path "/home/go/src/app" "main.go" 42 H)).
Defined.

(** ** Nil pointers *)







(** ** Files only grow *)

Lemma grows_refl w : grows w w.
Proof. by intros ino. Qed.

Lemma grows_trans w1 w2 w3 : grows w1 w2 → grows w2 w3 → grows w1 w3.
Proof. intros H1 H2 ino. etrans; [apply H1|apply H2]. Qed.

Lemma grows_same w w1 : os_inodes w1 = os_inodes w → grows w w1.
Proof. intros H ino. unfold content. by rewrite H. Qed.

Lemma prefix_alter_app (l : list (list byte)) i j p :
  default [] (l !! j) `prefix_of`
  default [] (alter (λ c : list byte, c ++ p) i l !! j).
Proof.
  destruct (decide (j = i)) as [->|Hj].
  - rewrite list_lookup_alter_eq. destruct (l !! i); cbn.
    + by exists p.
    + done.
  - by rewrite list_lookup_alter_ne.
Qed.

Lemma file_Write_grows f p w r w1 : file_Write f p w = (r, w1) → grows w w1.
Proof.
  unfold file_Write. intros H.
  destruct (os_files w !! f) as [[ino [|]]|]; simplify_eq; try apply grows_refl.
  destruct (next_fault w) as [ft w0] eqn:Hft.
  apply next_fault_spec in Hft as (fs & -> & _).
  destruct ft as [|c k]; simplify_eq; intros j; apply prefix_alter_app.
Qed.

Lemma bufio_Flush_grows b w r w1 : bufio_Flush b w = (r, w1) → grows w w1.
Proof.
  unfold bufio_Flush. intros H.
  destruct (bw_err b); simplify_eq; [apply grows_refl|].
  destruct (bw_buf b); simplify_eq; [apply grows_refl|].
  destruct (file_Write _ _ w) as [[n err] w2] eqn:HW.
  apply file_Write_grows in HW. by repeat case_match; simplify_eq.
Qed.

Lemma bufio_Write_loop_grows fuel b p nn w r w1 :
  bufio_Write_loop fuel b p nn w = (r, w1) → grows w w1.
Proof.
  revert b p nn w. induction fuel as [|fuel IH]; intros b p nn w.
  { unfold bufio_Write_loop. intros H.
    by repeat case_match; simplify_eq; apply grows_refl. }
  rewrite bufio_Write_loop_S. case_decide.
  - destruct (bw_buf b).
    + destruct (file_Write _ _ w) as [[n err] w2] eqn:HW.
      intros ?%IH. eapply grows_trans; [by eapply file_Write_grows|done].
    + cbv zeta. destruct (bufio_Flush _ w) as [[r2 b2] w2] eqn:HF.
      intros ?%IH. eapply grows_trans; [by eapply bufio_Flush_grows|done].
  - intros Hr. by repeat case_match; simplify_eq; apply grows_refl.
Qed.

Lemma rename_loop_grows date n efh w r efh1 w1 :
  rename_loop date n efh w = Done r efh1 w1 → grows w w1.
Proof. intros (_ & H & _)%rename_loop_spec. by apply grows_same. Qed.

Lemma open_if_needed_grows date efh w r efh1 w1 :
  open_if_needed date efh w = Done r efh1 w1 → grows w w1.
Proof.
  destruct efh as [p f b s d n]. rewrite open_if_needed_eq.
  destruct f; [intros [= <- <- <-]; apply grows_refl|].
  destruct (os_OpenFile _ w) as [r2 w2] eqn:HO.
  apply os_OpenFile_ext in HO as [_ HO]. intros Hr.
  assert (w1 = w2) as -> by (by destruct r2; simplify_eq).
  destruct r2 as [f2|e]; [|apply grows_same, HO].
  destruct HO as (_ & ino & _ & _ & [(_ & _ & Hi)|(_ & _ & _ & Hi)]).
  - by apply grows_same.
  - intros j. unfold content. rewrite Hi. by rewrite content_app_nil.
Qed.

Lemma file_Close_grows f w r w1 : file_Close f w = (r, w1) → grows w w1.
Proof. intros (_ & H & _)%file_Close_ext. by apply grows_same. Qed.

Lemma date_rollover_grows date efh w r efh1 w1 :
  date_rollover date efh w = Done r efh1 w1 → grows w w1.
Proof.
  destruct efh as [p f b s d n]. rewrite date_rollover_eq.
  case_decide; [|intros [= <- <- <-]; apply grows_refl].
  destruct f; [|intros [= <- <- <-]; apply grows_refl].
  destruct b as [b|]; [|done].
  destruct (bufio_Flush b w) as [[r1 b1] w2] eqn:HF.
  destruct (file_Close _ w2) as [r3 w3] eqn:HC. intros Hr.
  assert (w1 = w3) as -> by (by destruct r3; simplify_eq).
  eapply grows_trans; [by eapply bufio_Flush_grows|by eapply file_Close_grows].
Qed.

Lemma size_rollover_grows T N date efh w r efh1 w1 :
  size_rollover T N date efh w = Done r efh1 w1 → grows w w1.
Proof.
  destruct efh as [p f b s d n]. rewrite size_rollover_eq.
  case_decide; [|intros [= <- <- <-]; apply grows_refl].
  destruct b as [b|]; [|done].
  destruct (bufio_Flush b w) as [[r1 b1] w2] eqn:HF.
  apply bufio_Flush_grows in HF.
  destruct (file_Close _ w2) as [r3 w3] eqn:HC. apply file_Close_grows in HC.
  assert (grows w w3) as H3 by (by eapply grows_trans).
  destruct r3 as [e|]; [by intros [= <- <- <-]|].
  cbv zeta. destruct (os_Stat _ w3) as [r4 w4] eqn:HS.
  apply os_Stat_ext in HS as (_ & _ & HS & _). apply grows_same in HS.
  assert (grows w w4) as H4 by (by eapply grows_trans).
  destruct (match r4 with None => _ | _ => _ end).
  - destruct (os_Remove _ w4) as [r5 w5] eqn:HR.
    apply os_Remove_ext in HR as (_ & HR & _). apply grows_same in HR.
    assert (grows w w5) as H5 by (by eapply grows_trans).
    destruct r5 as [e|]; [by intros [= <- <- <-]|].
    intros ?%rename_loop_grows. by eapply grows_trans.
  - intros ?%rename_loop_grows. by eapply grows_trans.
Qed.

Lemma rotateFile_grows T N date efh w r efh1 w1 :
  rotateFile T N date efh w = Done r efh1 w1 → grows w w1.
Proof.
  rewrite rotateFile_eq.
  destruct (date_rollover date efh w) as [[e|] efh2 w2|] eqn:HD; [| |done];
    apply date_rollover_grows in HD; [by intros [= <- <- <-]|].
  destruct (size_rollover T N date efh2 w2) as [[e|] efh3 w3|] eqn:HS;
    [| |done]; apply size_rollover_grows in HS.
  - intros [= <- <- <-]. by eapply grows_trans.
  - intros ?%open_if_needed_grows. eapply grows_trans; [done|].
    by eapply grows_trans.
Qed.

Lemma Write_grows T N date data efh w a efh1 w1 :
  Write T N date data efh w = Done a efh1 w1 → grows w w1.
Proof.
  rewrite Write_eq.
  destruct (rotateFile T N date efh w) as [[e|] efh2 w2|] eqn:HR; [| |done];
    apply rotateFile_grows in HR.
  - intros [= <- <- <-]. eapply grows_trans; [done|]. by apply grows_same.
  - destruct (buffer efh2) as [b|]; [|done].
    destruct (bufio_Write b data w2) as [[[k err] b1] w3] eqn:HW.
    apply bufio_Write_loop_grows in HW. intros [= <- <- <-].
    by eapply grows_trans.
Qed.

Lemma Flush_grows efh w efh1 w1 :
  Flush efh w = Done () efh1 w1 → grows w w1.
Proof.
  unfold Flush, bind, get_efh, buffer_Flush, ret.
  destruct (file efh); [|intros [= <- <-]; apply grows_refl].
  destruct (buffer efh) as [b|]; [|done].
  destruct (bufio_Flush b w) as [[r b1] w2] eqn:HF.
  apply bufio_Flush_grows in HF. by intros [= <- <-].
Qed.

(** X6.  The handler only appends to the files it keeps.  Whatever a run of
    writes and flushes does, and whichever system calls fail, every file
    that has a name in the directory afterwards, under whatever name it
    has by then, holds what it held before the run (nothing, for a file
    that the run created), followed by what was added.  The oldest backup
    of a rotation has no name afterwards, and nothing is said of it. *)
Theorem files_only_grow T N ops efh w efh1 w1 name ino :
  run T N ops efh w = Done () efh1 w1 →
  os_dir w1 !! name = Some ino →
  ∃ more, content w1 ino = content w ino ++ more.
Proof.
  intros Hrun _. cut (grows w w1); [intros H; apply H|].
  revert efh w Hrun. induction ops as [|[date data|] ops IH]; intros efh w.
  - intros [= <- <-]. apply grows_refl.
  - cbn [run]. unfold bind.
    destruct (Write T N date data efh w) as [a efh2 w2|] eqn:HW; [|done].
    intros ?%IH. eapply grows_trans; [by eapply Write_grows|done].
  - cbn [run]. unfold bind.
    destruct (Flush efh w) as [[] efh2 w2|] eqn:HF; [|done].
    intros ?%IH. eapply grows_trans; [by eapply Flush_grows|done].
Qed.

(** ** The names a handler leaves alone *)

Lemma chainName_in_chain dir prog D N i :
  (i < Z.to_nat N)%nat → chainName dir prog D i ∈ chain_names dir prog D N.
Proof.
  intros Hi. unfold chain_names. apply list_elem_of_fmap. exists i.
  split; [done|]. apply elem_of_seq. lia.
Qed.

Lemma ev_apply_other dir prog D N ev s name :
  2 ≤ N → ev_named dir prog D N ev → name ∉ chain_names dir prog D N →
  (ev_apply s ev).1 !! name = s.1 !! name.
Proof.
  intros HN Hev Hname. destruct ev as [| |n [e|]|old new [e|]|n [e|]]; try done.
  - (* remove *)
    cbn in *. subst n. apply lookup_delete_ne. intros <-. apply Hname.
    replace (N - 1) with (Z.of_nat (Z.to_nat (N - 2)) + 1) by lia.
    rewrite chainName_S. apply chainName_in_chain. lia.
  - (* rename *)
    cbn in *. destruct Hev as (i & Hi & -> & ->). unfold rename_dir.
    destruct (s.1 !! chainName dir prog D i); [|done].
    rewrite lookup_insert_ne, lookup_delete_ne; [done| |].
    + intros <-. apply Hname, chainName_in_chain. lia.
    + intros <-. apply Hname. rewrite chainName_S.
      apply chainName_in_chain. lia.
  - (* open *)
    cbn in *. subst n. destruct (s.1 !! liveName dir prog D); [done|].
    cbn. apply lookup_insert_ne. intros <-. apply Hname.
    apply (chainName_in_chain dir prog D N 0). lia.
Qed.

Lemma foldl_ev_apply_other dir prog D N evs s name :
  2 ≤ N → Forall (ev_named dir prog D N) evs →
  name ∉ chain_names dir prog D N →
  (foldl ev_apply s evs).1 !! name = s.1 !! name.
Proof.
  intros HN Hevs Hname. revert s.
  induction Hevs as [|ev evs Hev _ IH]; intros s; [done|].
  cbn [foldl]. rewrite IH. by eapply ev_apply_other.
Qed.

Lemma foldl_ev_apply_writes evs s :
  Forall is_write evs → foldl ev_apply s evs = s.
Proof.
  intros Hevs. revert s. induction Hevs as [|ev evs Hev _ IH]; intros s; [done|].
  cbn [foldl]. rewrite IH. destruct ev; try done. by destruct s.
Qed.

Lemma sys_ext_other dir prog D N w evs w1 name :
  2 ≤ N → sys_ext w evs w1 → Forall (ev_named dir prog D N) evs →
  name ∉ chain_names dir prog D N →
  os_dir w1 !! name = os_dir w !! name.
Proof.
  intros HN Hx Hevs Hname.
  change (os_dir w1) with (os_dir w1, length (os_inodes w1)).1.
  rewrite (ext_steps _ _ _ Hx).
  by rewrite (foldl_ev_apply_other dir prog D N).
Qed.

(** X7.  A handler touches no name but those of the chains of the days
    it writes on.  A name that is not one of the names of index [0] to
    [N - 1] of a day written on stands, after any run of writes and
    flushes, for the file it stood for before, or for none as before,
    whichever system calls fail. *)
Theorem other_names_untouched T N ops efh w efh1 w1 name :
  2 ≤ N →
  (∀ date data, OpWrite date data ∈ ops →
     name ∉ chain_names (path efh) (os_Args0 w) date N) →
  run T N ops efh w = Done () efh1 w1 →
  os_dir w1 !! name = os_dir w !! name.
Proof.
  intros HN. revert efh w.
  induction ops as [|[date data|] ops IH]; intros efh w Hname.
  - by intros [= <- <-].
  - cbn [run]. unfold bind.
    destruct (Write T N date data efh w) as [a efh2 w2|] eqn:HW; [|done].
    apply Write_ext in HW as (Hp & _ & evs & Hx & Hn).
    intros Hrun. apply IH in Hrun.
    + rewrite Hrun. eapply sys_ext_other; [done..|].
      eapply Hname. by left.
    + intros date' data' Hin. rewrite Hp, (ext_Args0 _ _ _ Hx).
      eapply Hname. by right.
  - cbn [run]. unfold bind.
    destruct (Flush efh w) as [[] efh2 w2|] eqn:HF; [|done].
    apply Flush_ext in HF as (Hp & _ & evs & Hx & Hn).
    intros Hrun. apply IH in Hrun.
    + rewrite Hrun.
      change (os_dir w2) with (os_dir w2, length (os_inodes w2)).1.
      by rewrite (ext_steps _ _ _ Hx), foldl_ev_apply_writes.
    + intros date' data' Hin. rewrite Hp, (ext_Args0 _ _ _ Hx).
      eapply Hname. by right.
Qed.

(** ** What is buffered, and what a buffer in error does *)

(** X8.  A write on the day of the open file, within the size limit,
    whose payload fits the room left in the buffer, makes no system call:
    the payload goes to the end of the buffer, the counter grows by its
    length, and the state of the operating system, the file included, is
    what it was, whatever the environment holds in store. *)
Theorem Write_that_fits_is_buffered T N date data p f b s n w :
  n ≤ T → bw_err b = None → (length data ≤ Available b)%nat →
  Write T N date data (mk_efh p (Some f) (Some b) s date n) w =
  Done (length data, None)
    (mk_efh p (Some f)
       (Some (mk_bw (bw_wr b) (bw_size b) (bw_buf b ++ data) None)) s date
       (int_add n (Z.of_nat (length data))))
    w.
Proof.
  intros Hn He Hfit.
  rewrite Write_eq, rotateFile_eq, date_rollover_eq, decide_False
    by (by intros []).
  rewrite size_rollover_eq, decide_False, open_if_needed_eq by lia.
  cbn [buffer path file bufferSize currentDate nbytes].
  unfold bufio_Write. rewrite bufio_Write_loop_exit by lia.
  by rewrite He.
Qed.

(** X9.  Once the buffered writer has recorded an error, a write on the
    day of the open file, within the size limit, returns no byte and that
    error, makes no system call and prints nothing on the standard error
    stream; the counter grows by the payload's length all the same.
    [Flush] then does nothing. *)
Theorem failed_buffer_drops_writes T N date data p f b s n w e :
  n ≤ T → bw_err b = Some e →
  Write T N date data (mk_efh p (Some f) (Some b) s date n) w =
    Done (0%nat, Some e)
      (mk_efh p (Some f) (Some b) s date (int_add n (Z.of_nat (length data))))
      w ∧
  Flush (mk_efh p (Some f) (Some b) s date n) w =
    Done () (mk_efh p (Some f) (Some b) s date n) w.
Proof.
  intros Hn He. split.
  - rewrite Write_eq, rotateFile_eq, date_rollover_eq, decide_False
      by (by intros []).
    rewrite size_rollover_eq, decide_False, open_if_needed_eq by lia.
    cbn [buffer path file bufferSize currentDate nbytes].
    unfold bufio_Write.
    rewrite bufio_Write_loop_exit by (rewrite He; by intros [_ ?]).
    by rewrite He.
  - unfold Flush, bind, get_efh, buffer_Flush, ret. cbn.
    by rewrite bufio_Flush_noop by (left; by rewrite He).
Qed.

(** ** A handler without a file, over the limit *)

Lemma set_stderr_twice s1 s2 w : set_stderr s2 (set_stderr s1 w) = set_stderr s2 w.
Proof. done. Qed.

Lemma Write_stuck T N date data p b s d n w :
  n > T → bw_err b ≠ None ∨ bw_buf b = [] →
  Write T N date data (mk_efh p None (Some b) s d n) w =
  Done (0%nat, Some ErrInvalid) (mk_efh p None (Some b) s date n)
    (Stderr_WriteString (Error ErrInvalid +:+ newline) w).
Proof.
  intros Hn Hb. by rewrite Write_eq, over_limit_without_file_stays.
Qed.

(** X10.  A handler without a file whose counter is over the limit, its
    buffer flushed or in error, stays so for ever: this is the state a
    size rotation leaves when a remove, a rename or the open fails.  Every
    write, on any day, returns no byte and the error [ErrInvalid] of
    closing a nil file; and a run of writes and flushes changes nothing but
    the date of the handler and the standard error stream, which gets one
    line for each write. *)
Theorem handler_over_limit_without_file_is_stuck T N ops p b s d n w :
  n > T → bw_err b ≠ None ∨ bw_buf b = [] →
  (∀ date data,
     Write T N date data (mk_efh p None (Some b) s d n) w =
     Done (0%nat, Some ErrInvalid) (mk_efh p None (Some b) s date n)
       (Stderr_WriteString (Error ErrInvalid +:+ newline) w)) ∧
  ∃ d1,
    run T N ops (mk_efh p None (Some b) s d n) w =
    Done () (mk_efh p None (Some b) s d1 n)
      (set_stderr
         (os_stderr w ++
          replicate (count_writes ops) (Error ErrInvalid +:+ newline)) w).
Proof.
  intros Hn Hb. split; [intros; by apply Write_stuck|].
  revert d w. induction ops as [|[date data|] ops IH]; intros d w.
  - exists d. cbn. rewrite app_nil_r. by destruct w.
  - cbn [run count_writes]. unfold bind. rewrite Write_stuck by done.
    destruct (IH date (Stderr_WriteString (Error ErrInvalid +:+ newline) w))
      as (d1 & ->).
    exists d1. unfold Stderr_WriteString. rewrite set_stderr_twice. cbn.
    by rewrite <-app_assoc.
  - cbn [run count_writes]. unfold bind. cbn. apply IH.
Qed.

(** ** Writes and flushes that go through *)

Lemma int_add_small a b :
  - 2 ^ 63 ≤ a + b < 2 ^ 63 → int_add a b = a + b.
Proof.
  intros H. unfold int_add, int_wrap.
  rewrite Z.mod_small by lia. lia.
Qed.

Lemma Flush_holds efh w ino c :
  holds efh w ino c →
  ∃ efh1 w1,
    Flush efh w = Done () efh1 w1 ∧ content w1 ino = c ∧
    holds efh1 w1 ino c ∧
    path efh1 = path efh ∧ bufferSize efh1 = bufferSize efh ∧
    currentDate efh1 = currentDate efh ∧ nbytes efh1 = nbytes efh ∧
    os_dir w1 = os_dir w ∧ os_Args0 w1 = os_Args0 w ∧
    length (os_inodes w1) = length (os_inodes w) ∧
    (∀ j, j ≠ ino → content w1 j = content w j).
Proof.
  destruct efh as [p f0 b0 s d n].
  intros (f & b & [= ->] & [= ->] & Hwr & He & Hf & Hi & Hnf & Hc).
  cbn in *. unfold Flush, bind, get_efh, buffer_Flush, ret. cbn.
  rewrite (bufio_Flush_nf _ _ ino) by (by rewrite ?Hwr). cbn.
  do 2 eexists. split; [done|].
  set (w1 := match bw_buf b with [] => w | _ => _ end).
  assert (os_files w1 = os_files w ∧ os_faults w1 = [] ∧
          os_dir w1 = os_dir w ∧ os_Args0 w1 = os_Args0 w ∧
          length (os_inodes w1) = length (os_inodes w) ∧
          content w1 ino = c ∧ ∀ j, j ≠ ino → content w1 j = content w j)
    as (Hf1 & Hnf1 & Hd1 & HA1 & Hl1 & Hc1 & Ho1).
  { subst w1. unfold content in *. destruct (bw_buf b) as [|x l] eqn:Hb.
    - rewrite app_nil_r in Hc. done.
    - cbn. rewrite length_alter, content_alter by done.
      do 6 (split; [done|]). intros j Hj. by rewrite list_lookup_alter_ne. }
  clearbody w1. split; [done|]. split.
  { exists f, (mk_bw (bw_wr b) (bw_size b) [] None). cbn.
    do 4 (split; [done|]). split; [by rewrite Hf1|]. split; [lia|].
    split; [done|]. by rewrite app_nil_r. }
  done.
Qed.

Lemma run_app T N ops1 ops2 efh w :
  run T N (ops1 ++ ops2) efh w =
  match run T N ops1 efh w with
  | Done _ efh1 w1 => run T N ops2 efh1 w1
  | Panic => Panic
  end.
Proof.
  revert efh w. induction ops1 as [|[date data|] ops1 IH]; intros efh w.
  - done.
  - cbn [app run]. unfold bind.
    destruct (Write T N date data efh w) as [a efh1 w1|]; [apply IH|done].
  - cbn [app run]. unfold bind.
    destruct (Flush efh w) as [a efh1 w1|]; [apply IH|done].
Qed.

Lemma run_writes_hold T N date datas efh w ino c :
  holds efh w ino c → currentDate efh = date →
  0 ≤ nbytes efh → nbytes efh + Z.of_nat (length (concat datas)) ≤ T →
  T < 2 ^ 63 →
  ∃ efh1 w1,
    run T N (OpWrite date <$> datas) efh w = Done () efh1 w1 ∧
    holds efh1 w1 ino (c ++ concat datas) ∧
    path efh1 = path efh ∧ bufferSize efh1 = bufferSize efh ∧
    currentDate efh1 = date ∧
    nbytes efh1 = nbytes efh + Z.of_nat (length (concat datas)) ∧
    os_dir w1 = os_dir w ∧ os_Args0 w1 = os_Args0 w ∧
    length (os_inodes w1) = length (os_inodes w) ∧
    (∀ j, j ≠ ino → content w1 j = content w j).
Proof.
  intros Hh Hd Hn0 Hn HT. revert efh w c Hh Hd Hn0 Hn.
  induction datas as [|data datas IH]; intros efh w c Hh Hd Hn0 Hn.
  { exists efh, w. cbn. rewrite app_nil_r. split; [done|].
    split; [done|]. do 3 (split; [done|]). split; [lia|done]. }
  cbn [fmap list_fmap run concat] in *. unfold bind.
  rewrite length_app in Hn.
  destruct (Write_appends T N date data efh w ino c Hh Hd)
    as (efh1 & w1 & -> & Hh1 & Hp1 & Hs1 & Hd1 & Hn1 & Hdir1 & HA1 & Hl1 & Ho1);
    [lia|].
  rewrite int_add_small in Hn1 by lia.
  destruct (IH efh1 w1 (c ++ data)) as
    (efh2 & w2 & -> & Hh2 & Hp2 & Hs2 & Hd2 & Hn2 & Hdir2 & HA2 & Hl2 & Ho2);
    [done|done|lia|lia|].
  exists efh2, w2. split; [done|]. split; [by rewrite app_assoc|].
  do 3 (split; [congruence|]). split; [rewrite length_app; lia|].
  do 3 (split; [congruence|]).
  intros j Hj. by rewrite Ho2, Ho1.
Qed.

(** X11.  Writes on the day of the open file that keep the counter
    within the size limit, followed by a flush, with no system call
    failing: the file then holds what the file and the buffer held,
    followed by the payloads in the order written; the buffer is empty; the
    counter has grown by the total length; and no name and no other file
    has changed. *)
Theorem written_and_flushed T N date datas efh w ino c :
  holds efh w ino c → currentDate efh = date →
  0 ≤ nbytes efh → nbytes efh + Z.of_nat (length (concat datas)) ≤ T →
  T < 2 ^ 63 →
  ∃ efh1 w1,
    run T N ((OpWrite date <$> datas) ++ [OpFlush]) efh w = Done () efh1 w1 ∧
    content w1 ino = c ++ concat datas ∧
    holds efh1 w1 ino (c ++ concat datas) ∧
    nbytes efh1 = nbytes efh + Z.of_nat (length (concat datas)) ∧
    os_dir w1 = os_dir w ∧
    (∀ j, j ≠ ino → content w1 j = content w j).
Proof.
  intros Hh Hd Hn0 Hn HT.
  destruct (run_writes_hold T N date datas efh w ino c) as
    (efh1 & w1 & Hrun & Hh1 & Hp1 & Hs1 & Hd1 & Hn1 & Hdir1 & HA1 & Hl1 & Ho1);
    [done..|].
  destruct (Flush_holds efh1 w1 ino _ Hh1) as
    (efh2 & w2 & HF & Hc2 & Hh2 & Hp2 & Hs2 & Hd2 & Hn2 & Hdir2 & HA2 & Hl2 & Ho2).
  exists efh2, w2. rewrite run_app, Hrun. cbn [run]. unfold bind. rewrite HF.
  split; [done|]. split; [done|]. split; [done|].
  split; [congruence|]. split; [congruence|].
  intros j Hj. by rewrite Ho2, Ho1.
Qed.

(** ** The first write of a day, and of a process *)

Lemma rotateFile_new_day T N date efh w ino c :
  holds efh w ino c → currentDate efh ≠ date → nbytes efh ≤ T →
  os_dir w !! liveName (path efh) (os_Args0 w) date = None →
  ∃ efh0 w0 f,
    rotateFile T N date efh w = Done None efh0 w0 ∧
    file efh = Some f ∧ os_files w0 !! f = Some (ino, true) ∧
    holds efh0 w0 (length (os_inodes w)) [] ∧
    path efh0 = path efh ∧ bufferSize efh0 = bufferSize efh ∧
    currentDate efh0 = date ∧ nbytes efh0 = 0 ∧
    os_dir w0 =
      <[liveName (path efh) (os_Args0 w) date := length (os_inodes w)]>
        (os_dir w) ∧
    os_Args0 w0 = os_Args0 w ∧
    length (os_inodes w0) = S (length (os_inodes w)) ∧
    content w0 ino = c ∧ (∀ j, j ≠ ino → content w0 j = content w j).
Proof.
  destruct efh as [p f0 b0 s d n]. unfold holds. cbn.
  intros (f & b & -> & -> & Hwr & He & Hf & Hi & Hnf & Hc) Hd Hn Hfree.
  rewrite rotateFile_eq, date_rollover_eq, decide_True by done.
  rewrite (bufio_Flush_nf _ _ ino) by (by rewrite ?Hwr).
  set (w1 := match bw_buf b with [] => w | _ => _ end).
  assert (os_files w1 = os_files w ∧ os_faults w1 = [] ∧
          os_dir w1 = os_dir w ∧ os_Args0 w1 = os_Args0 w ∧
          length (os_inodes w1) = length (os_inodes w) ∧
          content w1 ino = c ∧ ∀ j, j ≠ ino → content w1 j = content w j)
    as (Hf1 & Hnf1 & Hd1 & HA1 & Hl1 & Hc1 & Ho1).
  { subst w1. unfold content in *. destruct (bw_buf b) as [|x l] eqn:Hb.
    - rewrite app_nil_r in Hc. done.
    - cbn. rewrite length_alter, content_alter by done.
      do 6 (split; [done|]). intros j Hj. by rewrite list_lookup_alter_ne. }
  clearbody w1.
  rewrite (file_Close_nf _ _ ino) by (by rewrite ?Hf1).
  rewrite size_rollover_eq, decide_False, open_if_needed_eq by lia.
  cbn [os_Args0 log_event set_files].
  rewrite os_OpenFile_nf_new by (by cbn; rewrite ?HA1, ?Hd1).
  set (w0 := log_event (EvOpen _ None) _).
  assert (os_files w0 =
            <[f := (ino, true)]> (os_files w) ++ [(length (os_inodes w), false)])
    as Hf0 by (subst w0; cbn; by rewrite Hf1, Hl1).
  assert (os_inodes w0 = os_inodes w1 ++ [[]]) as Hi0 by done.
  assert (os_dir w0 =
            <[liveName p (os_Args0 w) date := length (os_inodes w)]> (os_dir w))
    as Hd0 by (subst w0; cbn; by rewrite HA1, Hl1, Hd1).
  assert (os_faults w0 = []) as Hnf0 by done.
  assert (os_Args0 w0 = os_Args0 w) as HA0 by done.
  clearbody w0. cbn [set_files os_files log_event]. rewrite length_insert, Hf1.
  assert (f < length (os_files w))%nat as Hlt by (by eapply lookup_lt_Some).
  do 2 eexists. exists f. split; [done|]. split; [done|].
  split.
  { rewrite Hf0, lookup_app_l by (by rewrite length_insert).
    by apply list_lookup_insert_eq. }
  split.
  { do 2 eexists. do 4 (split; [done|]). cbn.
    split; [by rewrite Hf0, lookup_app_r, length_insert, Nat.sub_diag
              by (rewrite length_insert; lia)|].
    split; [rewrite Hi0, length_app; simpl; lia|]. split; [done|].
    unfold content. by rewrite Hi0, lookup_app_r, Hl1, Nat.sub_diag by lia. }
  do 4 (split; [done|]). split; [done|].
  split; [done|]. split; [rewrite Hi0, length_app; simpl; lia|].
  unfold content in *. rewrite Hi0.
  split; [by rewrite content_app_nil|].
  intros j Hj. rewrite content_app_nil. auto.
Qed.

(** X12.  The first write of a new day, the counter within the size
    limit, no system call failing, the new day's live file not there yet.
    What was buffered is in the old file, which is closed; the new day's
    live file is created and the handler holds it, the payload pending; the
    counter is the payload's length; no other name and no other file has
    changed. *)
Theorem Write_on_a_new_day T N date data efh w ino c :
  holds efh w ino c → currentDate efh ≠ date → nbytes efh ≤ T →
  os_dir w !! liveName (path efh) (os_Args0 w) date = None →
  ∃ efh1 w1 f,
    Write T N date data efh w = Done (length data, None) efh1 w1 ∧
    file efh = Some f ∧ os_files w1 !! f = Some (ino, true) ∧
    content w1 ino = c ∧
    holds efh1 w1 (length (os_inodes w)) data ∧
    currentDate efh1 = date ∧
    nbytes efh1 = int_add 0 (Z.of_nat (length data)) ∧
    os_dir w1 =
      <[liveName (path efh) (os_Args0 w) date := length (os_inodes w)]>
        (os_dir w) ∧
    (∀ j, j ≠ ino → j ≠ length (os_inodes w) → content w1 j = content w j).
Proof.
  intros Hh Hd Hn Hfree.
  destruct (rotateFile_new_day T N date efh w ino c Hh Hd Hn Hfree)
    as (efh0 & w0 & f & Hrot & Hf & Hcl & Hh0 & Hp0 & Hs0 & Hd0 & Hn0 & Hdir0 &
        HA0 & Hl0 & Hc0 & Ho0).
  assert (ino < length (os_inodes w))%nat as Hi
    by (by destruct Hh as (? & ? & ? & ? & ? & ? & ? & ? & ?)).
  rewrite Write_eq, Hrot.
  destruct efh0 as [p0 f0 b0 s0 d0 n0].
  pose proof Hh0 as (f' & b' & Hf' & Hb' & _). cbn in Hf', Hb'. subst f0 b0.
  cbn [buffer path file bufferSize currentDate nbytes] in *.
  destruct (bufio_Write_holds _ _ _ _ _ _ _ _ _ data Hh0)
    as (b1 & w1 & HW & Hh1 & Hd1 & HA1 & Hl1 & Ho1).
  pose proof HW as HW'.
  apply bufio_Write_loop_ext in HW' as (_ & Hfs & _).
  rewrite HW. do 2 eexists. exists f. split; [done|]. split; [done|].
  split; [by rewrite Hfs|].
  split; [rewrite Ho1 by lia; done|]. split; [apply Hh1|].
  split; [done|]. cbn. split; [by rewrite Hn0|]. split; [congruence|].
  intros j Hj1 Hj2. by rewrite Ho1, Ho0.
Qed.

(** X13.  A handler without a file finds the live file of the day
    there already, as after a restart of the program.  It opens that file
    and appends: the file's content is kept and the payload follows it; the
    counter starts at the payload's length, so the bytes the file held
    before do not count towards the size limit. *)
Theorem Write_reopens_the_file_of_the_day T N date data p b s d n w ino :
  os_faults w = [] → n ≤ T →
  os_dir w !! liveName p (os_Args0 w) date = Some ino →
  (ino < length (os_inodes w))%nat →
  ∃ efh1 w1,
    Write T N date data (mk_efh p None b s d n) w =
      Done (length data, None) efh1 w1 ∧
    holds efh1 w1 ino (content w ino ++ data) ∧
    currentDate efh1 = date ∧
    nbytes efh1 = int_add 0 (Z.of_nat (length data)) ∧
    os_dir w1 = os_dir w ∧
    length (os_inodes w1) = length (os_inodes w) ∧
    (∀ j, j ≠ ino → content w1 j = content w j).
Proof.
  intros Hnf Hn Hlive Hi.
  rewrite Write_eq, rotateFile_retries_open, open_if_needed_eq by done.
  rewrite (os_OpenFile_nf_old _ _ ino) by done.
  cbn [buffer path file bufferSize currentDate nbytes].
  set (w2 := log_event _ _). set (f := length (os_files w)).
  assert (holds (mk_efh p (Some f) (Some (NewWriterSize f s)) s date 0)
            w2 ino (content w ino)) as Hh.
  { exists f, (NewWriterSize f s). do 4 (split; [done|]). subst w2 f. cbn.
    split; [by rewrite lookup_app_r, Nat.sub_diag by lia|].
    split; [done|]. split; [done|]. by rewrite app_nil_r. }
  destruct (bufio_Write_holds _ _ _ _ _ _ _ _ _ data Hh)
    as (b1 & w1 & -> & Hh1 & Hd1 & HA1 & Hl1 & Ho1).
  do 2 eexists. split; [done|]. split; [apply Hh1|]. cbn.
  do 2 (split; [done|]). split; [by rewrite Hd1|]. split; [by rewrite Hl1|].
  done.
Qed.

(** ** The logger: what is not logged *)

(** X14.  Before the command line is parsed the logger of the package,
    whose depth is [LOG_DEPTH_GLOBAL], logs nothing.  As long as
    [flag.Parsed()] is false and the handler has no file, whatever is
    printed, at whatever level, and whenever the goroutine flushes: the
    logger and its handler stay as they are, no system call is made, and
    the standard error stream gets the line
    "ERROR: logging before flag.Parse" once for each [Print] and
    [Printf]. *)
Theorem logging_before_flag_Parse T N arg Sprintln Sprintf calls el w :
  depth el = LOG_DEPTH_GLOBAL → mutex el = false → file (writer el) = None →
  Forall before_Parse calls →
  Logger.run T N arg Sprintln Sprintf calls el w =
  Returned () el
    (set_stderr
       (os_stderr w ++
        replicate (count_prints calls)
          ("ERROR: logging before flag.Parse" +:+ newline)) w).
Proof.
  intros Hd Hm Hf Hcalls. revert w.
  induction Hcalls as [|[rd level args|rd level format args|] calls Hc _ IH];
    intros w.
  - cbn. rewrite app_nil_r. by destruct w.
  - cbn [Logger.run count_prints]. cbn in Hc.
    unfold lbind at 1, Logger.Print, lbind, get_el, to_stderr.
    rewrite Hc, bool_decide_true by done. cbn [andb negb].
    rewrite IH. unfold Stderr_WriteString. cbn. by rewrite <-app_assoc.
  - cbn [Logger.run count_prints]. cbn in Hc.
    unfold lbind at 1, Logger.Printf, lbind, get_el, to_stderr.
    rewrite Hc, bool_decide_true by done. cbn [andb negb].
    rewrite IH. unfold Stderr_WriteString. cbn. by rewrite <-app_assoc.
  - cbn [Logger.run count_prints].
    unfold lbind at 1, Logger.Flush, lbind, Lock, Unlock, on_writer.
    rewrite Hm. cbn [writer mutex].
    unfold Flush, bind, get_efh, ret. rewrite Hf.
    cbn [logToStderr flushTime logLevel writer depth mutex].
    replace (mk_el false (logToStderr el) (flushTime el) (logLevel el)
               (writer el) (depth el)) with el
      by (destruct el; cbn in *; by subst).
    apply IH.
Qed.

Lemma Print_dropped T N arg Sprintln rd level args el w :
  depth el ≠ LOG_DEPTH_GLOBAL ∨ rd_parsed rd = true →
  level < getLogLevelInt (logLevel el) →
  Logger.Print T N arg Sprintln rd level args el w = Returned () el w.
Proof.
  intros Hp Hl. unfold Logger.Print, lbind, get_el, lret.
  replace (bool_decide (depth el = LOG_DEPTH_GLOBAL) && negb (rd_parsed rd))
    with false; [by rewrite decide_True|].
  destruct Hp as [?| ->]; [by rewrite bool_decide_false|].
  by rewrite andb_false_r.
Qed.

Lemma Printf_dropped T N arg Sprintf rd level format args el w :
  depth el ≠ LOG_DEPTH_GLOBAL ∨ rd_parsed rd = true →
  level < getLogLevelInt (logLevel el) →
  Logger.Printf T N arg Sprintf rd level format args el w = Returned () el w.
Proof.
  intros Hp Hl. unfold Logger.Printf, lbind, get_el, lret.
  replace (bool_decide (depth el = LOG_DEPTH_GLOBAL) && negb (rd_parsed rd))
    with false; [by rewrite decide_True|].
  destruct Hp as [?| ->]; [by rewrite bool_decide_false|].
  by rewrite andb_false_r.
Qed.

Lemma getLogLevelInt_cases name :
  name = "DEBUG" ∧ getLogLevelInt name = 1 ∨
  name = "WARN" ∧ getLogLevelInt name = 3 ∨
  name = "ERROR" ∧ getLogLevelInt name = 4 ∨
  name ≠ "DEBUG" ∧ name ≠ "WARN" ∧ name ≠ "ERROR" ∧ getLogLevelInt name = 2.
Proof.
  unfold getLogLevelInt.
  destruct (decide (name = "DEBUG")) as [->|?]; [by left|].
  destruct (decide (name = "INFO")) as [->|?]; [by do 3 right|].
  destruct (decide (name = "WARN")) as [->|?]; [by right; left|].
  destruct (decide (name = "ERROR")) as [->|?]; [by do 2 right; left|].
  by do 3 right.
Qed.

(** X15.  The methods below the logger's level do nothing, and the
    level's name is matched as it is written: unless [logLevel] is
    ["DEBUG"], [Debug] and [Debugf] leave the logger and the operating
    system as they are; when [logLevel] is ["WARN"] or ["ERROR"] so do
    [Info] and [Infof]; when it is ["ERROR"] so do [Warn] and [Warnf]. *)
Theorem methods_below_the_level_are_dropped
    T N arg Sprintln Sprintf rd format args el w :
  depth el ≠ LOG_DEPTH_GLOBAL ∨ rd_parsed rd = true →
  (logLevel el ≠ "DEBUG" →
   Logger.Debug T N arg Sprintln rd args el w = Returned () el w ∧
   Logger.Debugf T N arg Sprintf rd format args el w = Returned () el w) ∧
  (logLevel el = "WARN" ∨ logLevel el = "ERROR" →
   Logger.Info T N arg Sprintln rd args el w = Returned () el w ∧
   Logger.Infof T N arg Sprintf rd format args el w = Returned () el w) ∧
  (logLevel el = "ERROR" →
   Logger.Warn T N arg Sprintln rd args el w = Returned () el w ∧
   Logger.Warnf T N arg Sprintf rd format args el w = Returned () el w).
Proof.
  intros Hp.
  unfold Logger.Debug, Logger.Debugf, Logger.Info, Logger.Infof, Logger.Warn,
    Logger.Warnf, LOG_LEVEL_DEBUG, LOG_LEVEL_INFO, LOG_LEVEL_WARN.
  pose proof (getLogLevelInt_cases (logLevel el)) as Hl.
  split; [|split]; intros Hlevel;
    (split; [apply Print_dropped|apply Printf_dropped]); try done;
    destruct Hl as [[? ->]|[[? ->]|[[? ->]|(? & ? & ? & ->)]]];
    try lia; try congruence; by destruct Hlevel; congruence.
Qed.

(** ** The logger: the line of a message *)

Lemma file_Write_stderr f p w r w1 :
  file_Write f p w = (r, w1) → os_stderr w1 = os_stderr w.
Proof.
  unfold file_Write. intros H.
  destruct (os_files w !! f) as [[ino [|]]|]; simplify_eq; try done.
  destruct (next_fault w) as [ft w0] eqn:Hft.
  apply next_fault_spec in Hft as (fs & -> & _).
  by destruct ft; simplify_eq.
Qed.

Lemma bufio_Write_loop_stderr fuel b p nn w r w1 :
  bufio_Write_loop fuel b p nn w = (r, w1) → os_stderr w1 = os_stderr w.
Proof.
  revert b p nn w. induction fuel as [|fuel IH]; intros b p nn w.
  { unfold bufio_Write_loop. intros Hr.
    by repeat case_match; simplify_eq. }
  rewrite bufio_Write_loop_S. case_decide.
  - destruct (bw_buf b).
    + destruct (file_Write _ _ w) as [[n err] w2] eqn:HW.
      intros ->%IH. by eapply file_Write_stderr.
    + cbv zeta. destruct (bufio_Flush _ w) as [[r2 b2] w2] eqn:HF.
      intros ->%IH. by apply bufio_Flush_frame in HF as (_ & ? & _).
  - intros Hr. by repeat case_match; simplify_eq.
Qed.

Lemma Write_appends_stderr T N date data efh w ino c efh1 w1 a :
  holds efh w ino c → currentDate efh = date → nbytes efh ≤ T →
  Write T N date data efh w = Done a efh1 w1 → os_stderr w1 = os_stderr w.
Proof.
  destruct efh as [p f b s d n]. cbn [currentDate nbytes].
  intros (f' & b' & Hf & Hb & _) <- Hn. cbn in Hf, Hb. subst f b.
  rewrite Write_eq, rotateFile_eq, date_rollover_eq, decide_False
    by (by intros []).
  rewrite size_rollover_eq, decide_False, open_if_needed_eq by lia.
  cbn [buffer path file bufferSize currentDate nbytes].
  destruct (bufio_Write b' data w) as [[[k err] b1] w2] eqn:HW.
  intros [= <- <- <-]. by eapply bufio_Write_loop_stderr.
Qed.

Lemma holds_stderr efh w ino c s :
  holds efh w ino c → holds efh (Stderr_WriteString s w) ino c.
Proof. done. Qed.

(** A write through the interface that goes through. *)
Lemma writer_Write_appends T N date s el w ino c :
  holds (writer el) w ino c → currentDate (writer el) = date →
  nbytes (writer el) ≤ T →
  ∃ efh1 w1,
    Logger.writer_Write T N date s el w =
      Returned (length (String.list_byte_of_string s), None)
        (mk_el (mutex el) (logToStderr el) (flushTime el) (logLevel el) efh1
           (depth el)) w1 ∧
    holds efh1 w1 ino (c ++ String.list_byte_of_string s) ∧
    currentDate efh1 = date ∧
    nbytes efh1 =
      int_add (nbytes (writer el))
        (Z.of_nat (length (String.list_byte_of_string s))) ∧
    os_stderr w1 = os_stderr w ∧ os_dir w1 = os_dir w.
Proof.
  intros Hh Hd Hn. unfold Logger.writer_Write, on_writer.
  destruct (Write_appends T N date (String.list_byte_of_string s)
              (writer el) w ino c Hh Hd Hn)
    as (efh1 & w1 & HW & Hh1 & _ & _ & Hd1 & Hn1 & Hdir1 & _).
  rewrite HW. exists efh1, w1. split; [done|]. split; [done|].
  split; [done|]. split; [done|]. split; [|done].
  by eapply Write_appends_stderr.
Qed.

(** X16.  A message at or above the logger's level, the handler holding
    the file of the day, no system call failing and the counter staying
    within the size limit: [Print] adds to what the file and the buffer
    hold the header [[LEVEL][time][file:base line:n] ] followed by the
    operands as [fmt.Sprintln] prints them; with [logToStderr] the header,
    with the time read again, and the operands are also written on the
    standard error stream; the mutex is free again, and no name has
    changed. *)
Theorem Print_writes_one_line T N arg Sprintln rd level args el w ino c :
  depth el ≠ LOG_DEPTH_GLOBAL ∨ rd_parsed rd = true →
  ¬ level < getLogLevelInt (logLevel el) →
  mutex el = false →
  holds (writer el) w ino c →
  currentDate (writer el) = rd_date1 rd → rd_date2 rd = rd_date1 rd →
  let position := caller_position (rd_caller rd) in
  let header := header_text level (rd_now rd) position.1 position.2 in
  let echo := header_text level (rd_now_stderr rd) position.1 position.2 in
  nbytes (writer el) ≤ T →
  int_add (nbytes (writer el))
    (Z.of_nat (length (String.list_byte_of_string header))) ≤ T →
  ∃ efh1 w1,
    Logger.Print T N arg Sprintln rd level args el w =
      Returned ()
        (mk_el false (logToStderr el) (flushTime el) (logLevel el) efh1
           (depth el)) w1 ∧
    holds efh1 w1 ino
      (c ++ String.list_byte_of_string header ++
       String.list_byte_of_string (Sprintln args)) ∧
    os_dir w1 = os_dir w ∧
    os_stderr w1 =
      os_stderr w ++ (if logToStderr el then [echo; Sprintln args] else []).
Proof.
  intros Hp Hl Hm Hh Hd1 Hd2. cbv zeta.
  unfold Logger.Print, lbind, get_el, lret.
  replace (bool_decide (depth el = LOG_DEPTH_GLOBAL) && negb (rd_parsed rd))
    with false.
  2:{ destruct Hp as [?| ->]; [by rewrite bool_decide_false|].
      by rewrite andb_false_r. }
  rewrite decide_False by done. unfold Lock at 1. rewrite Hm.
  unfold Logger.getHeader, lbind, get_el, lret.
  cbn [logToStderr flushTime logLevel writer depth mutex].
  destruct (caller_position (rd_caller rd)) as [file line].
  cbn [fst snd]. set (header := header_text level (rd_now rd) file line).
  set (echo := header_text level (rd_now_stderr rd) file line).
  intros Hn1 Hn2.
  destruct (writer_Write_appends T N (rd_date1 rd) header
              (mk_el true (logToStderr el) (flushTime el) (logLevel el)
                 (writer el) (depth el)) w ino c)
    as (efh1 & w1 & -> & Hh1 & Hdt1 & Hnb1 & Hse1 & Hdir1); [done..|].
  cbn [logToStderr flushTime logLevel writer depth mutex] in *.
  destruct (logToStderr el) eqn:Hts; unfold to_stderr.
  - apply (holds_stderr _ _ _ _ echo) in Hh1.
    destruct (writer_Write_appends T N (rd_date2 rd) (Sprintln args)
                (mk_el true true (flushTime el) (logLevel el) efh1 (depth el))
                (Stderr_WriteString echo w1) ino _ Hh1)
      as (efh3 & w3 & -> & Hh3 & Hdt3 & Hnb3 & Hse3 & Hdir3);
      [cbn; congruence|cbn; by rewrite Hnb1|].
    exists efh3, (Stderr_WriteString (Sprintln args) w3).
    split; [done|]. split; [by rewrite <-app_assoc in Hh3|].
    split; [cbn; by rewrite Hdir3|].
    cbn. rewrite Hse3. cbn. by rewrite Hse1, <-app_assoc.
  - destruct (writer_Write_appends T N (rd_date2 rd) (Sprintln args)
                (mk_el true false (flushTime el) (logLevel el) efh1 (depth el))
                w1 ino _ Hh1)
      as (efh3 & w3 & -> & Hh3 & Hdt3 & Hnb3 & Hse3 & Hdir3);
      [cbn; congruence|cbn; by rewrite Hnb1|].
    exists efh3, w3.
    split; [done|]. split; [by rewrite <-app_assoc in Hh3|].
    split; [congruence|].
    rewrite app_nil_r. congruence.
Qed.

(** X17.  The same for [Printf]: the line is the header, the operands
    as [fmt.Sprintf] prints them under the format, and a newline, handed to
    the handler in three writes; on the standard error stream, with
    [logToStderr], in three writes too. *)
Theorem Printf_writes_one_line
    T N arg Sprintf rd level format args el w ino c :
  depth el ≠ LOG_DEPTH_GLOBAL ∨ rd_parsed rd = true →
  ¬ level < getLogLevelInt (logLevel el) →
  mutex el = false →
  holds (writer el) w ino c →
  currentDate (writer el) = rd_date1 rd →
  rd_date2 rd = rd_date1 rd → rd_date3 rd = rd_date1 rd →
  let position := caller_position (rd_caller rd) in
  let header := header_text level (rd_now rd) position.1 position.2 in
  let echo := header_text level (rd_now_stderr rd) position.1 position.2 in
  let message := Sprintf format args in
  let n1 := int_add (nbytes (writer el))
              (Z.of_nat (length (String.list_byte_of_string header))) in
  let n2 := int_add n1
              (Z.of_nat (length (String.list_byte_of_string message))) in
  nbytes (writer el) ≤ T → n1 ≤ T → n2 ≤ T →
  ∃ efh1 w1,
    Logger.Printf T N arg Sprintf rd level format args el w =
      Returned ()
        (mk_el false (logToStderr el) (flushTime el) (logLevel el) efh1
           (depth el)) w1 ∧
    holds efh1 w1 ino
      (c ++ String.list_byte_of_string header ++
       String.list_byte_of_string message ++
       String.list_byte_of_string newline) ∧
    os_dir w1 = os_dir w ∧
    os_stderr w1 =
      os_stderr w ++
      (if logToStderr el then [echo; message; newline] else []).
Proof.
  intros Hp Hl Hm Hh Hd1 Hd2 Hd3. cbv zeta.
  unfold Logger.Printf, lbind, get_el, lret.
  replace (bool_decide (depth el = LOG_DEPTH_GLOBAL) && negb (rd_parsed rd))
    with false.
  2:{ destruct Hp as [?| ->]; [by rewrite bool_decide_false|].
      by rewrite andb_false_r. }
  rewrite decide_False by done. unfold Lock at 1. rewrite Hm.
  unfold Logger.getHeader, lbind, get_el, lret.
  cbn [logToStderr flushTime logLevel writer depth mutex].
  destruct (caller_position (rd_caller rd)) as [file line].
  cbn [fst snd]. set (header := header_text level (rd_now rd) file line).
  set (echo := header_text level (rd_now_stderr rd) file line).
  set (message := Sprintf format args).
  intros Hn1 Hn2 Hn3.
  destruct (writer_Write_appends T N (rd_date1 rd) header
              (mk_el true (logToStderr el) (flushTime el) (logLevel el)
                 (writer el) (depth el)) w ino c)
    as (efh1 & w1 & -> & Hh1 & Hdt1 & Hnb1 & Hse1 & Hdir1); [done..|].
  cbn [logToStderr flushTime logLevel writer depth mutex] in *.
  destruct (logToStderr el) eqn:Hts; unfold to_stderr.
  - apply (holds_stderr _ _ _ _ echo) in Hh1.
    destruct (writer_Write_appends T N (rd_date2 rd) message
                (mk_el true true (flushTime el) (logLevel el) efh1 (depth el))
                (Stderr_WriteString echo w1) ino _ Hh1)
      as (efh2 & w2 & -> & Hh2 & Hdt2 & Hnb2 & Hse2 & Hdir2);
      [cbn; congruence|cbn; by rewrite Hnb1|].
    cbn [logToStderr flushTime logLevel writer depth mutex] in *.
    destruct (writer_Write_appends T N (rd_date3 rd) newline
                (mk_el true true (flushTime el) (logLevel el) efh2 (depth el))
                w2 ino _ Hh2)
      as (efh3 & w3 & -> & Hh3 & Hdt3 & Hnb3 & Hse3 & Hdir3);
      [cbn; congruence|cbn; by rewrite Hnb2, Hnb1|].
    exists efh3,
      (Stderr_WriteString newline (Stderr_WriteString message w3)).
    split; [done|]. split; [by rewrite <-!app_assoc in Hh3|].
    split; [cbn; by rewrite Hdir3, Hdir2|].
    cbn. rewrite Hse3, Hse2. cbn. by rewrite Hse1, <-!app_assoc.
  - destruct (writer_Write_appends T N (rd_date2 rd) message
                (mk_el true false (flushTime el) (logLevel el) efh1 (depth el))
                w1 ino _ Hh1)
      as (efh2 & w2 & -> & Hh2 & Hdt2 & Hnb2 & Hse2 & Hdir2);
      [cbn; congruence|cbn; by rewrite Hnb1|].
    cbn [logToStderr flushTime logLevel writer depth mutex] in *.
    destruct (writer_Write_appends T N (rd_date3 rd) newline
                (mk_el true false (flushTime el) (logLevel el) efh2 (depth el))
                w2 ino _ Hh2)
      as (efh3 & w3 & -> & Hh3 & Hdt3 & Hnb3 & Hse3 & Hdir3);
      [cbn; congruence|cbn; by rewrite Hnb2, Hnb1|].
    exists efh3, w3.
    split; [done|]. split; [by rewrite <-!app_assoc in Hh3|].
    split; [congruence|].
    rewrite app_nil_r. congruence.
Qed.

(** ** The logger: the mutex, and nil pointers *)
















(** ** The logger: where its files are *)

Lemma keeps_path_bind {A B} (m : L A) (k : A → L B) :
  keeps_path m → (∀ a, keeps_path (k a)) → keeps_path (lbind m k).
Proof.
  intros Hm Hk el w b el2 w2. unfold lbind.
  destruct (m el w) as [a el1 w1| |] eqn:H1; [|done..].
  intros H2. apply Hm in H1 as (Hp1 & HA1 & evs1 & Ht1 & Hn1).
  apply Hk in H2 as (Hp2 & HA2 & evs2 & Ht2 & Hn2).
  split; [congruence|]. split; [congruence|].
  exists (evs1 ++ evs2). split; [by rewrite Ht2, Ht1, app_assoc|].
  apply Forall_app. split; [done|]. by rewrite <-Hp1, <-HA1.
Qed.

Lemma keeps_path_same {A} (m : L A) :
  (∀ el w a el1 w1, m el w = Returned a el1 w1 →
     writer el1 = writer el ∧ os_Args0 w1 = os_Args0 w ∧
     os_trace w1 = os_trace w) →
  keeps_path m.
Proof.
  intros Hm el w a el1 w1 (Hw & HA & Ht)%Hm.
  split; [by rewrite Hw|]. split; [done|].
  exists []. by rewrite app_nil_r.
Qed.

Lemma keeps_path_ret {A} (a : A) : keeps_path (lret a).
Proof. apply keeps_path_same. by intros el w a' el1 w1 [= _ <- <-]. Qed.

Lemma keeps_path_get_el {A} (k : EasyLogger → L A) :
  (∀ el0, keeps_path (k el0)) → keeps_path (lbind get_el k).
Proof. intros Hk el w. unfold lbind, get_el. apply Hk. Qed.

Lemma keeps_path_to_stderr s : keeps_path (to_stderr s).
Proof. apply keeps_path_same. by intros el w a' el1 w1 [= _ <- <-]. Qed.

Lemma keeps_path_Lock : keeps_path Lock.
Proof.
  apply keeps_path_same. intros el w a el1 w1. unfold Lock.
  destruct (mutex el); [done|]. by intros [= _ <- <-].
Qed.

Lemma keeps_path_Unlock : keeps_path Unlock.
Proof.
  apply keeps_path_same. intros el w a el1 w1. unfold Unlock.
  destruct (mutex el); [|done]. by intros [= _ <- <-].
Qed.

Lemma keeps_path_if {A} (c : bool) (m1 m2 : L A) :
  keeps_path m1 → keeps_path m2 → keeps_path (if c then m1 else m2).
Proof. by destruct c. Qed.

Lemma ev_named_opens_live dir prog date N evs :
  Forall (ev_named dir prog date N) evs → Forall (opens_live dir prog) evs.
Proof.
  intros H. eapply Forall_impl; [exact H|].
  intros [| | | |name err]; try done. cbn. intros ->. by exists date.
Qed.

Lemma keeps_path_writer_Write T N date s :
  keeps_path (Logger.writer_Write T N date s).
Proof.
  intros el w a el1 w1. unfold Logger.writer_Write, on_writer.
  destruct (Write T N date _ (writer el) w) as [a' efh1 w1'|] eqn:HW; [|done].
  intros [= _ <- <-]. cbn.
  apply Write_ext in HW as (Hp & _ & evs & Hx & Hn).
  split; [done|]. split; [apply Hx|]. exists evs. split; [apply Hx|].
  by eapply ev_named_opens_live.
Qed.

Lemma keeps_path_getHeader T N rd level :
  keeps_path (Logger.getHeader T N rd level).
Proof.
  unfold Logger.getHeader. apply keeps_path_get_el. intros el0.
  destruct (caller_position (rd_caller rd)) as [file line].
  apply keeps_path_bind; [apply keeps_path_writer_Write|]. intros _.
  apply keeps_path_if; [apply keeps_path_to_stderr|apply keeps_path_ret].
Qed.

Lemma keeps_path_Print T N arg Sprintln rd level args :
  keeps_path (Logger.Print T N arg Sprintln rd level args).
Proof.
  unfold Logger.Print. apply keeps_path_get_el. intros el0.
  apply keeps_path_if; [apply keeps_path_to_stderr|].
  case_decide; [apply keeps_path_ret|].
  apply keeps_path_bind; [apply keeps_path_Lock|]. intros _.
  apply keeps_path_bind; [apply keeps_path_getHeader|]. intros _.
  apply keeps_path_bind; [apply keeps_path_writer_Write|]. intros _.
  apply keeps_path_bind; [|intros _; apply keeps_path_Unlock].
  apply keeps_path_if; [apply keeps_path_to_stderr|apply keeps_path_ret].
Qed.

Lemma keeps_path_Printf T N arg Sprintf rd level format args :
  keeps_path (Logger.Printf T N arg Sprintf rd level format args).
Proof.
  unfold Logger.Printf. apply keeps_path_get_el. intros el0.
  apply keeps_path_if; [apply keeps_path_to_stderr|].
  case_decide; [apply keeps_path_ret|].
  apply keeps_path_bind; [apply keeps_path_Lock|]. intros _.
  apply keeps_path_bind; [apply keeps_path_getHeader|]. intros _.
  apply keeps_path_bind; [apply keeps_path_writer_Write|]. intros _.
  apply keeps_path_bind; [apply keeps_path_writer_Write|]. intros _.
  apply keeps_path_bind; [|intros _; apply keeps_path_Unlock].
  apply keeps_path_if; [|apply keeps_path_ret].
  apply keeps_path_bind; [apply keeps_path_to_stderr|].
  intros _. apply keeps_path_to_stderr.
Qed.

Lemma keeps_path_Flush : keeps_path Logger.Flush.
Proof.
  unfold Logger.Flush.
  apply keeps_path_bind; [apply keeps_path_Lock|]. intros _.
  apply keeps_path_bind; [|intros _; apply keeps_path_Unlock].
  intros el w a el1 w1. unfold on_writer.
  destruct (Flush (writer el) w) as [[] efh1 w1'|] eqn:HF; [|done].
  intros [= _ <- <-]. cbn.
  apply Flush_ext in HF as (Hp & _ & evs & Hx & Hn).
  split; [done|]. split; [apply Hx|]. exists evs. split; [apply Hx|].
  eapply Forall_impl; [exact Hn|]. by intros [].
Qed.

Lemma keeps_path_run T N arg Sprintln Sprintf calls :
  keeps_path (Logger.run T N arg Sprintln Sprintf calls).
Proof.
  induction calls as [|[rd level args|rd level format args|] calls IH].
  - apply keeps_path_ret.
  - cbn [Logger.run]. apply keeps_path_bind; [apply keeps_path_Print|done].
  - cbn [Logger.run]. apply keeps_path_bind; [apply keeps_path_Printf|done].
  - cbn [Logger.run]. apply keeps_path_bind; [apply keeps_path_Flush|done].
Qed.

(** X19.  The flag [-logPath] does not reach the handler of the
    package's logger: [init] makes the handler from the variable the flag
    is bound to before the command line is parsed, when it holds the
    default ["./"].  So whatever the command line gives and whatever calls
    follow, the handler's path is ["./"] and every file it opens is
    [.//<program>-<date>.log] for some date. *)
Theorem package_logger_ignores_logPath
    T N arg Sprintln Sprintf given calls w el1 w1 :
  Logger.run T N arg Sprintln Sprintf calls (logger (flag_Parse given init)) w =
    Returned () el1 w1 →
  path (writer el1) = "./" ∧
  ∃ evs, os_trace w1 = os_trace w ++ evs ∧
    ∀ name err, EvOpen name err ∈ evs →
      ∃ date, name = "./" +:+ "/" +:+ os_Args0 w +:+ "-" +:+ date +:+ ".log".
Proof.
  intros (Hp & _ & evs & Ht & Hn)%keeps_path_run.
  split; [done|]. exists evs. split; [done|].
  intros name err Hin. rewrite Forall_forall in Hn. by apply Hn in Hin.
Qed.

(** * Runs on concrete states *)

Lemma Write_rotation_failure_witness :
  ∃ efh1 w1,
    rotateFile 100 10 Examples.day1 Examples.efh_new
      (Examples.w_empty [Fault 13 0]) = Done (Some (Errno 13)) efh1 w1 ∧
    ∃ w2,
      Write 100 10 Examples.day1 Examples.payload Examples.efh_new
        (Examples.w_empty [Fault 13 0]) = Done (0%nat, Some (Errno 13)) efh1 w2 ∧
      os_stderr w2 = os_stderr w1 ++ [Error (Errno 13) +:+ newline].
Proof.
  do 2 eexists. split; [vm_compute; reflexivity|].
  destruct (Write_rotation_failure 100 10 Examples.day1 Examples.payload
              Examples.efh_new (Examples.w_empty [Fault 13 0]) (Errno 13) _ _
              ltac:(vm_compute; reflexivity)) as (w2 & HW & Hse & _).
  exists w2. split; [exact HW|exact Hse].
Defined.

Lemma new_day_over_limit_fails_witness :
  ∃ efh1 w1,
    Examples.day1 ≠ Examples.day2 ∧ 101 > 100 ∧
    date_rollover Examples.day2 (Examples.efh_open [] 101)
      (Examples.w_open [] []) = Done None efh1 w1 ∧
    file efh1 = None ∧ nbytes efh1 = 101 ∧
    Write 100 10 Examples.day2 Examples.payload (Examples.efh_open [] 101)
      (Examples.w_open [] []) =
    Done (0%nat, Some ErrInvalid) efh1
      (Stderr_WriteString (Error ErrInvalid +:+ newline) w1).
Proof.
  do 2 eexists. split; [discriminate|]. split; [lia|].
  split; [vm_compute; reflexivity|].
  destruct (new_day_over_limit_fails 100 10 Examples.day2 Examples.payload
              Examples.dir 0%nat (mk_bw 0 64 [] None) 64 Examples.day1 101
              (Examples.w_open [] []) _ _
              ltac:(discriminate) ltac:(lia) ltac:(vm_compute; reflexivity))
    as (Hf & Hn & _ & _ & _ & HW).
  split; [exact Hf|]. split; [exact Hn|exact HW].
Defined.

(** C4 as worded fails when the call that goes wrong is the close: here the
    date has changed, the close of the old file fails, and the handler
    keeps the old file. *)
Lemma error_leaves_file_nil_counterexample :
  ¬ error_leaves_file_nil 100 10 Examples.day2 (Examples.efh_open [] 0)
      (Examples.w_open [] [Fault 5 0]).
Proof.
  intros H.
  assert (∃ e efh' w',
    rotateFile 100 10 Examples.day2 (Examples.efh_open [] 0)
      (Examples.w_open [] [Fault 5 0]) = Done (Some e) efh' w' ∧
    file efh' = Some 0%nat) as (e & efh' & w' & Hrot & Hf).
  { do 3 eexists. split; vm_compute; reflexivity. }
  apply H in Hrot. congruence.
Qed.

(** The size limit is passed, the close goes through and the removal of
    the oldest backup fails (permission denied): the removal is the last
    call, no rename and no open follows, and [Write] returns its error. *)
Lemma rotation_error_aborts_witness :
  let efh := Examples.efh_open [] 101 in
  let w := Examples.w_open [1; 2]%nat [NoFault; NoFault; Fault 13 0] in
  let gone := chainName Examples.dir Examples.prog Examples.day1 2 in
  ∃ efh' w0,
    Write 100 3 Examples.day1 Examples.payload efh w =
      Done (0%nat, Some (Errno 13)) efh'
        (Stderr_WriteString (Error (Errno 13) +:+ newline) w0) ∧
    os_trace w0 = [EvClose 0 None; EvRemove gone (Some (Errno 13))] ∧
    rotateFile 100 3 Examples.day1 efh w = Done (Some (Errno 13)) efh' w0 ∧
    file efh' = None ∧
    (nbytes efh' ≤ 100 →
     ∀ date' w2,
       rotateFile 100 3 date' efh' w2 =
       open_if_needed date'
         (mk_efh (path efh') None (buffer efh') (bufferSize efh') date'
            (nbytes efh')) w2).
Proof.
  intros efh w gone.
  assert (∃ efh' w',
    Write 100 3 Examples.day1 Examples.payload efh w =
      Done (0%nat, Some (Errno 13)) efh' w' ∧
    os_trace w' = os_trace w ++ [EvClose 0 None; EvRemove gone (Some (Errno 13))])
    as (efh' & w' & HW & Htr).
  { do 2 eexists. split; vm_compute; reflexivity. }
  destruct (rotation_error_aborts 100 3 Examples.day1 Examples.payload efh w)
    as [Hcall Hret].
  destruct (Hcall _ efh' w' _ (EvRemove gone (Some (Errno 13))) (Errno 13)
              HW Htr ltac:(set_solver) eq_refl)
    as (pre & w0 & _ & _ & Hrot & _ & -> & Hf).
  destruct (Hret _ _ _ Hrot) as (HW' & _ & Hnext).
  exists efh', w0. split; [exact HW'|]. split; [exact Htr|].
  split; [exact Hrot|]. split; [exact Hf|]. intros Hn. apply Hnext; [exact Hf|exact Hn].
Defined.

(** C1 as worded fails when the flush of the rotation fails: the date has
    changed, one byte is pending, the write of the flush fails (no space
    left), the close and the open go through.  [rotateFile] returns no
    error, and the byte is in no file. *)
Lemma rotation_keeps_bytes_counterexample :
  ¬ rotation_keeps_bytes 100 10 Examples.day2 (Examples.efh_open ["a"%byte] 1)
      (Examples.w_open [] [Fault 28 0]).
Proof.
  intros H.
  assert (∃ efh' w',
    rotateFile 100 10 Examples.day2 (Examples.efh_open ["a"%byte] 1)
      (Examples.w_open [] [Fault 28 0]) = Done None efh' w' ∧
    content w' 0 = [] ∧ content w' 1 = [] ∧ length (os_inodes w') = 2%nat)
    as (efh' & w' & Hrot & Hc & _).
  { do 2 eexists. split; [|split; [|split]]; vm_compute; reflexivity. }
  eapply H in Hrot; [|reflexivity|reflexivity|reflexivity|reflexivity
                     |vm_compute; lia|left; discriminate].
  rewrite Hc in Hrot. discriminate Hrot.
Qed.

Lemma rotation_keeps_flushed_bytes_witness :
  ∃ b1 w1 efh' w',
    os_files (Examples.w_open [] []) !! 0%nat = Some (0%nat, false) ∧
    (0 < length (os_inodes (Examples.w_open [] [])))%nat ∧
    (Examples.day1 ≠ Examples.day2 ∨ 1 > 100) ∧
    bufio_Flush (mk_bw 0 64 ["a"%byte] None) (Examples.w_open [] []) =
      (None, b1, w1) ∧
    rotateFile 100 10 Examples.day2 (Examples.efh_open ["a"%byte] 1)
      (Examples.w_open [] []) = Done None efh' w' ∧
    content w' 0 = content (Examples.w_open [] []) 0 ++ ["a"%byte].
Proof.
  do 4 eexists. split; [reflexivity|]. split; [vm_compute; lia|].
  split; [left; discriminate|]. split; [vm_compute; reflexivity|].
  split; [vm_compute; reflexivity|].
  refine (proj1 (rotation_keeps_flushed_bytes 100 10 Examples.day2
            Examples.dir 0%nat (mk_bw 0 64 ["a"%byte] None) 64 Examples.day1 1
            (Examples.w_open [] []) 0%nat _ _ _ _ _ _ _ _ _ _)).
  - reflexivity.
  - reflexivity.
  - vm_compute; lia.
  - left; discriminate.
  - vm_compute; reflexivity.
  - vm_compute; reflexivity.
Defined.

(** A new handler in an empty directory opens [/var/log/app-2024-01-01.log]
    first, and the name is in the directory afterwards.  A handler over the
    limit, with backups [1] and [2] in the directory: the live file and the
    two backups get the names numbered [1], [2] and [3], by renames, and
    the live name is opened for a new file. *)
Lemma log_file_names_witness :
  let live := "/var/log/app-2024-01-01.log" in
  (∃ efh1 w1 evs',
     Write 100 10 Examples.day1 Examples.payload Examples.efh_new
       (Examples.w_empty []) = Done (40%nat, None) efh1 w1 ∧
     os_trace w1 = EvOpen live None :: evs' ∧ Forall is_write evs' ∧
     is_Some (os_dir w1 !! live)) ∧
  (∃ efh1 w1,
     Write 100 10 Examples.day1 Examples.payload (Examples.efh_open [] 101)
       (Examples.w_open [1; 2]%nat []) = Done (40%nat, None) efh1 w1 ∧
     os_dir w1 !! live = Some 3%nat ∧
     os_dir w1 !! (live +:+ ".1") = Some 0%nat ∧
     os_dir w1 !! (live +:+ ".2") = Some 1%nat ∧
     os_dir w1 !! (live +:+ ".3") = Some 2%nat ∧
     EvRename (live +:+ ".2") (live +:+ ".3") None ∈ os_trace w1 ∧
     EvRename (live +:+ ".1") (live +:+ ".2") None ∈ os_trace w1 ∧
     EvRename live (live +:+ ".1") None ∈ os_trace w1 ∧
     EvOpen live None ∈ os_trace w1).
Proof.
  intros live. split.
  - assert (∃ efh1 w1 evs0,
      Write 100 10 Examples.day1 Examples.payload Examples.efh_new
        (Examples.w_empty []) = Done (40%nat, None) efh1 w1 ∧
      os_trace w1 = EvOpen live None :: evs0)
      as (efh1 & w1 & evs0 & HW & Hfirst)
      by (do 3 eexists; split; vm_compute; reflexivity).
    destruct (log_file_names _ _ _ _ _ _ _ _ _ HW)
      as (evs & Htr & _ & Hopen & _).
    destruct (Hopen eq_refl ltac:(cbn; lia)) as (err & evs' & -> & Hw & Hdir).
    rewrite Hfirst in Htr. injection Htr as Hev <-.
    assert (err = None) as -> by congruence.
    exists efh1, w1, evs0. split; [exact HW|]. split; [exact Hfirst|].
    split; [exact Hw|]. exact (Hdir eq_refl).
  - assert (∃ efh1 w1,
      Write 100 10 Examples.day1 Examples.payload (Examples.efh_open [] 101)
        (Examples.w_open [1; 2]%nat []) = Done (40%nat, None) efh1 w1)
      as (efh1 & w1 & HW) by (do 2 eexists; vm_compute; reflexivity).
    destruct (log_file_names _ _ _ _ _ _ _ _ _ HW)
      as (evs & Htr & _ & _ & Hrot).
    destruct (Hrot 0%nat [])
      as (Hlive & Hopen & Hchain); [|reflexivity|cbn; lia|lia|].
    { exists 0%nat, (mk_bw 0 64 [] None). repeat split. cbn. lia. }
    destruct (Hchain 1 ltac:(lia)) as [Hd1 Hr1].
    destruct (Hchain 2 ltac:(lia)) as [Hd2 Hr2].
    destruct (Hchain 3 ltac:(lia)) as [Hd3 Hr3].
    change (os_trace w1 = evs) in Htr. subst evs.
    exists efh1, w1. split; [exact HW|]. split; [exact Hlive|].
    split; [exact Hd1|]. split; [exact Hd2|]. split; [exact Hd3|].
    split; [apply Hr3; by eexists|]. split; [apply Hr2; by eexists|].
    split; [apply Hr1; by eexists|]. exact Hopen.
Defined.

(** The directory of [Examples.w_chain], name by name. *)
Lemma w_chain_lookup faults i a :
  os_dir (Examples.w_chain faults)
    !! chainName Examples.dir Examples.prog Examples.day1 i = Some a →
  (i = 0 ∧ a = 2 ∨ i = 1 ∧ a = 1 ∨ i = 2 ∧ a = 0)%nat.
Proof.
  unfold Examples.w_chain. cbn [os_dir].
  rewrite !lookup_insert_Some, lookup_singleton_Some.
  intros [[?%(inj _) <-]|[_ [[?%(inj _) <-]|[_ [?%(inj _) <-]]]]]; lia.
Qed.

(** The size limit is passed twice in a directory whose chain is full for
    a depth of three: both rotations remove the oldest backup and shift
    the others, and the files of the day stay three. *)
Lemma backup_chain_depth_witness :
  let ops := [OpWrite Examples.day1 Examples.payload;
              OpWrite Examples.day1 Examples.payload;
              OpWrite Examples.day1 Examples.payload; OpFlush;
              OpWrite Examples.day1 Examples.payload] in
  let gone := chainName Examples.dir Examples.prog Examples.day1 2 in
  (∀ name,
     name ∈ dom (os_dir (Examples.w_chain [])) →
     log_name Examples.dir Examples.prog Examples.day1 name →
     name ∈ chain_names Examples.dir Examples.prog Examples.day1 3) ∧
  chain_inv Examples.dir Examples.prog Examples.day1
    (os_dir (Examples.w_chain []), length (os_inodes (Examples.w_chain []))) ∧
  ∃ efh1 w1,
    run 100 3 ops (Examples.efh_open [] 101) (Examples.w_chain []) =
      Done () efh1 w1 ∧
    count_occ event_eq_dec (os_trace w1) (EvRemove gone None) = 2%nat ∧
    os_dir w1 !! chainName Examples.dir Examples.prog Examples.day1 0 =
      Some 4%nat ∧
    os_dir w1 !! chainName Examples.dir Examples.prog Examples.day1 1 =
      Some 3%nat ∧
    os_dir w1 !! chainName Examples.dir Examples.prog Examples.day1 2 =
      Some 2%nat ∧
    (∀ l : list string,
       NoDup l →
       (∀ name, name ∈ l →
          name ∈ dom (os_dir w1) ∧
          log_name Examples.dir Examples.prog Examples.day1 name) →
       (length l ≤ Z.to_nat 3)%nat) ∧
    (∀ i j a b, (i < j)%nat →
       os_dir w1 !! chainName Examples.dir Examples.prog Examples.day1 i =
         Some a →
       os_dir w1 !! chainName Examples.dir Examples.prog Examples.day1 j =
         Some b →
       (b < a)%nat).
Proof.
  intros ops gone.
  assert (∀ name,
            name ∈ dom (os_dir (Examples.w_chain [])) →
            log_name Examples.dir Examples.prog Examples.day1 name →
            name ∈ chain_names Examples.dir Examples.prog Examples.day1 3)
    as Hdir.
  { intros name Hin _. unfold Examples.w_chain in Hin. cbn [os_dir] in Hin.
    rewrite !dom_insert, dom_singleton in Hin.
    rewrite !elem_of_union, !elem_of_singleton in Hin.
    destruct Hin as [->|[->| ->]]; apply chainName_in_chain; lia. }
  assert (chain_inv Examples.dir Examples.prog Examples.day1
            (os_dir (Examples.w_chain []),
             length (os_inodes (Examples.w_chain [])))) as Hinv.
  { split; cbn [fst snd].
    - intros name ino. unfold Examples.w_chain. cbn [os_dir os_inodes length].
      rewrite !lookup_insert_Some, lookup_singleton_Some. intros H.
      destruct H as [[_ <-]|[_ [[_ <-]|[_ [_ <-]]]]]; lia.
    - intros i j a b Hij Hi%w_chain_lookup Hj%w_chain_lookup. lia. }
  assert (∃ efh1 w1,
    run 100 3 ops (Examples.efh_open [] 101) (Examples.w_chain []) =
      Done () efh1 w1 ∧
    count_occ event_eq_dec (os_trace w1) (EvRemove gone None) = 2%nat ∧
    os_dir w1 !! chainName Examples.dir Examples.prog Examples.day1 0 =
      Some 4%nat ∧
    os_dir w1 !! chainName Examples.dir Examples.prog Examples.day1 1 =
      Some 3%nat ∧
    os_dir w1 !! chainName Examples.dir Examples.prog Examples.day1 2 =
      Some 2%nat)
    as (efh1 & w1 & Hrun & Htr & Hd0 & Hd1 & Hd2).
  { do 2 eexists. split; [vm_compute; reflexivity|].
    split; [vm_compute; reflexivity|].
    split; [vm_compute; reflexivity|]. split; vm_compute; reflexivity. }
  destruct (backup_chain_depth 100 3 Examples.day1 ops
              (Examples.efh_open [] 101) (Examples.w_chain []) efh1 w1
              ltac:(lia) ltac:(by repeat constructor) Hdir Hinv Hrun)
    as (_ & Hlen & _ & Hage).
  split; [exact Hdir|]. split; [exact Hinv|].
  exists efh1, w1. split; [exact Hrun|]. split; [exact Htr|].
  split; [exact Hd0|]. split; [exact Hd1|]. split; [exact Hd2|].
  split; [exact Hlen|exact Hage].
Defined.

Lemma backup_chain_rotation_witness :
  (2 ≤ 10)%nat ∧ os_faults (Examples.w_open [1; 2]%nat []) = [] ∧
  os_files (Examples.w_open [1; 2]%nat []) !! 0%nat = Some (0%nat, false) ∧
  101 > 100 ∧
  ∃ efh' w',
    rotateFile 100 10 Examples.day1 (Examples.efh_open [] 101)
      (Examples.w_open [1; 2]%nat []) = Done None efh' w' ∧
    nbytes efh' = 0 ∧ file efh' = Some 1%nat.
Proof.
  split; [lia|]. split; [reflexivity|]. split; [reflexivity|].
  split; [lia|].
  pose proof (backup_chain_rotation 100 10 Examples.day1 Examples.dir 0%nat
                (mk_bw 0 64 [] None) 64 101 (Examples.w_open [1; 2]%nat [])
                0%nat ltac:(lia) eq_refl eq_refl ltac:(lia)) as H.
  destruct (bufio_Flush _ _) as [[r b1] w1].
  destruct (spec_backup_chain _ _ _ _ _) as [d2 tr2].
  destruct H as [_ H]. do 2 eexists. split; [exact H|]. split; reflexivity.
Defined.

(** The counter stands at the limit, 100, and the write appends to the
    live file; at 101 it rotates first; and the run of three writes of 40
    bytes. *)
Lemma size_limit_checked_before_append_witness :
  (∃ efh1 w1,
     Write 100 10 Examples.day1 Examples.payload (Examples.efh_open [] 100)
       (Examples.w_open [] []) = Done (40%nat, None) efh1 w1 ∧
     holds efh1 w1 0 Examples.payload ∧ nbytes efh1 = 140 ∧
     os_dir w1 = os_dir (Examples.w_open [] []) ∧
     length (os_inodes w1) = 1%nat) ∧
  (∃ efh1 w1,
     Write 100 10 Examples.day1 Examples.payload (Examples.efh_open [] 101)
       (Examples.w_open [] []) = Done (40%nat, None) efh1 w1 ∧
     holds efh1 w1 1 Examples.payload ∧ nbytes efh1 = 40 ∧
     os_dir w1 !! liveName Examples.dir Examples.prog Examples.day1 =
       Some 1%nat ∧
     os_dir w1 !! backupName Examples.dir Examples.prog Examples.day1 1 =
       Some 0%nat) ∧
  length Examples.payload = 40%nat ∧
  ∃ efh3 w3 efh4 w4,
    run 100 LOG_MAX_ROTATE_FILE_NUM
        [OpWrite Examples.day1 Examples.payload;
         OpWrite Examples.day1 Examples.payload;
         OpWrite Examples.day1 Examples.payload]
        (NewEasyFileHandler Examples.dir 64)
        (mk_os Examples.prog ∅ [] [] [] [] [])
      = Done () efh3 w3 ∧
    nbytes efh3 = 120 ∧
    rotateFile 100 LOG_MAX_ROTATE_FILE_NUM Examples.day1 efh3 w3 =
      Done None efh4 w4 ∧
    content w4 0 = Examples.payload ++ Examples.payload ++ Examples.payload ∧
    content w4 1 = [].
Proof.
  destruct size_limit_checked_before_append as (Hle & Hgt & Hrun).
  assert (∀ n, holds (Examples.efh_open [] n) (Examples.w_open [] []) 0 [])
    as Hh.
  { intros n. exists 0%nat, (mk_bw 0 64 [] None). repeat split. cbn. lia. }
  split; [|split; [|split; [reflexivity|]]].
  - destruct (Hle 100 10 Examples.day1 Examples.payload
                (Examples.efh_open [] 100) (Examples.w_open [] []) 0%nat []
                (Hh 100) eq_refl ltac:(cbn; lia))
      as (efh1 & w1 & evs & HW & Hh1 & Hn & Hdir & Hl & _).
    exists efh1, w1. repeat split; assumption.
  - destruct (Hgt 100 10%nat Examples.day1 Examples.payload
                (Examples.efh_open [] 101) (Examples.w_open [] []) 0%nat []
                (Hh 101) eq_refl ltac:(cbn; lia) ltac:(lia))
      as (efh1 & w1 & HW & _ & Hh1 & Hn & Hlive & Hb).
    exists efh1, w1. repeat split; assumption.
  - destruct (Hrun Examples.dir 64 Examples.prog
                Examples.day1 Examples.payload Examples.payload
                Examples.payload Examples.payload eq_refl eq_refl eq_refl)
      as (efh3 & w3 & efh4 & w4 & _ & _ & Hr & _ & Hn & _ & Hrot & _ & Hc0 & _
          & Hc1 & _).
    exists efh3, w3, efh4, w4. repeat split; assumption.
Defined.

Lemma rename_failure_aborts_witness :
  ∃ efh' w' evs,
    Write 100 10 Examples.day1 Examples.payload (Examples.efh_open [] 101)
      (Examples.w_open [1; 2]%nat (replicate 11 NoFault ++ [Fault 5 0])) =
      Done (0%nat, Some (Errno 5)) efh' w' ∧
    os_trace w' =
      os_trace (Examples.w_open [1; 2]%nat (replicate 11 NoFault ++ [Fault 5 0]))
      ++ evs ∧
    EvRename "/var/log/app-2024-01-01.log.1" "/var/log/app-2024-01-01.log.2"
      (Some (Errno 5)) ∈ evs ∧
    ∃ pre js,
      evs = pre ++ shift_evs Examples.dir Examples.prog Examples.day1 js ++
            [EvRename "/var/log/app-2024-01-01.log.1"
               "/var/log/app-2024-01-01.log.2" (Some (Errno 5))] ∧
      os_dir w' =
      foldl dir_effect
        (os_dir (Examples.w_open [1; 2]%nat
                   (replicate 11 NoFault ++ [Fault 5 0])))
        (pre ++ shift_evs Examples.dir Examples.prog Examples.day1 js).
Proof.
  do 3 eexists.
  match goal with
  | |- ?A ∧ _ => assert (HW : A) by (vm_compute; reflexivity); split; [exact HW|]
  end.
  match goal with
  | |- ?A ∧ _ => assert (Htr : A) by (vm_compute; reflexivity); split; [exact Htr|]
  end.
  match goal with
  | |- ?A ∧ _ =>
      assert (Hin : A)
        by (do 2 apply list_elem_of_further; apply list_elem_of_here);
      split; [exact Hin|]
  end.
  destruct (rename_failure_aborts _ _ _ _ _ _ _ _ _ _ _ _ _ HW Htr Hin)
    as (_ & pre & js & i & Hevs & _ & _ & _ & _ & _ & _ & Hdir).
  exists pre, js. split; [exact Hevs|exact Hdir].
Defined.

(** The chain that run leaves behind: the file of index [2] has moved to
    index [3], the files of index [1] and [0] are where they were, and
    index [2] is empty. *)
Example rename_failure_partial_shift :
  ∃ efh' w',
    Write 100 10 Examples.day1 Examples.payload (Examples.efh_open [] 101)
      (Examples.w_open [1; 2]%nat (replicate 11 NoFault ++ [Fault 5 0])) =
      Done (0%nat, Some (Errno 5)) efh' w' ∧
    os_dir w' !! "/var/log/app-2024-01-01.log.3" = Some 2%nat ∧
    os_dir w' !! "/var/log/app-2024-01-01.log.2" = None ∧
    os_dir w' !! "/var/log/app-2024-01-01.log.1" = Some 1%nat ∧
    os_dir w' !! "/var/log/app-2024-01-01.log" = Some 0%nat.
Proof.
  do 2 eexists. split; [vm_compute; reflexivity|].
  split; [vm_compute; reflexivity|]. split; [vm_compute; reflexivity|].
  split; vm_compute; reflexivity.
Qed.

(** ** Runs of the handler and of the logger *)


(** A rotation at depth three in the directory of [Examples.w_chain], one
    byte pending: the oldest backup loses its name; the file that was live
    holds its three bytes and the pending one under the name numbered 1,
    the backup that was numbered 1 holds its three bytes under the name
    numbered 2, and the new live file holds the payload. *)
Lemma files_only_grow_witness :
  let name (i : nat) := chainName Examples.dir Examples.prog Examples.day1 i in
  ∃ efh1 w1,
    run 100 3 [OpWrite Examples.day1 Examples.payload; OpFlush]
      (Examples.efh_open ["a"%byte] 101) (Examples.w_chain []) =
      Done () efh1 w1 ∧
    EvRemove (name 2%nat) None ∈ os_trace w1 ∧
    os_dir w1 !! name 1%nat = Some 2%nat ∧
    content (Examples.w_chain []) 2 = ["n"%byte; "e"%byte; "w"%byte] ∧
    content w1 2 = ["n"%byte; "e"%byte; "w"%byte; "a"%byte] ∧
    (∃ more, content w1 2 = content (Examples.w_chain []) 2 ++ more) ∧
    os_dir w1 !! name 2%nat = Some 1%nat ∧
    (∃ more, content w1 1 = content (Examples.w_chain []) 1 ++ more) ∧
    os_dir w1 !! name 0%nat = Some 3%nat ∧
    content w1 3 = Examples.payload.
Proof.
  intros name.
  assert (∃ efh1 w1,
    run 100 3 [OpWrite Examples.day1 Examples.payload; OpFlush]
      (Examples.efh_open ["a"%byte] 101) (Examples.w_chain []) =
      Done () efh1 w1 ∧
    count_occ event_eq_dec (os_trace w1) (EvRemove (name 2%nat) None) = 1%nat ∧
    os_dir w1 !! name 1%nat = Some 2%nat ∧
    content w1 2 = ["n"%byte; "e"%byte; "w"%byte; "a"%byte] ∧
    os_dir w1 !! name 2%nat = Some 1%nat ∧
    os_dir w1 !! name 0%nat = Some 3%nat ∧
    content w1 3 = Examples.payload)
    as (efh1 & w1 & Hrun & Hrm & Hd1 & Hc2 & Hd2 & Hd0 & Hc3).
  { do 2 eexists. split; [vm_compute; reflexivity|].
    split; [vm_compute; reflexivity|]. split; [vm_compute; reflexivity|].
    split; [vm_compute; reflexivity|]. split; [vm_compute; reflexivity|].
    split; vm_compute; reflexivity. }
  exists efh1, w1. split; [exact Hrun|].
  split; [apply list_elem_of_In, (count_occ_In event_eq_dec); rewrite Hrm; lia|].
  split; [exact Hd1|]. split; [reflexivity|]. split; [exact Hc2|].
  split; [exact (files_only_grow _ _ _ _ _ _ _ _ _ Hrun Hd1)|].
  split; [exact Hd2|].
  split; [exact (files_only_grow _ _ _ _ _ _ _ _ _ Hrun Hd2)|].
  split; [exact Hd0|exact Hc3].
Defined.

Lemma other_names_untouched_witness :
  ∃ efh1 w1,
    2 ≤ 10 ∧
    run 100 10 [OpWrite Examples.day2 Examples.payload; OpFlush]
      Examples.efh_new (Examples.w_old []) = Done () efh1 w1 ∧
    os_dir w1 !! "/var/log/app-2024-01-01.log" =
    os_dir (Examples.w_old []) !! "/var/log/app-2024-01-01.log".
Proof.
  assert (∃ efh1 w1,
    run 100 10 [OpWrite Examples.day2 Examples.payload; OpFlush]
      Examples.efh_new (Examples.w_old []) = Done () efh1 w1)
    as (efh1 & w1 & Hrun) by (do 2 eexists; vm_compute; reflexivity).
  assert (∀ date data,
    OpWrite date data ∈ [OpWrite Examples.day2 Examples.payload; OpFlush] →
    "/var/log/app-2024-01-01.log" ∉
      chain_names (path Examples.efh_new) (os_Args0 (Examples.w_old []))
        date 10) as Hname.
  { intros date data Hin. apply elem_of_cons in Hin as [[= -> _]|Hin].
    - apply (bool_decide_unpack _). vm_compute. exact I.
    - apply elem_of_cons in Hin as [?|Hin]; [discriminate|].
      by apply elem_of_nil in Hin. }
  exists efh1, w1. split; [lia|]. split; [exact Hrun|].
  apply (other_names_untouched 100 10 _ _ _ _ _ _ ltac:(lia) Hname Hrun).
Defined.

Lemma Write_that_fits_is_buffered_witness :
  0 ≤ 100 ∧ (length Examples.payload ≤ Available (mk_bw 0 64 [] None))%nat ∧
  Write 100 10 Examples.day1 Examples.payload (Examples.efh_open [] 0)
    (Examples.w_open [] [Fault 5 0]) =
  Done (40%nat, None) (Examples.efh_open Examples.payload 40)
    (Examples.w_open [] [Fault 5 0]).
Proof.
  assert ((length Examples.payload ≤ Available (mk_bw 0 64 [] None))%nat)
    as Hfit by (vm_compute; lia).
  split; [lia|]. split; [exact Hfit|].
  exact (Write_that_fits_is_buffered 100 10 Examples.day1 Examples.payload
           Examples.dir 0%nat (mk_bw 0 64 [] None) 64 0
           (Examples.w_open [] [Fault 5 0]) ltac:(lia) eq_refl Hfit).
Defined.

Lemma failed_buffer_drops_writes_witness :
  let efh1 :=
    mk_efh Examples.dir (Some 0%nat)
      (Some (mk_bw 0 64 ["a"%byte] (Some (Errno 28)))) 64 Examples.day1 1 in
  ∃ w1,
    Flush (Examples.efh_open ["a"%byte] 1) (Examples.w_open [] [Fault 28 0]) =
      Done () efh1 w1 ∧
    1 ≤ 100 ∧
    Write 100 10 Examples.day1 Examples.payload efh1 w1 =
      Done (0%nat, Some (Errno 28))
        (mk_efh Examples.dir (Some 0%nat)
           (Some (mk_bw 0 64 ["a"%byte] (Some (Errno 28)))) 64 Examples.day1 41)
        w1.
Proof.
  cbv zeta. eexists. split; [vm_compute; reflexivity|]. split; [lia|].
  exact (proj1 (failed_buffer_drops_writes 100 10 Examples.day1
                  Examples.payload Examples.dir 0%nat
                  (mk_bw 0 64 ["a"%byte] (Some (Errno 28))) 64 1 _ (Errno 28)
                  ltac:(lia) eq_refl)).
Defined.

Lemma handler_over_limit_without_file_is_stuck_witness :
  let stuck :=
    mk_efh Examples.dir None (Some (mk_bw 0 64 [] None)) 64 Examples.day1 101 in
  ∃ w1,
    Write 100 10 Examples.day1 Examples.payload (Examples.efh_open [] 101)
      (Examples.w_open [1; 2]%nat (replicate 11 NoFault ++ [Fault 5 0])) =
      Done (0%nat, Some (Errno 5)) stuck w1 ∧
    101 > 100 ∧
    ∃ d1,
      run 100 10
        [OpWrite Examples.day1 Examples.payload; OpFlush;
         OpWrite Examples.day2 Examples.payload] stuck w1 =
      Done ()
        (mk_efh Examples.dir None (Some (mk_bw 0 64 [] None)) 64 d1 101)
        (set_stderr
           (os_stderr w1 ++ replicate 2 (Error ErrInvalid +:+ newline)) w1).
Proof.
  cbv zeta. eexists. split; [vm_compute; reflexivity|]. split; [lia|].
  exact (proj2 (handler_over_limit_without_file_is_stuck 100 10
                  [OpWrite Examples.day1 Examples.payload; OpFlush;
                   OpWrite Examples.day2 Examples.payload]
                  Examples.dir (mk_bw 0 64 [] None) 64 Examples.day1 101 _
                  ltac:(lia) (or_intror eq_refl))).
Defined.

Lemma written_and_flushed_witness :
  holds (Examples.efh_open [] 0) (Examples.w_open [] []) 0 [] ∧
  0 + Z.of_nat (length (concat [Examples.payload; Examples.payload])) ≤ 100 ∧
  ∃ efh1 w1,
    run 100 10
      [OpWrite Examples.day1 Examples.payload;
       OpWrite Examples.day1 Examples.payload; OpFlush]
      (Examples.efh_open [] 0) (Examples.w_open [] []) = Done () efh1 w1 ∧
    content w1 0 = Examples.payload ++ Examples.payload ∧
    nbytes efh1 = 80.
Proof.
  assert (holds (Examples.efh_open [] 0) (Examples.w_open [] []) 0 []) as Hh.
  { exists 0%nat, (mk_bw 0 64 [] None). repeat split. vm_compute; lia. }
  assert (0 + Z.of_nat (length (concat [Examples.payload; Examples.payload]))
          ≤ 100) as Hn by (vm_compute; discriminate).
  split; [exact Hh|]. split; [exact Hn|].
  destruct (written_and_flushed 100 10 Examples.day1
              [Examples.payload; Examples.payload]
              (Examples.efh_open [] 0) (Examples.w_open [] []) 0 [] Hh eq_refl
              ltac:(simpl; lia) Hn ltac:(lia))
    as (efh1 & w1 & Hrun & Hc & _ & Hnb & _).
  exists efh1, w1. split; [exact Hrun|]. split; [|exact Hnb].
  rewrite Hc. reflexivity.
Defined.

Lemma Write_on_a_new_day_witness :
  holds (Examples.efh_open ["a"%byte] 1) (Examples.w_open [] []) 0 ["a"%byte] ∧
  Examples.day1 ≠ Examples.day2 ∧ 1 ≤ 100 ∧
  os_dir (Examples.w_open [] [])
    !! liveName Examples.dir Examples.prog Examples.day2 = None ∧
  ∃ efh1 w1,
    Write 100 10 Examples.day2 Examples.payload
      (Examples.efh_open ["a"%byte] 1) (Examples.w_open [] []) =
      Done (40%nat, None) efh1 w1 ∧
    os_files w1 !! 0%nat = Some (0%nat, true) ∧
    content w1 0 = ["a"%byte] ∧
    holds efh1 w1 1 Examples.payload ∧
    currentDate efh1 = Examples.day2.
Proof.
  assert (holds (Examples.efh_open ["a"%byte] 1) (Examples.w_open [] []) 0
            ["a"%byte]) as Hh.
  { exists 0%nat, (mk_bw 0 64 ["a"%byte] None). repeat split.
    vm_compute; lia. }
  assert (os_dir (Examples.w_open [] [])
            !! liveName Examples.dir Examples.prog Examples.day2 = None)
    as Hfree by (vm_compute; reflexivity).
  split; [exact Hh|]. split; [discriminate|]. split; [lia|].
  split; [exact Hfree|].
  destruct (Write_on_a_new_day 100 10 Examples.day2 Examples.payload
              (Examples.efh_open ["a"%byte] 1) (Examples.w_open [] []) 0
              ["a"%byte] Hh ltac:(discriminate) ltac:(simpl; lia) Hfree)
    as (efh1 & w1 & f & HW & [= <-] & Hcl & Hc & Hh1 & Hd & _).
  exists efh1, w1. split; [exact HW|]. split; [exact Hcl|].
  split; [exact Hc|]. split; [exact Hh1|exact Hd].
Defined.

Lemma Write_reopens_the_file_of_the_day_witness :
  os_faults (Examples.w_old []) = [] ∧ 0 ≤ 100 ∧
  os_dir (Examples.w_old [])
    !! liveName Examples.dir Examples.prog Examples.day1 = Some 0%nat ∧
  (0 < length (os_inodes (Examples.w_old [])))%nat ∧
  ∃ efh1 w1,
    Write 100 10 Examples.day1 Examples.payload Examples.efh_new
      (Examples.w_old []) = Done (40%nat, None) efh1 w1 ∧
    holds efh1 w1 0 (["o"; "l"; "d"]%byte ++ Examples.payload) ∧
    nbytes efh1 = 40.
Proof.
  assert (os_dir (Examples.w_old [])
            !! liveName Examples.dir Examples.prog Examples.day1 = Some 0%nat)
    as Hlive by (vm_compute; reflexivity).
  assert (0 < length (os_inodes (Examples.w_old [])))%nat as Hi
    by (vm_compute; lia).
  split; [reflexivity|]. split; [lia|]. split; [exact Hlive|].
  split; [exact Hi|].
  destruct (Write_reopens_the_file_of_the_day 100 10 Examples.day1
              Examples.payload Examples.dir None 64 "" 0 (Examples.w_old [])
              0%nat eq_refl ltac:(lia) Hlive Hi)
    as (efh1 & w1 & HW & Hh1 & _ & Hnb & _).
  exists efh1, w1. split; [exact HW|]. split; [exact Hh1|exact Hnb].
Defined.

Lemma logging_before_flag_Parse_witness :
  depth (logger init) = LOG_DEPTH_GLOBAL ∧
  Forall before_Parse
    [Logger.CallPrint (Examples.rd false) LOG_LEVEL_ERROR ["disk"; "full"];
     Logger.CallFlush;
     Logger.CallPrintf (Examples.rd false) LOG_LEVEL_INFO "started" []] ∧
  Logger.run 100 10 string Examples.Sprintln Examples.plain
    [Logger.CallPrint (Examples.rd false) LOG_LEVEL_ERROR ["disk"; "full"];
     Logger.CallFlush;
     Logger.CallPrintf (Examples.rd false) LOG_LEVEL_INFO "started" []]
    (logger init) (Examples.w_empty []) =
  Returned () (logger init)
    (set_stderr
       (replicate 2 ("ERROR: logging before flag.Parse" +:+ newline))
       (Examples.w_empty [])).
Proof.
  assert (Forall before_Parse
    [Logger.CallPrint (Examples.rd false) LOG_LEVEL_ERROR ["disk"; "full"];
     Logger.CallFlush;
     Logger.CallPrintf (Examples.rd false) LOG_LEVEL_INFO "started" []])
    as Hcalls by (repeat constructor).
  split; [reflexivity|]. split; [exact Hcalls|].
  exact (logging_before_flag_Parse 100 10 string Examples.Sprintln
           Examples.plain _ (logger init) (Examples.w_empty [])
           eq_refl eq_refl eq_refl Hcalls).
Defined.

Lemma methods_below_the_level_are_dropped_witness :
  (depth (Examples.el_open false "debug") ≠ LOG_DEPTH_GLOBAL ∨
   rd_parsed (Examples.rd true) = true) ∧
  logLevel (Examples.el_open false "debug") ≠ "DEBUG" ∧
  Logger.Debug 100 10 string Examples.Sprintln (Examples.rd true)
    ["details"] (Examples.el_open false "debug") (Examples.w_open [] []) =
  Returned () (Examples.el_open false "debug") (Examples.w_open [] []).
Proof.
  split; [by right|]. split; [discriminate|].
  exact (proj1 (proj1 (methods_below_the_level_are_dropped 100 10 string
                         Examples.Sprintln Examples.plain (Examples.rd true) ""
                         ["details"] (Examples.el_open false "debug")
                         (Examples.w_open [] []) (or_intror eq_refl))
                  ltac:(discriminate))).
Defined.

Lemma Print_writes_one_line_witness :
  let el := Examples.el_open true "INFO" in
  let w := Examples.w_open [] [] in
  (depth el ≠ LOG_DEPTH_GLOBAL ∨ rd_parsed (Examples.rd true) = true) ∧
  ¬ LOG_LEVEL_INFO < getLogLevelInt (logLevel el) ∧
  holds (writer el) w 0 [] ∧
  ∃ efh1 w1,
    Logger.Print 100 10 string Examples.Sprintln (Examples.rd true)
      LOG_LEVEL_INFO ["hello"; "world"] el w =
      Returned () (mk_el false true 3 "INFO" efh1 LOG_DEPTH_HANDLER) w1 ∧
    holds efh1 w1 0
      (String.list_byte_of_string
         ("[INFO][2024-01-01 10:00:00][file:main.go line:42] hello world" +:+
          newline)) ∧
    os_stderr w1 =
      ["[INFO][2024-01-01 10:00:01][file:main.go line:42] ";
       "hello world" +:+ newline].
Proof.
  cbv zeta.
  assert (¬ LOG_LEVEL_INFO <
            getLogLevelInt (logLevel (Examples.el_open true "INFO"))) as Hl
    by (vm_compute; discriminate).
  assert (holds (writer (Examples.el_open true "INFO")) (Examples.w_open [] [])
            0 []) as Hh.
  { exists 0%nat, (mk_bw 0 64 [] None). repeat split. vm_compute; lia. }
  split; [by right|]. split; [exact Hl|]. split; [exact Hh|].
  destruct (Print_writes_one_line 100 10 string Examples.Sprintln
              (Examples.rd true) LOG_LEVEL_INFO ["hello"; "world"]
              (Examples.el_open true "INFO") (Examples.w_open [] []) 0 []
              (or_intror eq_refl) Hl eq_refl Hh eq_refl eq_refl
              ltac:(simpl; lia) ltac:(vm_compute; discriminate))
    as (efh1 & w1 & HP & Hh1 & _ & Hse).
  exists efh1, w1. split; [exact HP|]. split; [exact Hh1|exact Hse].
Defined.

Lemma Printf_writes_one_line_witness :
  let el := Examples.el_open false "INFO" in
  let w := Examples.w_open [] [] in
  (depth el ≠ LOG_DEPTH_GLOBAL ∨ rd_parsed (Examples.rd true) = true) ∧
  ¬ LOG_LEVEL_WARN < getLogLevelInt (logLevel el) ∧
  holds (writer el) w 0 [] ∧
  ∃ efh1 w1,
    Logger.Printf 100 10 string Examples.plain (Examples.rd true)
      LOG_LEVEL_WARN "disk almost full" [] el w =
      Returned () (mk_el false false 3 "INFO" efh1 LOG_DEPTH_HANDLER) w1 ∧
    holds efh1 w1 0
      (String.list_byte_of_string
         ("[WARN][2024-01-01 10:00:00][file:main.go line:42] disk almost full"
          +:+ newline)) ∧
    os_stderr w1 = [].
Proof.
  cbv zeta.
  assert (¬ LOG_LEVEL_WARN <
            getLogLevelInt (logLevel (Examples.el_open false "INFO"))) as Hl
    by (vm_compute; discriminate).
  assert (holds (writer (Examples.el_open false "INFO")) (Examples.w_open [] [])
            0 []) as Hh.
  { exists 0%nat, (mk_bw 0 64 [] None). repeat split. vm_compute; lia. }
  split; [by right|]. split; [exact Hl|]. split; [exact Hh|].
  destruct (Printf_writes_one_line 100 10 string Examples.plain
              (Examples.rd true) LOG_LEVEL_WARN "disk almost full" []
              (Examples.el_open false "INFO") (Examples.w_open [] []) 0 []
              (or_intror eq_refl) Hl eq_refl Hh eq_refl eq_refl eq_refl
              ltac:(simpl; lia) ltac:(vm_compute; discriminate)
              ltac:(vm_compute; discriminate))
    as (efh1 & w1 & HP & Hh1 & _ & Hse).
  exists efh1, w1. split; [exact HP|]. split; [exact Hh1|exact Hse].
Defined.


Lemma package_logger_ignores_logPath_witness :
  ∃ el1 w1,
    Logger.run 100 10 string Examples.Sprintln Examples.plain
      [Logger.CallPrint (Examples.rd true) LOG_LEVEL_INFO ["a"]]
      (logger (flag_Parse (mk_flags None None None (Some "/var/log")) init))
      (Examples.w_empty [Fault 13 0; Fault 13 0]) = Returned () el1 w1 ∧
    logPath (flag_Parse (mk_flags None None None (Some "/var/log")) init) =
      "/var/log" ∧
    path (writer el1) = "./" ∧
    EvOpen ".//app-2024-01-01.log" (Some (Errno 13)) ∈ os_trace w1.
Proof.
  assert (∃ el1 w1,
    Logger.run 100 10 string Examples.Sprintln Examples.plain
      [Logger.CallPrint (Examples.rd true) LOG_LEVEL_INFO ["a"]]
      (logger (flag_Parse (mk_flags None None None (Some "/var/log")) init))
      (Examples.w_empty [Fault 13 0; Fault 13 0]) = Returned () el1 w1 ∧
    EvOpen ".//app-2024-01-01.log" (Some (Errno 13)) ∈ os_trace w1)
    as (el1 & w1 & Hrun & Hopen).
  { do 2 eexists. split; [vm_compute; reflexivity|]. apply elem_of_cons; by left. }
  exists el1, w1. split; [exact Hrun|]. split; [reflexivity|].
  split; [|exact Hopen].
  exact (proj1 (package_logger_ignores_logPath 100 10 string Examples.Sprintln
                  Examples.plain _ _ _ _ _ Hrun)).
Defined.
